(** * The ASL descriptor-stream reader (kis_asl_reader.cpp)

    A shallow embedding of the reader of Photoshop layer-style (ASL)
    files: the string and number readers, the tagged-value and
    descriptor decoders, the pattern and virtual-array decoders, and
    the container driver [readFileImpl] / [KisAslReader::readFile].

    Conventions of the embedding.
    - A byte is a [Z] in [0, 255]; [quint16]/[quint32] reduce modulo
      2^16 / 2^32 and [to_int] is the conversion to a 32-bit [int].
    - The [QIODevice] is a byte buffer with a cursor.
    - The C++ exceptions, [qFatal], the write through a null pointer
      and the DOM mutations are threaded through the monad [M]: a
      computation takes the device and gives
      back an outcome, the device as it is left, and the nodes it has
      appended to its [parent] element, in order.  A thrown
      [ASLParseException] keeps the device and the nodes appended
      before the throw, as stack unwinding does. *)

From Stdlib Require Import ZArith List String Ascii Bool Lia DecimalString.
Import ListNotations.
Set Warnings "-register-all".
Local Open Scope string_scope.
Local Open Scope Z_scope.
Local Open Scope list_scope.

(** ** Fixed-width integers *)

Definition quint16 (z : Z) : Z := z mod 2 ^ 16.
Definition quint32 (z : Z) : Z := z mod 2 ^ 32.

(** Conversion of a 32-bit pattern to [int] (two's complement). *)
Definition to_int (z : Z) : Z := (z + 2 ^ 31) mod 2 ^ 32 - 2 ^ 31.

Definition GARBAGE_VALUE_MARK : Z := 999.

(** ** QByteArray and QString *)

Definition QByteArray := list Z.

Definition ascii_of_byte (b : Z) : ascii := ascii_of_N (Z.to_N (b mod 256)).

(** [QString(const QByteArray &)]: the bytes up to the first NUL, one
    character per byte. *)
Fixpoint QString_of_bytes (data : QByteArray) : string :=
  match data with
  | [] => EmptyString
  | b :: rest =>
      if b mod 256 =? 0 then EmptyString
      else String (ascii_of_byte b) (QString_of_bytes rest)
  end.

(** [QByteRef] read access, [dataPlanes[plane][i]] on a non-const
    [QByteArray]: the byte at [i], and [char(0)] when [i] is not below
    the size of the array. *)
Definition QByteRef_read (a : QByteArray) (i : nat) : Z := nth i a 0.

(** ** The device *)

Record QIODevice : Type := mkDevice { buffer : list Z; pos : Z }.

Definition remainingBytes (d : QIODevice) : list Z :=
  skipn (Z.to_nat (pos d)) (buffer d).

(** [QByteArray QIODevice::read(qint64 maxSize)]: at most [maxSize]
    bytes, fewer at the end of the data, none for [maxSize <= 0]; the
    cursor moves past the bytes returned. *)
Definition QIODevice_read (maxSize : Z) (d : QIODevice) : QByteArray * QIODevice :=
  let data := firstn (Z.to_nat maxSize) (remainingBytes d) in
  (data, mkDevice (buffer d) (pos d + Z.of_nat (List.length data))).

(** [qint64 QIODevice::read(char *data, qint64 maxSize)]: the number
    of bytes read, and [-1] without reading when [maxSize < 0]. *)
Definition QIODevice_read_into (maxSize : Z) (d : QIODevice) : Z * QByteArray * QIODevice :=
  if maxSize <? 0 then (-1, [], d)
  else let '(data, d') := QIODevice_read maxSize d in
       (Z.of_nat (List.length data), data, d').

(** [QIODevice::seek] on a random-access device. *)
Definition QIODevice_seek (p : Z) (d : QIODevice) : QIODevice :=
  mkDevice (buffer d) p.

(** ** The DOM *)

Inductive QDomNode : Type :=
| QDomElement (tagName : string) (attributes : list (string * string))
              (children : list QDomNode)
| QDomCDATASection (data : string).

(** A null [QDomDocument] is [None]; otherwise the document element. *)
Definition QDomDocument := option QDomNode.

Fixpoint lookupAttribute (name : string) (attrs : list (string * string)) : option string :=
  match attrs with
  | [] => None
  | (k, v) :: rest => if String.eqb k name then Some v else lookupAttribute name rest
  end.

Definition attribute (name : string) (n : QDomNode) : option string :=
  match n with
  | QDomElement _ attrs _ => lookupAttribute name attrs
  | QDomCDATASection _ => None
  end.

Definition childNodes (n : QDomNode) : list QDomNode :=
  match n with
  | QDomElement _ _ kids => kids
  | QDomCDATASection _ => []
  end.

(** ** Exceptions and the reader monad *)

Inductive ASLParseException : Type :=
| FailedToRead (varname : string)
    (* SAFE_READ_EX: "Failed to read '%1' tag!" *)
| FailedSignature (varname : string) (value expected : Z)
    (* SAFE_READ_SIGNATURE_EX: "Failed to check signature '%1' tag!" *)
| FailedString (dataRead expected : Z)
    (* readStringCommon: "Failed to read a string! Bytes read: %1 Expected: %2" *)
| ParseError (msg : string).

Inductive outcome (A : Type) : Type :=
| Ok (a : A)
| Throw (e : ASLParseException)
| Fatal (msg : string)          (* qFatal: the process is aborted *)
| Crash                         (* a write through a null pointer: the process dies *)
| OutOfFuel.
Arguments Ok {A} a.
Arguments Throw {A} e.
Arguments Fatal {A} msg.
Arguments Crash {A}.
Arguments OutOfFuel {A}.

Definition M (A : Type) : Type :=
  QIODevice -> outcome A * QIODevice * list QDomNode.

Definition ret {A} (a : A) : M A := fun d => (Ok a, d, []).

Definition bind {A B} (m : M A) (f : A -> M B) : M B :=
  fun d =>
    match m d with
    | (Ok a, d1, l1) => let '(r, d2, l2) := f a d1 in (r, d2, l1 ++ l2)
    | (Throw e, d1, l1) => (Throw e, d1, l1)
    | (Fatal msg, d1, l1) => (Fatal msg, d1, l1)
    | (Crash, d1, l1) => (Crash, d1, l1)
    | (OutOfFuel, d1, l1) => (OutOfFuel, d1, l1)
    end.

Definition throw {A} (e : ASLParseException) : M A := fun d => (Throw e, d, []).
Definition qFatal {A} (msg : string) : M A := fun d => (Fatal msg, d, []).
Definition crash {A} : M A := fun d => (Crash, d, []).
Definition outOfFuel {A} : M A := fun d => (OutOfFuel, d, []).

(** [parent->appendChild(n)]. *)
Definition appendChild (n : QDomNode) : M unit := fun d => (Ok tt, d, [n]).

(** An element that is appended to its parent first and filled by
    [body] afterwards: whatever [body] appends becomes a child of the
    element, also when [body] throws half way. *)
Definition appendElementThen {A} (mk : list QDomNode -> QDomNode) (body : M A) : M A :=
  fun d => let '(r, d', kids) := body d in (r, d', [mk kids]).

Declare Scope asl_scope.
Delimit Scope asl_scope with asl.
Notation "x <- m ;; k" := (bind m (fun x => k))
  (at level 61, m at next level, right associativity) : asl_scope.
Notation "m ;;; k" := (bind m (fun _ => k))
  (at level 61, right associativity) : asl_scope.
Local Open Scope asl_scope.

(** ** psdread *)

Definition be_decode (data : QByteArray) : Z :=
  fold_left (fun acc b => acc * 256 + b) data 0.

(** Modelled from the spec: [psdread] (psd_utils.h is not among the
    sources) reads a fixed-width integer of the format, most
    significant byte first ('8BSL' reads as 0x3842534c), and reports a
    short read by returning false, leaving the variable as it was. *)
Definition psdread (width : nat) (d : QIODevice) (var : Z) : bool * Z * QIODevice :=
  let '(data, d') := QIODevice_read (Z.of_nat width) d in
  if Nat.eqb (List.length data) width then (true, be_decode data, d')
  else (false, var, d').

(** [SAFE_READ_EX(device, varname)] for a variable of [width] bytes
    initialised to [init]. *)
Definition SAFE_READ_EX (width : nat) (varname : string) (init : Z) : M Z :=
  fun d =>
    let '(ok, v, d') := psdread width d init in
    if ok then (Ok v, d', []) else (Throw (FailedToRead varname), d', []).

(** [SAFE_READ_SIGNATURE_EX(device, varname, expected)]. *)
Definition SAFE_READ_SIGNATURE_EX (width : nat) (varname : string) (init expected : Z) : M Z :=
  fun d =>
    let '(ok, v, d') := psdread width d init in
    if negb ok || negb (v =? expected)
    then (Throw (FailedSignature varname v expected), d', [])
    else (Ok v, d', []).

(** ** String fetch functions *)

Definition readStringCommon (length : Z) : M string :=
  fun d =>
    (* data.resize(length); dataRead = device->read(data.data(), length) *)
    let '(dataRead, data, d') := QIODevice_read_into length d in
    if negb (dataRead =? length)
    then (Throw (FailedString dataRead length), d', [])
    else (Ok (QString_of_bytes data), d', []).

Definition readFixedString : M string := readStringCommon 4.

Definition readVarString : M string :=
  length <- SAFE_READ_EX 4 "length" 0 ;;
  let length := if length =? 0 then 4 else length in
  (* quint32 passed for the parameter [int length] *)
  readStringCommon (to_int length).

Definition readPascalString : M string :=
  length <- SAFE_READ_EX 1 "length" 0 ;;
  readStringCommon length.

(** ** Collaborating modules

    The reader calls into modules that are not part of this file's
    source: the unicode-string reader of psd_utils, the number
    renderer of KisDomUtils for doubles, the PSD compression routines
    and their selectors, the colour-mode enumerators of psd.h, and the
    serialisation of a [KoPattern].  They are taken as parameters. *)

Record QImage : Type := mkImage { imageWidth : Z; imageHeight : Z; bits : list Z }.

Record Collaborators : Type := {
  (* psdread_unicodestring(device, s) on an empty [s]: the success
     flag, the string as it is left, the device as it is left *)
  psdread_unicodestring : QIODevice -> bool * string * QIODevice;
  (* KisDomUtils::Private::numberToString on the double whose eight
     bytes, most significant first, are the argument *)
  numberToString_double : Z -> string;
  (* Compression::uncompress(length, data, kind) *)
  Compression_uncompress : Z -> QByteArray -> Z -> QByteArray;
  Compression_Uncompressed : Z;
  Compression_RLE : Z;
  (* psd_color_mode *)
  psd_Grayscale : Z;
  psd_RGB : Z;
  psd_MultiChannel : Z;
  (* qCompress(buffer).toBase64() of KoPattern(image, name, fileName)
     saved to a buffer *)
  serializePattern : QImage -> string -> string -> string
}.

(** [numberToString] on an unsigned integer: its decimal digits. *)
Definition numberToString (v : Z) : string :=
  NilZero.string_of_uint (N.to_uint (Z.to_N v)).

(** [QString::arg(int)]: a signed decimal. *)
Definition intToString (v : Z) : string :=
  if v <? 0 then ("-" ++ numberToString (- v))%string else numberToString v.

(** [for (quint32 i = 0; i < n; i++) body], with [n] iterations left. *)
Fixpoint forLoop (n : nat) (body : M unit) : M unit :=
  match n with
  | O => ret tt
  | S n' => body ;;; forLoop n' body
  end.

Section Reader.

Variable ext : Collaborators.

Definition readUnicodeString : M string :=
  fun d =>
    let '(ok, s, d') := psdread_unicodestring ext d in
    if negb ok
    then (Throw (ParseError "Failed to read a unicode string!"), d', [])
    else (Ok s, d', []).

(** ** Numerical fetch functions *)

Definition readDoubleAsString : M string :=
  value <- SAFE_READ_EX 8 "value" 0 ;;
  ret (numberToString_double ext value).

Definition readIntAsString : M string :=
  value <- SAFE_READ_EX 4 "value" 0 ;;
  ret (numberToString value).

Definition readBoolAsString : M string :=
  value <- SAFE_READ_EX 1 "value" 0 ;;
  ret (numberToString value).

(** ** XML generation functions *)

Definition keyAttribute (key : string) : list (string * string) :=
  if String.eqb key "" then [] else [("key", key)].

(** The element of [appendXMLNodeCommon]; [extra] are the attributes
    the caller sets on the returned element. *)
Definition XMLNodeCommon (key value type : string)
    (extra : list (string * string)) : QDomNode :=
  QDomElement "node"
    (keyAttribute key ++ [("type", type); ("value", value)] ++ extra) [].

Definition appendXMLNodeCommon (key value type : string)
    (extra : list (string * string)) : M unit :=
  appendChild (XMLNodeCommon key value type extra).

(** The element of [appendXMLNodeCommonNoValue], with the attributes
    the caller sets and the children appended later. *)
Definition XMLNodeCommonNoValue (key type : string)
    (extra : list (string * string)) (kids : list QDomNode) : QDomNode :=
  QDomElement "node" (keyAttribute key ++ [("type", type)] ++ extra) kids.

Definition appendIntegerXMLNode (key value : string) : M unit :=
  appendXMLNodeCommon key value "Integer" [].

Definition appendDoubleXMLNode (key value : string) : M unit :=
  appendXMLNodeCommon key value "Double" [].

Definition appendTextXMLNode (key value : string) : M unit :=
  appendXMLNodeCommon key value "Text" [].

(** ** ASL -> XML parsing functions

    [readChildObject] and [readDescriptor] call each other; [fuel]
    bounds the depth of that recursion (the nesting depth of the
    document), and [OutOfFuel] stands for a nesting deeper than it. *)

Definition readDescriptor_body (readChildObject : bool -> M unit) (key : string) : M unit :=
  name <- readUnicodeString ;;
  classId <- readVarString ;;
  numChildren <- SAFE_READ_EX 4 "numChildren" GARBAGE_VALUE_MARK ;;
  appendElementThen
    (XMLNodeCommonNoValue key "Descriptor" [("classId", classId); ("name", name)])
    (forLoop (Z.to_nat numChildren) (readChildObject false)).

Fixpoint readChildObject (fuel : nat) (skipKey : bool) : M unit :=
  match fuel with
  | O => outOfFuel
  | S fuel' =>
    key <- (if skipKey then ret "" else readVarString) ;;
    OSType <- readFixedString ;;
    if String.eqb OSType "obj " then
      qFatal "no implemented"
    else if String.eqb OSType "Objc" || String.eqb OSType "GlbO" then
      readDescriptor_body (readChildObject fuel') key
    else if String.eqb OSType "VlLs" then
      numItems <- SAFE_READ_EX 4 "numItems" GARBAGE_VALUE_MARK ;;
      appendElementThen (XMLNodeCommonNoValue key "List" [])
        (forLoop (Z.to_nat numItems) (readChildObject fuel' true))
    else if String.eqb OSType "doub" then
      value <- readDoubleAsString ;;
      appendDoubleXMLNode key value
    else if String.eqb OSType "UntF" then
      unit <- readFixedString ;;
      value <- readDoubleAsString ;;
      appendXMLNodeCommon key value "UnitFloat" [("unit", unit)]
    else if String.eqb OSType "TEXT" then
      unicodeString <- readUnicodeString ;;
      appendTextXMLNode key unicodeString
    else if String.eqb OSType "enum" then
      typeId <- readVarString ;;
      value <- readVarString ;;
      appendXMLNodeCommon key value "Enum" [("typeId", typeId)]
    else if String.eqb OSType "long" then
      value <- readIntAsString ;;
      appendIntegerXMLNode key value
    else if String.eqb OSType "bool" then
      value <- readBoolAsString ;;
      appendXMLNodeCommon key value "Boolean" []
    else if String.eqb OSType "type" then
      qFatal "no implemented"
    else if String.eqb OSType "GlbC" then
      qFatal "no implemented"
    else if String.eqb OSType "alis" then
      qFatal "no implemented"
    else if String.eqb OSType "tdta" then
      qFatal "no implemented"
    else
      ret tt
  end.

Definition readDescriptor (fuel : nat) (key : string) : M unit :=
  readDescriptor_body (readChildObject fuel) key.

(** ** The offset verifier *)

(** Modelled from the spec: [SETUP_OFFSET_VERIFIER] declares a
    [KisOffsetOnExitVerifier] (kis_offset_on_exit_verifier.h is not
    among the sources).  On construction it records the expected end
    offset, the current position plus the declared length; when its
    scope is left, by a return or by an exception, and the position is
    not the expected end offset, it seeks there.  [scope] is the rest
    of the block after the declaration. *)
Definition SETUP_OFFSET_VERIFIER {A} (expectedOffset maxPadding : Z) (scope : M A) : M A :=
  fun d =>
    let expectedPos := pos d + expectedOffset in
    match scope d with
    | (Ok a, d', l) =>
        (Ok a, if pos d' =? expectedPos then d' else QIODevice_seek expectedPos d', l)
    | (Throw e, d', l) =>
        (Throw e, if pos d' =? expectedPos then d' else QIODevice_seek expectedPos d', l)
    | other => other
    end.

(** ** QRect, as Qt keeps it: the two corners, in [int] arithmetic *)

Record QRect : Type := mkRect { rx1 : Z; ry1 : Z; rx2 : Z; ry2 : Z }.

(** [QRect(x, y, w, h)] on [quint32] arguments converted to [int]. *)
Definition QRect_xywh (x y w h : Z) : QRect :=
  mkRect (to_int x) (to_int y)
         (to_int (to_int x + to_int w - 1)) (to_int (to_int y + to_int h - 1)).

Definition QRect_width (r : QRect) : Z := to_int (rx2 r - rx1 r + 1).
Definition QRect_height (r : QRect) : Z := to_int (ry2 r - ry1 r + 1).

Definition QRect_eqb (a b : QRect) : bool :=
  (rx1 a =? rx1 b) && (ry1 a =? ry1 b) && (rx2 a =? rx2 b) && (ry2 a =? ry2 b).

(** ** readVirtualArrayList *)

(** [device->pos()], [device->seek(p)] and [device->read(n)]. *)
Definition device_pos : M Z := fun d => (Ok (pos d), d, []).
Definition device_seek (p : Z) : M unit := fun d => (Ok tt, QIODevice_seek p d, []).
Definition device_read (maxSize : Z) : M QByteArray :=
  fun d => let '(data, d') := QIODevice_read maxSize d in (Ok data, d', []).

(** [if (!psdread(device, &var) || !var) throw ASLParseException(msg)]. *)
Definition readNonZero (msg : string) : M Z :=
  fun d =>
    let '(ok, v, d') := psdread 4 d GARBAGE_VALUE_MARK in
    if negb ok || (v =? 0) then (Throw (ParseError msg), d', [])
    else (Ok v, d', []).

Definition size (a : QByteArray) : Z := Z.of_nat (List.length a).

(** [dataPlanes[i] = plane]. *)
Fixpoint setPlane (i : nat) (plane : QByteArray) (dataPlanes : list QByteArray) : list QByteArray :=
  match dataPlanes, i with
  | [], _ => []
  | _ :: rest, O => plane :: rest
  | p :: rest, S i' => p :: setPlane i' plane rest
  end.

(** The first loop over the rows of a run-length plane: the row sizes. *)
Fixpoint readRowSizes (numRows : nat) : M (list Z) :=
  match numRows with
  | O => ret []
  | S n =>
      rowSize <- SAFE_READ_EX 2 "rowSize" GARBAGE_VALUE_MARK ;;
      rest <- readRowSizes n ;;
      ret (rowSize :: rest)
  end.

(** The second loop: each row is read, expanded and appended to
    [dataPlanes[i]], here [plane]. *)
Fixpoint readRows (width : Z) (rowSizes : list Z) (plane : QByteArray) : M QByteArray :=
  match rowSizes with
  | [] => ret plane
  | rowSize :: rest =>
      compressedData <- device_read rowSize ;;
      if negb (size compressedData =? rowSize) then
        throw (ParseError "VAList: failed to read compressed data!")
      else
        let uncompressedData :=
          Compression_uncompress ext width compressedData (Compression_RLE ext) in
        if negb (size uncompressedData =? width) then
          throw (ParseError "VAList: failed to decompress data!")
        else
          readRows width rest (plane ++ uncompressedData)
  end.

(** The body of the loop over the planes, for plane [i]. *)
Definition readPlane (arrayRect : QRect) (i : nat) (dataPlanes : list QByteArray)
  : M (list QByteArray) :=
  arrayWritten <- readNonZero "VAList plane has not-written flag set!" ;;
  arrayPlaneLength <- readNonZero "VAList has plane length set to zero!" ;;
  SETUP_OFFSET_VERIFIER arrayPlaneLength 0 (
    here <- device_pos ;;
    let nextPos := here + arrayPlaneLength in
    pixelDepth1 <- SAFE_READ_EX 4 "pixelDepth1" GARBAGE_VALUE_MARK ;;
    y0 <- SAFE_READ_EX 4 "y0" 0 ;;
    x0 <- SAFE_READ_EX 4 "x0" 0 ;;
    y1 <- SAFE_READ_EX 4 "y1" 0 ;;
    x1 <- SAFE_READ_EX 4 "x1" 0 ;;
    let planeRect := QRect_xywh x0 y0 (quint32 (x1 - x0)) (quint32 (y1 - y0)) in
    if negb (QRect_eqb planeRect arrayRect) then
      throw (ParseError "VAList: planes are not uniform. Not supported yet!")
    else
    pixelDepth2 <- SAFE_READ_EX 2 "pixelDepth2" (quint16 GARBAGE_VALUE_MARK) ;;
    useCompression <- SAFE_READ_EX 1 "useCompression" 9 ;;
    if negb (pixelDepth1 =? pixelDepth2) then
      throw (ParseError "VAList: two pixel depths of the plane are not equal (it is not documented)!")
    else if negb (pixelDepth1 =? 8) then
      throw (ParseError "VAList: supported pixel depth of the plane in 8 only!")
    else
    let dataLength := to_int (QRect_width planeRect * QRect_height planeRect) in
    plane <-
      (if useCompression =? Compression_Uncompressed ext then
         device_read dataLength
       else if useCompression =? Compression_RLE ext then
         let numRows := QRect_height planeRect in
         rowSizes <- readRowSizes (Z.to_nat numRows) ;;
         readRows (QRect_width planeRect) rowSizes (nth i dataPlanes [])
       else
         throw (ParseError "VAList: ZIP compression is not implemented yet!")) ;;
    if negb (size plane =? dataLength) then
      throw (ParseError "VAList: failed to read/uncompress data plane!")
    else
    device_seek nextPos ;;;
    ret (setPlane i plane dataPlanes)).

(** [for (int i = 0; i < numPlanes; i++)], with [n] planes left. *)
Fixpoint readPlanes (n : nat) (arrayRect : QRect) (i : nat) (dataPlanes : list QByteArray)
  : M (list QByteArray) :=
  match n with
  | O => ret dataPlanes
  | S n' =>
      dataPlanes' <- readPlane arrayRect i dataPlanes ;;
      readPlanes n' arrayRect (S i) dataPlanes'
  end.

(** The loops that fill the image: for each pixel the channels
    [j = 2, 1, 0] from plane [qMin(numPlanes, j)], then 0xFF.  On a
    little-endian host these four bytes are the blue, green, red and
    alpha of a Format_ARGB32 pixel. *)
Definition composePixel (numPlanes : Z) (dataPlanes : list QByteArray) (i : nat) : list Z :=
  map (fun j => let plane := Z.min numPlanes j in
                QByteRef_read (nth (Z.to_nat plane) dataPlanes []) i)
      [2; 1; 0]
  ++ [255].

Definition INT_MAX : Z := 2 ^ 31 - 1.

(** [QImage image(size, QImage::Format_ARGB32)] is the null image,
    0x0 and with [bits() == 0], when Qt 4 refuses the size: a width or
    a height that is not positive, more than [INT_MAX / 32] pixels in
    a line, more lines than [INT_MAX] bytes hold, or than [INT_MAX]
    bytes hold line pointers (of 8 bytes).  Memory that cannot be had
    is outside the model, here as for every other allocation. *)
Definition QImage_isNull (width height : Z) : bool :=
  (width <=? 0) || (height <=? 0)
  || (INT_MAX / 32 <? width)
  || (INT_MAX / (4 * width) <? height)
  || (INT_MAX / 8 <? height).

Definition nullImage : QImage := mkImage 0 0 [].

(** From [QImage image(arrayRect.size(), ...)] to [return image]: on a
    null image the loop writes through [dstPtr == 0] as soon as
    [dataLength] is positive; with no pixel to write the null image is
    returned. *)
Definition composeImage (numPlanes : Z) (arrayRect : QRect) (dataPlanes : list QByteArray)
  : M QImage :=
  let dataLength := to_int (QRect_width arrayRect * QRect_height arrayRect) in
  if QImage_isNull (QRect_width arrayRect) (QRect_height arrayRect) then
    if 0 <? dataLength then crash else ret nullImage
  else
    ret (mkImage (QRect_width arrayRect) (QRect_height arrayRect)
           (flat_map (composePixel numPlanes dataPlanes) (seq 0 (Z.to_nat dataLength)))).

Definition readVirtualArrayList (numPlanes : Z) : M QImage :=
  arrayVersion <- SAFE_READ_EX 4 "arrayVersion" GARBAGE_VALUE_MARK ;;
  if negb (arrayVersion =? 3) then
    throw (ParseError "VAList version is not '3'!")
  else
  arrayLength <- SAFE_READ_EX 4 "arrayLength" GARBAGE_VALUE_MARK ;;
  SETUP_OFFSET_VERIFIER arrayLength 100 (
    y0 <- SAFE_READ_EX 4 "y0" 0 ;;
    x0 <- SAFE_READ_EX 4 "x0" 0 ;;
    y1 <- SAFE_READ_EX 4 "y1" 0 ;;
    x1 <- SAFE_READ_EX 4 "x1" 0 ;;
    let arrayRect := QRect_xywh x0 y0 (quint32 (x1 - x0)) (quint32 (y1 - y0)) in
    numberOfChannels <- SAFE_READ_EX 4 "numberOfChannels" GARBAGE_VALUE_MARK ;;
    if negb (numberOfChannels =? 24) then
      throw (ParseError "VAList: Krita doesn't support ASL files with 'numberOfChannels' flag not equal to 24 (it is not documented)!")
    else if negb (numPlanes =? 1) && negb (numPlanes =? 3) then
      throw (ParseError "VAList: unsupported number of planes!")
    else
    dataPlanes <- readPlanes (Z.to_nat numPlanes) arrayRect 0 [[]; []; []] ;;
    composeImage numPlanes arrayRect dataPlanes).

(** ** readPattern *)

(** Modelled from the spec: [KisAslWriterUtils::alignOffsetCeil]
    (kis_asl_writer_utils.h is not among the sources) rounds an offset
    up to the next multiple of the alignment. *)
Definition alignOffsetCeil (pos alignment : Z) : Z :=
  (pos + alignment - 1) / alignment * alignment.

Definition readPattern : M Z :=
  patternSize <- SAFE_READ_EX 4 "patternSize" GARBAGE_VALUE_MARK ;;
  (* patterns are always aligned by 4 bytes; the result is stored
     back into the quint32 *)
  let patternSize := quint32 (alignOffsetCeil patternSize 4) in
  SETUP_OFFSET_VERIFIER patternSize 0 (
    patternVersion <- SAFE_READ_EX 4 "patternVersion" GARBAGE_VALUE_MARK ;;
    if negb (patternVersion =? 1) then
      throw (ParseError "Pattern version is not '1'")
    else
    patternImageMode <- SAFE_READ_EX 4 "patternImageMode" GARBAGE_VALUE_MARK ;;
    patternHeight <- SAFE_READ_EX 2 "patternHeight" (quint16 GARBAGE_VALUE_MARK) ;;
    patternWidth <- SAFE_READ_EX 2 "patternWidth" (quint16 GARBAGE_VALUE_MARK) ;;
    (* psdread_unicodestring(device, patternName); the result is dropped *)
    patternName <- (fun d => let '(_, s, d') := psdread_unicodestring ext d in
                             (Ok s, d', [])) ;;
    patternUuid <- readPascalString ;;
    numPlanes <-
      (* the enumerator [mode] is rendered by [arg(int)] *)
      (let mode := patternImageMode in
       if (mode =? psd_MultiChannel ext) || (mode =? psd_Grayscale ext) then ret 1
       else if mode =? psd_RGB ext then ret 3
       else throw (ParseError
              ("Unsupported image mode: " ++ intToString (to_int mode) ++ "!")%string)) ;;
    let fileName := (patternUuid ++ ".pat")%string in
    patternImage <- readVirtualArrayList numPlanes ;;
    let dataSection := QDomCDATASection (serializePattern ext patternImage patternName fileName) in
    let dataElement :=
      QDomElement "node" [("type", "KisPatternData"); ("key", "Data")] [dataSection] in
    let pat :=
      QDomElement "node"
        [("classId", "KisPattern"); ("type", "Descriptor"); ("name", "")]
        [XMLNodeCommon "Nm  " patternName "Text" [];
         XMLNodeCommon "Idnt" patternUuid "Text" [];
         dataElement] in
    appendChild pat ;;;
    (* sizeof(patternSize) + patternSize, in a 64-bit size_t *)
    ret (4 + patternSize)).

(** ** readFileImpl and KisAslReader::readFile *)

(** [try { body } catch (ASLParseException &e) { qWarning() ... }]. *)
Definition tryCatchWarning (body : M unit) : M unit :=
  fun d =>
    match body d with
    | (Throw e, d', l) => (Ok tt, d', l)
    | other => other
    end.

(** [while (bytesRead < patternsSize)]; [fuel] bounds the number of
    iterations. *)
Fixpoint readPatterns (fuel : nat) (bytesRead patternsSize : Z) : M unit :=
  if bytesRead <? patternsSize then
    match fuel with
    | O => outOfFuel
    | S fuel' =>
        chunk <- readPattern ;;
        readPatterns fuel' (bytesRead + chunk) patternsSize
    end
  else ret tt.

(** The block commented "Patterns". *)
Definition readPatternsSection (fuel : nat) : M unit :=
  patternsSize <- SAFE_READ_EX 4 "patternsSize" GARBAGE_VALUE_MARK ;;
  if 0 <? patternsSize then
    SETUP_OFFSET_VERIFIER patternsSize 0 (
      appendElementThen
        (QDomElement "node" [("type", "List"); ("key", "Patterns")])
        (tryCatchWarning (readPatterns fuel 0 patternsSize)))
  else ret tt.

Definition refSignature : Z := 0x3842534c.

(** The statements commented "Styles". *)
Definition readStyles (fuel : nat) : M unit :=
  numStyles <- SAFE_READ_EX 4 "numStyles" GARBAGE_VALUE_MARK ;;
  bytesToRead <- SAFE_READ_EX 4 "bytesToRead" GARBAGE_VALUE_MARK ;;
  SAFE_READ_SIGNATURE_EX 4 "stylesFormatVersion" GARBAGE_VALUE_MARK 16 ;;;
  readDescriptor fuel "" ;;;
  SAFE_READ_SIGNATURE_EX 4 "stylesFormatVersion" GARBAGE_VALUE_MARK 16 ;;;
  readDescriptor fuel "".

(** The statements of [readFileImpl]; the nodes appended are the
    children of the document element [root]. *)
Definition readFileImpl_root (fuel : nat) : M unit :=
  SAFE_READ_SIGNATURE_EX 2 "stylesVersion" (quint16 GARBAGE_VALUE_MARK) 2 ;;;
  SAFE_READ_SIGNATURE_EX 4 "aslSignature" GARBAGE_VALUE_MARK refSignature ;;;
  SAFE_READ_SIGNATURE_EX 2 "patternsVersion" (quint16 GARBAGE_VALUE_MARK) 3 ;;;
  readPatternsSection fuel ;;;
  readStyles fuel.

(** The document under construction: the element "asl" with the
    children appended so far. *)
Definition aslDocument (kids : list QDomNode) : QDomDocument :=
  Some (QDomElement "asl" [] kids).

(** [readFileImpl]: the document is returned when the statements
    complete; an exception leaves the function without it. *)
Definition readFileImpl (fuel : nat) (d : QIODevice) : outcome QDomDocument * QIODevice :=
  match readFileImpl_root fuel d with
  | (Ok _, d', kids) => (Ok (aslDocument kids), d')
  | (Throw e, d', _) => (Throw e, d')
  | (Fatal msg, d', _) => (Fatal msg, d')
  | (Crash, d', _) => (Crash, d')
  | (OutOfFuel, d', _) => (OutOfFuel, d')
  end.

(** [KisAslReader::readFile]: [doc] is default-constructed, assigned
    from [readFileImpl] inside the [try], and returned. *)
Definition readFile (fuel : nat) (d : QIODevice) : outcome QDomDocument * QIODevice :=
  let doc : QDomDocument := None in
  match readFileImpl fuel d with
  | (Ok doc', d') => (Ok doc', d')
  | (Throw e, d') => (Ok doc, d')
  | (Fatal msg, d') => (Fatal msg, d')
  | (Crash, d') => (Crash, d')
  | (OutOfFuel, d') => (OutOfFuel, d')
  end.

End Reader.

(** ** A concrete set of collaborators

    Used to run the reader on concrete streams. *)

(** Modelled from the spec: [psdread_unicodestring] reads a 4-byte
    character count followed by that many UTF-16 code units, and fails
    on a short read, leaving the string empty.  The characters are
    kept by their low byte. *)
Definition psdread_unicodestring_model (d : QIODevice) : bool * string * QIODevice :=
  let '(ok, count, d1) := psdread 4 d 0 in
  if negb ok then (false, "", d1)
  else
    let '(data, d2) := QIODevice_read (2 * count) d1 in
    if negb (Z.of_nat (List.length data) =? 2 * count) then (false, "", d2)
    else
      let fix units (bs : list Z) : string :=
        match bs with
        | hi :: lo :: rest =>
            if (hi =? 0) && (lo =? 0) then units rest
            else String (ascii_of_byte lo) (units rest)
        | _ => ""
        end in
      (true, units data, d2).

(** Modelled from the spec: the run-length scheme of the format
    (PackBits): a header byte [n] below 128 is followed by [n + 1]
    literal bytes, a header byte above 128 by one byte repeated
    [257 - n] times, and 128 is skipped. *)
Fixpoint decodePackBits (fuel : nat) (data : QByteArray) : QByteArray :=
  match fuel, data with
  | S fuel', n :: rest =>
      if n <? 128 then
        firstn (Z.to_nat (n + 1)) rest
          ++ decodePackBits fuel' (skipn (Z.to_nat (n + 1)) rest)
      else if n =? 128 then decodePackBits fuel' rest
      else
        match rest with
        | b :: rest' => repeat b (Z.to_nat (257 - n)) ++ decodePackBits fuel' rest'
        | [] => []
        end
  | _, _ => []
  end.

Definition stdCollaborators : Collaborators := {|
  psdread_unicodestring := psdread_unicodestring_model;
  (* a stand-in: the double is named by its bit pattern *)
  numberToString_double := numberToString;
  Compression_uncompress := fun _ data _ => decodePackBits (List.length data) data;
  Compression_Uncompressed := 0;
  Compression_RLE := 1;
  psd_Grayscale := 1;
  psd_RGB := 3;
  psd_MultiChannel := 7;
  (* a stand-in: the blob is named by the file name and the pattern name *)
  serializePattern := fun _ name fileName => (fileName ++ ":" ++ name)%string
|}.

(** Big-endian encodings, to write streams down. *)
Definition be16 (v : Z) : list Z := [v / 256 mod 256; v mod 256].
Definition be32 (v : Z) : list Z :=
  [v / 16777216 mod 256; v / 65536 mod 256; v / 256 mod 256; v mod 256].
Definition ascii_bytes (s : string) : list Z :=
  map (fun c => Z.of_N (N_of_ascii c)) (list_ascii_of_string s).

(** ** Example streams *)

(** The 4x2 single-plane array of the spec: depth 8, uncompressed. *)
Definition grayPlaneBytes : list Z := [10; 20; 30; 40; 50; 60; 70; 80].

Definition grayVirtualArrayList : list Z :=
  be32 3 ++ be32 59
  ++ be32 0 ++ be32 0 ++ be32 2 ++ be32 4      (* top, left, bottom, right *)
  ++ be32 24
  ++ be32 1 ++ be32 31                          (* written, plane length *)
  ++ be32 8
  ++ be32 0 ++ be32 0 ++ be32 2 ++ be32 4
  ++ be16 8 ++ [0]                              (* depth, uncompressed *)
  ++ grayPlaneBytes.

(** A grayscale pattern record named "p" with identifier "id", after
    its length prefix: 88 bytes. *)
Definition grayPatternBody : list Z :=
  be32 1 ++ be32 1 ++ be16 2 ++ be16 4         (* version, mode, height, width *)
  ++ be32 1 ++ [0; 112]                         (* name *)
  ++ [2; 105; 100]                              (* identifier *)
  ++ grayVirtualArrayList.

Definition grayPattern (declaredSize : Z) : list Z :=
  be32 declaredSize ++ grayPatternBody.

(** A pattern record of version 2. *)
Definition badPattern : list Z := be32 8 ++ be32 2 ++ be32 0.

(** A descriptor with no name, class "null" and no children, and one
    with a single integer child "Vrsn" = 2. *)
Definition emptyDescriptor : list Z :=
  be32 0 ++ be32 0 ++ ascii_bytes "null" ++ be32 0.

Definition versionDescriptor : list Z :=
  be32 0 ++ be32 0 ++ ascii_bytes "null" ++ be32 1
  ++ be32 0 ++ ascii_bytes "Vrsn" ++ ascii_bytes "long" ++ be32 2.

Definition containerHeader : list Z := be16 2 ++ be32 refSignature ++ be16 3.

Definition stylesSection : list Z :=
  be32 1 ++ be32 60
  ++ be32 16 ++ versionDescriptor
  ++ be32 16 ++ emptyDescriptor.

(** A container without patterns. *)
Definition containerNoPatterns : list Z :=
  containerHeader ++ be32 0 ++ stylesSection.

(** A container without patterns whose style count is 7 and whose
    byte count of the styles is 0. *)
Definition containerSevenStyles : list Z :=
  containerHeader ++ be32 0
  ++ be32 7 ++ be32 0
  ++ be32 16 ++ versionDescriptor
  ++ be32 16 ++ emptyDescriptor.

(** A container with one good pattern followed by a bad one. *)
Definition containerTwoPatterns : list Z :=
  containerHeader ++ be32 104 ++ grayPattern 88 ++ badPattern ++ stylesSection.

(** A container with one pattern whose styles format version is 15. *)
Definition containerBadStyles : list Z :=
  containerHeader ++ be32 92 ++ grayPattern 88 ++ be32 1 ++ be32 60 ++ be32 15.

(** ** Predicates used in the statements *)

(** Readers that append no node. *)
Definition silent {A} (m : M A) : Prop :=
  forall d r d' l, m d = (r, d', l) -> l = [].

(** A "Patterns" list node, as the driver creates it. *)
Definition isPatternsList (n : QDomNode) : Prop :=
  attribute "type" n = Some "List" /\ attribute "key" n = Some "Patterns".

(** Decoding of the container [d] arrives at the signature field
    [varname], a [width]-byte integer expected to be [expected], with
    the device at [dField] and [kids] appended to the document
    element. *)
Inductive reachesSignature (ext : Collaborators) (fuel : nat) (d : QIODevice)
  : string -> nat -> Z -> Z -> QIODevice -> list QDomNode -> Prop :=
| reaches_stylesVersion :
    reachesSignature ext fuel d
      "stylesVersion" 2%nat (quint16 GARBAGE_VALUE_MARK) 2 d []
| reaches_aslSignature d1 :
    psdread 2 d (quint16 GARBAGE_VALUE_MARK) = (true, 2, d1) ->
    reachesSignature ext fuel d
      "aslSignature" 4%nat GARBAGE_VALUE_MARK refSignature d1 []
| reaches_patternsVersion d1 d2 :
    psdread 2 d (quint16 GARBAGE_VALUE_MARK) = (true, 2, d1) ->
    psdread 4 d1 GARBAGE_VALUE_MARK = (true, refSignature, d2) ->
    reachesSignature ext fuel d
      "patternsVersion" 2%nat (quint16 GARBAGE_VALUE_MARK) 3 d2 []
| reaches_stylesFormatVersion_first d1 d2 d3 d4 kids numStyles d5 bytesToRead d6 :
    psdread 2 d (quint16 GARBAGE_VALUE_MARK) = (true, 2, d1) ->
    psdread 4 d1 GARBAGE_VALUE_MARK = (true, refSignature, d2) ->
    psdread 2 d2 (quint16 GARBAGE_VALUE_MARK) = (true, 3, d3) ->
    readPatternsSection ext fuel d3 = (Ok tt, d4, kids) ->
    psdread 4 d4 GARBAGE_VALUE_MARK = (true, numStyles, d5) ->
    psdread 4 d5 GARBAGE_VALUE_MARK = (true, bytesToRead, d6) ->
    reachesSignature ext fuel d
      "stylesFormatVersion" 4%nat GARBAGE_VALUE_MARK 16 d6 kids
| reaches_stylesFormatVersion_second
    d1 d2 d3 d4 kids numStyles d5 bytesToRead d6 d7 d8 style :
    psdread 2 d (quint16 GARBAGE_VALUE_MARK) = (true, 2, d1) ->
    psdread 4 d1 GARBAGE_VALUE_MARK = (true, refSignature, d2) ->
    psdread 2 d2 (quint16 GARBAGE_VALUE_MARK) = (true, 3, d3) ->
    readPatternsSection ext fuel d3 = (Ok tt, d4, kids) ->
    psdread 4 d4 GARBAGE_VALUE_MARK = (true, numStyles, d5) ->
    psdread 4 d5 GARBAGE_VALUE_MARK = (true, bytesToRead, d6) ->
    psdread 4 d6 GARBAGE_VALUE_MARK = (true, 16, d7) ->
    readDescriptor ext fuel "" d7 = (Ok tt, d8, style) ->
    reachesSignature ext fuel d
      "stylesFormatVersion" 4%nat GARBAGE_VALUE_MARK 16 d8 (kids ++ style).

(** From the device [d], with [bytesRead] bytes of a section of
    [patternsSize] bytes accounted for, the pattern records [pats]
    decode one after the other, and the next record raises [e],
    leaving the device at [d']. *)
Inductive patternsFailAfter (ext : Collaborators) (patternsSize : Z)
  : Z -> QIODevice -> list QDomNode -> ASLParseException -> QIODevice -> Prop :=
| fails_now bytesRead d e d' :
    bytesRead < patternsSize ->
    readPattern ext d = (Throw e, d', []) ->
    patternsFailAfter ext patternsSize bytesRead d [] e d'
| fails_later bytesRead d chunk d1 pat pats e d' :
    bytesRead < patternsSize ->
    readPattern ext d = (Ok chunk, d1, [pat]) ->
    patternsFailAfter ext patternsSize (bytesRead + chunk) d1 pats e d' ->
    patternsFailAfter ext patternsSize bytesRead d (pat :: pats) e d'.

(** A pattern record cut short two bytes into the character count of
    its name. *)
Definition truncatedNamePattern : list Z :=
  be32 88 ++ be32 1 ++ be32 1 ++ be16 2 ++ be16 4 ++ [0; 0].

(** A computation that appends one "KisPattern" descriptor when it
    completes and nothing when it throws. *)
Definition appendsOnePattern {A} (m : M A) : Prop :=
  forall d r d' l,
    m d = (r, d', l) ->
    match r with
    | Ok _ => exists pat, l = [pat] /\ attribute "classId" pat = Some "KisPattern"
    | _ => l = []
    end.

(** A 4x2 single-plane array with run-length rows: the first row is
    [253; 7], four times the byte 7; the second row is [row2]. *)
Definition rleVirtualArrayList (row2 : list Z) : list Z :=
  let n := Z.of_nat (List.length row2) in
  be32 3 ++ be32 (57 + n)
  ++ be32 0 ++ be32 0 ++ be32 2 ++ be32 4
  ++ be32 24
  ++ be32 1 ++ be32 (29 + n)
  ++ be32 8
  ++ be32 0 ++ be32 0 ++ be32 2 ++ be32 4
  ++ be16 8 ++ [1]                              (* depth, run-length *)
  ++ be16 2 ++ be16 n                           (* row sizes *)
  ++ [253; 7] ++ row2.

Definition rlePattern (row2 : list Z) : list Z :=
  be32 (86 + Z.of_nat (List.length row2))
  ++ be32 1 ++ be32 1 ++ be16 2 ++ be16 4
  ++ be32 1 ++ [0; 112]
  ++ [2; 105; 100]
  ++ rleVirtualArrayList row2.

(** A unicode reader that always fails, reads nothing and leaves the
    string empty; and a pattern record without a name field. *)
Definition namelessCollaborators : Collaborators := {|
  psdread_unicodestring := fun d => (false, "", d);
  numberToString_double := numberToString_double stdCollaborators;
  Compression_uncompress := Compression_uncompress stdCollaborators;
  Compression_Uncompressed := Compression_Uncompressed stdCollaborators;
  Compression_RLE := Compression_RLE stdCollaborators;
  psd_Grayscale := psd_Grayscale stdCollaborators;
  psd_RGB := psd_RGB stdCollaborators;
  psd_MultiChannel := psd_MultiChannel stdCollaborators;
  serializePattern := serializePattern stdCollaborators
|}.

Definition namelessPattern : list Z :=
  be32 82
  ++ be32 1 ++ be32 1 ++ be16 2 ++ be16 4
  ++ [2; 105; 100]
  ++ grayVirtualArrayList.

(** A unicode reader that leaves the buffer alone and does not move
    the cursor backwards. *)
Definition unicodeReaderForward (ext : Collaborators) : Prop :=
  forall d ok s d',
    psdread_unicodestring ext d = (ok, s, d') ->
    buffer d' = buffer d /\ pos d <= pos d'.

(** The number of bytes from the cursor to the end of the buffer. *)
Definition bytesLeft (d : QIODevice) : nat := List.length (remainingBytes d).

(** Computations that keep the buffer, and computations that also
    leave the cursor where it was or further on. *)
Definition keepsBuffer {A} (m : M A) : Prop :=
  forall d r d' l, m d = (r, d', l) -> buffer d' = buffer d.

Definition forward {A} (m : M A) : Prop :=
  forall d r d' l, m d = (r, d', l) -> buffer d' = buffer d /\ pos d <= pos d'.

(** A computation that does not run out of fuel when started with at
    most [k] bytes left. *)
Definition fueled {A} (k : nat) (m : M A) : Prop :=
  forall d r d' l,
    0 <= pos d -> (bytesLeft d <= k)%nat -> m d = (r, d', l) -> r <> OutOfFuel.

(** Readers that have no fuel to run out of. *)
Definition fuelFree {A} (m : M A) : Prop :=
  forall d r d' l, m d = (r, d', l) -> r <> OutOfFuel.

(** ** Further definitions *)

(** [appendPointXMLNode]: a "CrPt" descriptor with the two children
    "Hrzn" and "Vrtc"; both are rendered from [pt.x()].  A [QPointF]
    is the pair of its coordinates, each a double given, as for
    [numberToString_double], by its eight bytes. *)
Definition appendPointXMLNode (ext : Collaborators) (key : string) (pt : Z * Z) : M unit :=
  let pt_x := fst pt in
  appendElementThen
    (XMLNodeCommonNoValue key "Descriptor" [("classId", "CrPt"); ("name", "")])
    (appendDoubleXMLNode "Hrzn" (numberToString_double ext pt_x) ;;;
     appendDoubleXMLNode "Vrtc" (numberToString_double ext pt_x)).

Definition hasAttribute (name : string) (attrs : list (string * string)) : bool :=
  match lookupAttribute name attrs with Some _ => true | None => false end.

Definition isNil {A} (l : list A) : bool :=
  match l with [] => true | _ => false end.

(** The shape of the nodes of tagged values: an element "node" whose
    type is one of the eight value types, unkeyed when it is a member
    of a list; a Descriptor carries a class identifier and a name, a
    List has unkeyed members, and the others are leaves with a value,
    a UnitFloat with its unit and an Enum with its type identifier. *)
Fixpoint valueNode (inList : bool) (n : QDomNode) : bool :=
  match n with
  | QDomCDATASection _ => false
  | QDomElement tagName attrs kids =>
      String.eqb tagName "node"
      && (if inList then negb (hasAttribute "key" attrs) else true)
      && match lookupAttribute "type" attrs with
         | None => false
         | Some type =>
             if String.eqb type "Descriptor" then
               hasAttribute "classId" attrs && hasAttribute "name" attrs
               && forallb (valueNode false) kids
             else if String.eqb type "List" then
               forallb (valueNode true) kids
             else if String.eqb type "UnitFloat" then
               hasAttribute "value" attrs && hasAttribute "unit" attrs && isNil kids
             else if String.eqb type "Enum" then
               hasAttribute "value" attrs && hasAttribute "typeId" attrs && isNil kids
             else if String.eqb type "Integer" || String.eqb type "Double"
                     || String.eqb type "Text" || String.eqb type "Boolean" then
               hasAttribute "value" attrs && isNil kids
             else false
         end
  end.

(** The node of a decoded pattern record. *)
Definition patternNode (patternName patternUuid blob : string) : QDomNode :=
  QDomElement "node"
    [("classId", "KisPattern"); ("type", "Descriptor"); ("name", "")]
    [XMLNodeCommon "Nm  " patternName "Text" [];
     XMLNodeCommon "Idnt" patternUuid "Text" [];
     QDomElement "node" [("type", "KisPatternData"); ("key", "Data")]
       [QDomCDATASection blob]].

Definition isPatternNode (n : QDomNode) : Prop :=
  exists patternName patternUuid blob, n = patternNode patternName patternUuid blob.

(** The pattern records decoded one after the other from [d]: the
    byte counts [chunks] that [readPattern] returns for them, the
    nodes [pats] it appends, and the device [d'] after the last. *)
Fixpoint decodesRecords (ext : Collaborators) (chunks : list Z) (d : QIODevice)
    (pats : list QDomNode) (d' : QIODevice) : Prop :=
  match chunks with
  | [] => pats = [] /\ d' = d
  | chunk :: rest =>
      exists pat d1 pats',
        readPattern ext d = (Ok chunk, d1, [pat])
        /\ pats = pat :: pats'
        /\ decodesRecords ext rest d1 pats' d'
  end.

(** Computations that end normally, with a parse error, or in the
    write through the null pointer: they do not call [qFatal] and do
    not run out of fuel. *)
Definition recoverable {A} (m : M A) : Prop :=
  forall d r d' l,
    m d = (r, d', l) -> (exists a, r = Ok a) \/ (exists e, r = Throw e) \/ r = Crash.

Definition sumZ (l : list Z) : Z := fold_right Z.add 0 l.

(** A three-plane 2x1 array, uncompressed: the planes are red, green
    and blue. *)
Definition rgbPlane (b1 b2 : Z) : list Z :=
  be32 1 ++ be32 25
  ++ be32 8
  ++ be32 0 ++ be32 0 ++ be32 1 ++ be32 2
  ++ be16 8 ++ [0]
  ++ [b1; b2].

Definition rgbVirtualArrayList : list Z :=
  be32 3 ++ be32 119
  ++ be32 0 ++ be32 0 ++ be32 1 ++ be32 2
  ++ be32 24
  ++ rgbPlane 1 2 ++ rgbPlane 3 4 ++ rgbPlane 5 6.

(** A descriptor with three declared children: an integer, a value
    with the unknown tag "abcd", and a list of two booleans. *)
Definition mixedDescriptor : list Z :=
  be32 0 ++ be32 0 ++ ascii_bytes "null" ++ be32 3
  ++ be32 0 ++ ascii_bytes "Vrsn" ++ ascii_bytes "long" ++ be32 2
  ++ be32 0 ++ ascii_bytes "What" ++ ascii_bytes "abcd"
  ++ be32 0 ++ ascii_bytes "Flgs" ++ ascii_bytes "VlLs" ++ be32 2
  ++ ascii_bytes "bool" ++ [1] ++ ascii_bytes "bool" ++ [0].

(** ** Where decoding of a pattern record has arrived *)

(** The plane count that the [switch] of [readPattern] takes from the
    image mode; [None] stands for its [default] branch. *)
Definition numPlanesOfMode (ext : Collaborators) (mode : Z) : option Z :=
  if (mode =? psd_MultiChannel ext) || (mode =? psd_Grayscale ext) then Some 1
  else if mode =? psd_RGB ext then Some 3
  else None.

(** The five integer fields that open the pattern record at [d] can be
    read: the length [declared], the version 1, the image mode [mode],
    the height and the width; the name of the pattern is at [dName]. *)
Inductive patternFieldsRead (d : QIODevice) : Z -> Z -> QIODevice -> Prop :=
| fields_read declared d1 d2 mode d3 patternHeight d4 patternWidth dName :
    psdread 4 d GARBAGE_VALUE_MARK = (true, declared, d1) ->
    psdread 4 d1 GARBAGE_VALUE_MARK = (true, 1, d2) ->
    psdread 4 d2 GARBAGE_VALUE_MARK = (true, mode, d3) ->
    psdread 2 d3 (quint16 GARBAGE_VALUE_MARK) = (true, patternHeight, d4) ->
    psdread 2 d4 (quint16 GARBAGE_VALUE_MARK) = (true, patternWidth, dName) ->
    patternFieldsRead d declared mode dName.

(** The read of a field of the pattern record at [d] other than its
    name fails, the fields before it having been read: one of the five
    integer fields is cut short, or the identifier cannot be read;
    [e] is the exception of that read. *)
Inductive patternFieldFails (ext : Collaborators) (d : QIODevice)
  : ASLParseException -> Prop :=
| fails_patternSize v d1 :
    psdread 4 d GARBAGE_VALUE_MARK = (false, v, d1) ->
    patternFieldFails ext d (FailedToRead "patternSize")
| fails_patternVersion declared d1 v d2 :
    psdread 4 d GARBAGE_VALUE_MARK = (true, declared, d1) ->
    psdread 4 d1 GARBAGE_VALUE_MARK = (false, v, d2) ->
    patternFieldFails ext d (FailedToRead "patternVersion")
| fails_patternImageMode declared d1 d2 v d3 :
    psdread 4 d GARBAGE_VALUE_MARK = (true, declared, d1) ->
    psdread 4 d1 GARBAGE_VALUE_MARK = (true, 1, d2) ->
    psdread 4 d2 GARBAGE_VALUE_MARK = (false, v, d3) ->
    patternFieldFails ext d (FailedToRead "patternImageMode")
| fails_patternHeight declared d1 d2 mode d3 v d4 :
    psdread 4 d GARBAGE_VALUE_MARK = (true, declared, d1) ->
    psdread 4 d1 GARBAGE_VALUE_MARK = (true, 1, d2) ->
    psdread 4 d2 GARBAGE_VALUE_MARK = (true, mode, d3) ->
    psdread 2 d3 (quint16 GARBAGE_VALUE_MARK) = (false, v, d4) ->
    patternFieldFails ext d (FailedToRead "patternHeight")
| fails_patternWidth declared d1 d2 mode d3 patternHeight d4 v d5 :
    psdread 4 d GARBAGE_VALUE_MARK = (true, declared, d1) ->
    psdread 4 d1 GARBAGE_VALUE_MARK = (true, 1, d2) ->
    psdread 4 d2 GARBAGE_VALUE_MARK = (true, mode, d3) ->
    psdread 2 d3 (quint16 GARBAGE_VALUE_MARK) = (true, patternHeight, d4) ->
    psdread 2 d4 (quint16 GARBAGE_VALUE_MARK) = (false, v, d5) ->
    patternFieldFails ext d (FailedToRead "patternWidth")
| fails_identifier declared mode dName ok name dName' e dT :
    patternFieldsRead d declared mode dName ->
    psdread_unicodestring ext dName = (ok, name, dName') ->
    readPascalString dName' = (Throw e, dT, []) ->
    patternFieldFails ext d e.

(** The header of the pattern record at [d] can be read, whatever the
    read of the name reports; the image mode asks for [numPlanes]
    planes and the array starts at [dArray]. *)
Inductive patternHeaderRead (ext : Collaborators) (d : QIODevice)
  : Z -> QIODevice -> Prop :=
| header_read declared mode dName ok name dName' patternUuid dArray numPlanes :
    patternFieldsRead d declared mode dName ->
    psdread_unicodestring ext dName = (ok, name, dName') ->
    readPascalString dName' = (Ok patternUuid, dArray, []) ->
    numPlanesOfMode ext mode = Some numPlanes ->
    patternHeaderRead ext d numPlanes dArray.

(** The header of the array at [d] can be read and is accepted:
    version 3, a length, the rectangle [arrayRect], 24 channels; the
    planes start at [dPlanes]. *)
Inductive arrayHeaderRead (d : QIODevice) : QRect -> QIODevice -> Prop :=
| array_header_read d1 arrayLength d2 y0 e0 x0 e1 y1 e2 x1 e3 dPlanes :
    psdread 4 d GARBAGE_VALUE_MARK = (true, 3, d1) ->
    psdread 4 d1 GARBAGE_VALUE_MARK = (true, arrayLength, d2) ->
    psdread 4 d2 0 = (true, y0, e0) ->
    psdread 4 e0 0 = (true, x0, e1) ->
    psdread 4 e1 0 = (true, y1, e2) ->
    psdread 4 e2 0 = (true, x1, e3) ->
    psdread 4 e3 GARBAGE_VALUE_MARK = (true, 24, dPlanes) ->
    arrayHeaderRead d
      (QRect_xywh x0 y0 (quint32 (x1 - x0)) (quint32 (y1 - y0))) dPlanes.

(** The header of the plane at [d], in an array of rectangle
    [arrayRect], can be read and is accepted: it is written, has a
    length, the depth 8 twice and the rectangle of the array; it
    selects the run-length compression, and its row sizes [rowSizes]
    can be read; the rows start at [dRows]. *)
Inductive planeRowsRead (ext : Collaborators) (arrayRect : QRect) (d : QIODevice)
  : list Z -> QIODevice -> Prop :=
| plane_rows_read arrayWritten d1 arrayPlaneLength d2 d3
                  y0 e0 x0 e1 y1 e2 x1 e3 d4 dSizes rowSizes dRows :
    psdread 4 d GARBAGE_VALUE_MARK = (true, arrayWritten, d1) ->
    arrayWritten <> 0 ->
    psdread 4 d1 GARBAGE_VALUE_MARK = (true, arrayPlaneLength, d2) ->
    arrayPlaneLength <> 0 ->
    psdread 4 d2 GARBAGE_VALUE_MARK = (true, 8, d3) ->
    psdread 4 d3 0 = (true, y0, e0) ->
    psdread 4 e0 0 = (true, x0, e1) ->
    psdread 4 e1 0 = (true, y1, e2) ->
    psdread 4 e2 0 = (true, x1, e3) ->
    QRect_xywh x0 y0 (quint32 (x1 - x0)) (quint32 (y1 - y0)) = arrayRect ->
    psdread 2 e3 (quint16 GARBAGE_VALUE_MARK) = (true, 8, d4) ->
    psdread 1 d4 9 = (true, Compression_RLE ext, dSizes) ->
    Compression_RLE ext <> Compression_Uncompressed ext ->
    readRowSizes (Z.to_nat (QRect_height arrayRect)) dSizes = (Ok rowSizes, dRows, []) ->
    planeRowsRead ext arrayRect d rowSizes dRows.

(** Decoding of the pattern record at [d] arrives at the loop over
    the rows of a run-length plane: the header of the record and of
    its array are read, the planes before plane [i] decode, and the
    header and the row sizes of plane [i] are read.  The loop then
    runs over [rowSizes] from the device [dRows], for rows of [width]
    bytes that are appended to [plane]. *)
Inductive reachesRowLoop (ext : Collaborators) (d : QIODevice)
  : Z -> list Z -> QByteArray -> QIODevice -> Prop :=
| reaches_rows numPlanes dArray arrayRect dPlanes i dataPlanes dPlane
               width rowSizes plane dRows :
    patternHeaderRead ext d numPlanes dArray ->
    arrayHeaderRead dArray arrayRect dPlanes ->
    Z.of_nat i < numPlanes ->
    readPlanes ext i arrayRect 0 [[]; []; []] dPlanes = (Ok dataPlanes, dPlane, []) ->
    planeRowsRead ext arrayRect dPlane rowSizes dRows ->
    width = QRect_width arrayRect ->
    plane = nth i dataPlanes [] ->
    reachesRowLoop ext d width rowSizes plane dRows.

(** Two single-plane arrays that Qt gives no image for: one of width
    0 and height 2, without pixels, and one whose rectangle runs
    backwards, from bottom 2, right 4 to top 0, left 0, so that its
    width and height are negative and their product is 8. *)
Definition emptyVirtualArrayList : list Z :=
  be32 3 ++ be32 51
  ++ be32 0 ++ be32 0 ++ be32 2 ++ be32 0
  ++ be32 24
  ++ be32 1 ++ be32 23
  ++ be32 8
  ++ be32 0 ++ be32 0 ++ be32 2 ++ be32 0
  ++ be16 8 ++ [0].

Definition backwardsVirtualArrayList : list Z :=
  be32 3 ++ be32 59
  ++ be32 2 ++ be32 4 ++ be32 0 ++ be32 0
  ++ be32 24
  ++ be32 1 ++ be32 31
  ++ be32 8
  ++ be32 2 ++ be32 4 ++ be32 0 ++ be32 0
  ++ be16 8 ++ [0]
  ++ grayPlaneBytes.

(** The 4-byte field at [offset] from the cursor, and the rectangle
    of the array that starts at the cursor: its fields top, left,
    bottom and right are at the offsets 8, 12, 16 and 20. *)
Definition fieldAt (d : QIODevice) (offset : Z) : Z :=
  let '(_, v, _) := psdread 4 (mkDevice (buffer d) (pos d + offset)) 0 in v.

Definition arrayRectAt (d : QIODevice) : QRect :=
  let y0 := fieldAt d 8 in
  let x0 := fieldAt d 12 in
  let y1 := fieldAt d 16 in
  let x1 := fieldAt d 20 in
  QRect_xywh x0 y0 (quint32 (x1 - x0)) (quint32 (y1 - y0)).

(** Computations that append at most one node, of the shape
    [valueNode inList]. *)
Definition shaped (inList : bool) {A} (m : M A) : Prop :=
  forall d r d' l,
    m d = (r, d', l) ->
    (List.length l <= 1)%nat /\ forallb (valueNode inList) l = true.

(** * Theorems *)

(** ** Reasoning about the monad *)

Lemma bind_Ok {A B} (m : M A) (f : A -> M B) d a d1 l1 :
  m d = (Ok a, d1, l1) ->
  bind m f d = (let '(r, d2, l2) := f a d1 in (r, d2, l1 ++ l2)).
Proof. intros H. unfold bind. rewrite H. reflexivity. Qed.

Lemma bind_Throw {A B} (m : M A) (f : A -> M B) d e d1 l1 :
  m d = (Throw e, d1, l1) -> bind m f d = (Throw e, d1, l1).
Proof. intros H. unfold bind. rewrite H. reflexivity. Qed.

Lemma SAFE_READ_EX_psdread width varname init d v d1 :
  psdread width d init = (true, v, d1) ->
  SAFE_READ_EX width varname init d = (Ok v, d1, []).
Proof. intros H. unfold SAFE_READ_EX. rewrite H. reflexivity. Qed.

Lemma to_int_small z : 0 <= z < 2 ^ 31 -> to_int z = z.
Proof.
  intros H. unfold to_int.
  rewrite Z.mod_small by lia. lia.
Qed.

Lemma QIODevice_read_pos maxSize d data d' :
  QIODevice_read maxSize d = (data, d') ->
  pos d' = pos d + size data /\ buffer d' = buffer d.
Proof.
  unfold QIODevice_read. intros H. inversion H; subst; clear H.
  simpl. split; reflexivity.
Qed.

Lemma QIODevice_read_size maxSize d data d' :
  0 <= maxSize ->
  QIODevice_read maxSize d = (data, d') -> size data <= maxSize.
Proof.
  unfold QIODevice_read, size. intros Hm H. inversion H; subst; clear H.
  pose proof (firstn_le_length (Z.to_nat maxSize) (remainingBytes d)). lia.
Qed.

(** ** Variable-length strings *)

(** What [readVarString] does once the prefix [n] has been read and
    replaced by the effective length [len]. *)
Lemma readVarString_after_prefix d n d1 :
  psdread 4 d 0 = (true, n, d1) ->
  0 <= n < 2 ^ 31 ->
  readVarString d = readStringCommon (if n =? 0 then 4 else n) d1.
Proof.
  intros Hp Hn. unfold readVarString.
  rewrite (bind_Ok _ _ _ _ _ _ (SAFE_READ_EX_psdread _ _ _ _ _ _ Hp)).
  replace (to_int (if n =? 0 then 4 else n)) with (if n =? 0 then 4 else n).
  - destruct (readStringCommon _ d1) as [[r d2] l2]. reflexivity.
  - symmetry. apply to_int_small. destruct (n =? 0); lia.
Qed.

Lemma readStringCommon_spec len d data d2 :
  0 <= len ->
  QIODevice_read len d = (data, d2) ->
  readStringCommon len d =
    (if size data =? len then Ok (QString_of_bytes data)
     else Throw (FailedString (size data) len), d2, []).
Proof.
  intros Hlen Hr. unfold readStringCommon, QIODevice_read_into.
  destruct (len <? 0) eqn:E; [apply Z.ltb_lt in E; lia|].
  rewrite Hr. fold (size data).
  destruct (size data =? len); reflexivity.
Qed.

(** C9 (amended): after a 4-byte length prefix [n] below 2^31, the
    variable-length string reader reads the payload with the effective
    length [len], which is 4 when [n] is 0 and [n] otherwise: when [len]
    bytes are available it returns them as text and leaves the cursor
    exactly [len] bytes after the prefix; when fewer are available it
    raises the short-read parse error. *)
Theorem readVarString_effective_length d n d1 data d2 :
  psdread 4 d 0 = (true, n, d1) ->
  0 <= n < 2 ^ 31 ->
  QIODevice_read (if n =? 0 then 4 else n) d1 = (data, d2) ->
  let len := if n =? 0 then 4 else n in
  (size data = len ->
     readVarString d = (Ok (QString_of_bytes data), d2, [])
     /\ pos d2 = pos d1 + len)
  /\ (size data <> len ->
     size data < len
     /\ readVarString d = (Throw (FailedString (size data) len), d2, [])).
Proof.
  intros Hp Hn Hr len.
  assert (Hlen : 0 <= len) by (subst len; destruct (n =? 0); lia).
  rewrite (readVarString_after_prefix _ _ _ Hp Hn). fold len in Hr |- *.
  rewrite (readStringCommon_spec _ _ _ _ Hlen Hr).
  destruct (QIODevice_read_pos _ _ _ _ Hr) as [Hpos _].
  pose proof (QIODevice_read_size _ _ _ _ Hlen Hr) as Hsz.
  split; intros H.
  - rewrite H, Z.eqb_refl. split; [reflexivity | lia].
  - split; [lia|].
    destruct (size data =? len) eqn:E; [apply Z.eqb_eq in E; contradiction|].
    reflexivity.
Qed.

(** A prefix of zero followed by the four bytes "null", and a prefix
    of two followed by a single byte. *)
Lemma readVarString_effective_length_witness :
  readVarString (mkDevice [0; 0; 0; 0; 110; 117; 108; 108; 7] 0)
    = (Ok "null", mkDevice [0; 0; 0; 0; 110; 117; 108; 108; 7] 8, [])
  /\ readVarString (mkDevice [0; 0; 0; 2; 110] 0)
    = (Throw (FailedString 1 2), mkDevice [0; 0; 0; 2; 110] 5, []).
Proof.
  split.
  - refine (proj1 (proj1 (readVarString_effective_length
              (mkDevice [0; 0; 0; 0; 110; 117; 108; 108; 7] 0) 0
              (mkDevice [0; 0; 0; 0; 110; 117; 108; 108; 7] 4)
              [110; 117; 108; 108]
              (mkDevice [0; 0; 0; 0; 110; 117; 108; 108; 7] 8)
              _ _ _) _)).
    + reflexivity.
    + lia.
    + reflexivity.
    + reflexivity.
  - refine (proj2 (proj2 (readVarString_effective_length
              (mkDevice [0; 0; 0; 2; 110] 0) 2
              (mkDevice [0; 0; 0; 2; 110] 4)
              [110]
              (mkDevice [0; 0; 0; 2; 110] 5)
              _ _ _) _)).
    + reflexivity.
    + lia.
    + reflexivity.
    + discriminate.
Defined.

(** X1: a length prefix from 2^31 on reaches [readStringCommon] as a
    negative [int]: nothing is read after the prefix; the read reports
    -1, which is taken for a short read, and the parse error names -1
    and the negative length, unless the length is -1 itself (the prefix
    2^32 - 1), when the empty string is returned. *)
Lemma readVarString_large_prefix d n d1 :
  psdread 4 d 0 = (true, n, d1) ->
  2 ^ 31 <= n < 2 ^ 32 ->
  readVarString d
  = (if n =? 2 ^ 32 - 1 then Ok ""
     else Throw (FailedString (-1) (n - 2 ^ 32)), d1, []).
Proof.
  intros Hp Hn. unfold readVarString.
  rewrite (bind_Ok _ _ _ _ _ _ (SAFE_READ_EX_psdread _ _ _ _ _ _ Hp)).
  assert (Hz : (n =? 0) = false) by (apply Z.eqb_neq; lia). rewrite Hz.
  assert (Hi : to_int n = n - 2 ^ 32).
  { unfold to_int.
    replace (n + 2 ^ 31) with ((n - 2 ^ 31) + 1 * 2 ^ 32) by lia.
    rewrite Z.mod_add by lia. rewrite Z.mod_small by lia. lia. }
  rewrite Hi. unfold readStringCommon, QIODevice_read_into.
  assert (Hneg : (n - 2 ^ 32 <? 0) = true) by (apply Z.ltb_lt; lia).
  rewrite Hneg.
  destruct (n =? 2 ^ 32 - 1) eqn:E.
  - apply Z.eqb_eq in E. subst n. reflexivity.
  - assert (Hne : (-1 =? n - 2 ^ 32) = false) by (apply Z.eqb_neq; apply Z.eqb_neq in E; lia).
    rewrite Hne. reflexivity.
Qed.

(** C9 (as stated) fails at the prefix 0xFFFFFFFF: it is not zero, the
    stream holds no payload byte at all, and yet no parse error is
    raised: the length becomes the [int] -1, the read reports -1, the
    two agree, and the empty string is returned with no byte read
    after the prefix. *)
Lemma readVarString_prefix_all_ones :
  let d := mkDevice [255; 255; 255; 255] 0 in
  let d1 := mkDevice [255; 255; 255; 255] 4 in
  psdread 4 d 0 = (true, 4294967295, d1)
  /\ remainingBytes d1 = []
  /\ readVarString d = (Ok "", d1, []).
Proof. repeat split. Qed.

(** ** The composed image *)

Lemma composePixel_single_plane plane0 i :
  composePixel 1 [plane0; []; []] i = [0; 0; QByteRef_read plane0 i; 255].
Proof.
  unfold composePixel. simpl. unfold QByteRef_read.
  destruct i; reflexivity.
Qed.

(** C1: on the 4x2 single-plane array with the plane bytes
    10, 20, ..., 80 the reader succeeds, and in every pixel only the
    third channel byte (red in ARGB32) is the source byte: the first
    two (blue and green) are read from plane [qMin(1, j) = 1], which
    is empty, and come out as 0.  The plane is not replicated. *)
Theorem readVirtualArrayList_single_plane_not_replicated :
  readVirtualArrayList stdCollaborators 1 (mkDevice grayVirtualArrayList 0)
  = (Ok (mkImage 4 2
           [0; 0; 10; 255;  0; 0; 20; 255;  0; 0; 30; 255;  0; 0; 40; 255;
            0; 0; 50; 255;  0; 0; 60; 255;  0; 0; 70; 255;  0; 0; 80; 255]),
     mkDevice grayVirtualArrayList 67, []).
Proof. vm_compute. reflexivity. Qed.

(** ** Type tags of the tagged-value decoder *)

Lemma readChildObject_unlisted_tag ext fuel d OSType d1 :
  readFixedString d = (Ok OSType, d1, []) ->
  ~ In OSType ["obj "; "Objc"; "GlbO"; "VlLs"; "doub"; "UntF"; "TEXT";
               "enum"; "long"; "bool"; "type"; "GlbC"; "alis"; "tdta"] ->
  readChildObject ext (S fuel) true d = (Ok tt, d1, []).
Proof.
  intros Hr Hn. simpl in Hn.
  assert (forall t, OSType <> t -> String.eqb OSType t = false) as Hne
    by (intros t; apply String.eqb_neq).
  cbn [readChildObject].
  unfold bind at 1. unfold ret at 1.
  rewrite (bind_Ok _ _ _ _ _ _ Hr).
  repeat (rewrite Hne by (intro; subst; tauto)).
  reflexivity.
Qed.

(** C2: the tag "abcd" is none of the tags the decoder knows; the
    tagged value is dropped without a node and without an error, and
    decoding goes on after the four bytes of the tag.  The five tags
    that are named as not implemented abort the process instead. *)
Theorem readChildObject_unknown_tag_silently_skipped :
  (forall ext fuel,
     readChildObject ext (S fuel) true (mkDevice (ascii_bytes "abcd") 0)
     = (Ok tt, mkDevice (ascii_bytes "abcd") 4, []))
  /\ Forall (fun tag => forall ext fuel,
        readChildObject ext (S fuel) true (mkDevice (ascii_bytes tag) 0)
        = (Fatal "no implemented", mkDevice (ascii_bytes tag) 4, []))
       ["obj "; "type"; "GlbC"; "alis"; "tdta"].
Proof.
  split.
  - intros ext fuel. reflexivity.
  - repeat constructor.
Qed.

(** ** Silent computations: readers that append no node *)

Lemma silent_bind {A B} (m : M A) (f : A -> M B) :
  silent m -> (forall a, silent (f a)) -> silent (bind m f).
Proof.
  intros Hm Hf d r d' l. unfold bind.
  destruct (m d) as [[r1 d1] l1] eqn:E. apply Hm in E. subst l1.
  destruct r1; try (intros H; inversion H; reflexivity).
  destruct (f a d1) as [[r2 d2] l2] eqn:E2. apply Hf in E2. subst l2.
  intros H; inversion H; reflexivity.
Qed.

Lemma silent_ret {A} (a : A) : silent (ret a).
Proof. intros d r d' l H. inversion H; reflexivity. Qed.

Lemma silent_throw {A} e : silent (@throw A e).
Proof. intros d r d' l H. inversion H; reflexivity. Qed.

Lemma silent_SAFE_READ_EX width varname init : silent (SAFE_READ_EX width varname init).
Proof.
  intros d r d' l. unfold SAFE_READ_EX.
  destruct (psdread width d init) as [[ok v] d1].
  destruct ok; intros H; inversion H; reflexivity.
Qed.

Lemma silent_SAFE_READ_SIGNATURE_EX width varname init expected :
  silent (SAFE_READ_SIGNATURE_EX width varname init expected).
Proof.
  intros d r d' l. unfold SAFE_READ_SIGNATURE_EX.
  destruct (psdread width d init) as [[ok v] d1].
  destruct (negb ok || negb (v =? expected)); intros H; inversion H; reflexivity.
Qed.

Lemma silent_readStringCommon len : silent (readStringCommon len).
Proof.
  intros d r d' l. unfold readStringCommon.
  destruct (QIODevice_read_into len d) as [[n data] d1].
  destruct (negb (n =? len)); intros H; inversion H; reflexivity.
Qed.

Lemma silent_readVarString : silent readVarString.
Proof.
  apply silent_bind; [apply silent_SAFE_READ_EX|].
  intros a. apply silent_readStringCommon.
Qed.

Lemma silent_readPascalString : silent readPascalString.
Proof.
  apply silent_bind; [apply silent_SAFE_READ_EX|].
  intros a. apply silent_readStringCommon.
Qed.

Lemma silent_readUnicodeString ext : silent (readUnicodeString ext).
Proof.
  intros d r d' l. unfold readUnicodeString.
  destruct (psdread_unicodestring ext d) as [[ok s] d1].
  destruct (negb ok); intros H; inversion H; reflexivity.
Qed.

Create HintDb silent.
#[local] Hint Resolve silent_ret silent_throw silent_SAFE_READ_EX
  silent_SAFE_READ_SIGNATURE_EX silent_readStringCommon silent_readVarString
  silent_readPascalString silent_readUnicodeString : silent.

(** ** Inversion of successful runs *)

Lemma bind_Ok_inv {A B} (m : M A) (f : A -> M B) d b d2 l :
  bind m f d = (Ok b, d2, l) ->
  exists a d1 l1 l2,
    m d = (Ok a, d1, l1) /\ f a d1 = (Ok b, d2, l2) /\ l = l1 ++ l2.
Proof.
  unfold bind. destruct (m d) as [[r1 d1] l1].
  destruct r1; try discriminate.
  destruct (f a d1) as [[r2 d2'] l2] eqn:E.
  intros H. inversion H; subst.
  exists a, d1, l1, l2. auto.
Qed.

Lemma bind_silent_Ok_inv {A B} (m : M A) (f : A -> M B) d b d2 l :
  silent m ->
  bind m f d = (Ok b, d2, l) ->
  exists a d1, m d = (Ok a, d1, []) /\ f a d1 = (Ok b, d2, l).
Proof.
  intros Hs H. apply bind_Ok_inv in H.
  destruct H as (a & d1 & l1 & l2 & Hm & Hf & ->).
  pose proof (Hs _ _ _ _ Hm). subst l1.
  exists a, d1. auto.
Qed.

Lemma SAFE_READ_EX_Ok_inv width varname init d v d1 l :
  SAFE_READ_EX width varname init d = (Ok v, d1, l) ->
  psdread width d init = (true, v, d1).
Proof.
  unfold SAFE_READ_EX.
  destruct (psdread width d init) as [[ok v'] d'].
  destruct ok; intros H; inversion H; reflexivity.
Qed.

Lemma SAFE_READ_SIGNATURE_EX_Ok_inv width varname init expected d v d1 l :
  SAFE_READ_SIGNATURE_EX width varname init expected d = (Ok v, d1, l) ->
  psdread width d init = (true, expected, d1).
Proof.
  unfold SAFE_READ_SIGNATURE_EX.
  destruct (psdread width d init) as [[ok v'] d'].
  destruct ok; simpl; [|discriminate].
  destruct (v' =? expected) eqn:E; simpl; [|discriminate].
  apply Z.eqb_eq in E. subst. intros H; inversion H; reflexivity.
Qed.

Lemma psdread_true_device width d init v d1 :
  psdread width d init = (true, v, d1) ->
  d1 = mkDevice (buffer d) (pos d + Z.of_nat width).
Proof.
  unfold psdread, QIODevice_read.
  destruct (Nat.eqb _ width) eqn:E; intros H; inversion H; subst.
  apply Nat.eqb_eq in E. rewrite E. reflexivity.
Qed.

Lemma psdread_device width d init ok v d1 :
  psdread width d init = (ok, v, d1) ->
  buffer d1 = buffer d /\ pos d <= pos d1 <= pos d + Z.of_nat width.
Proof.
  unfold psdread, QIODevice_read.
  pose proof (firstn_le_length (Z.to_nat (Z.of_nat width)) (remainingBytes d)) as Hl.
  destruct (Nat.eqb _ width); intros H; inversion H; subst; simpl; split;
    try reflexivity; lia.
Qed.

(** ** The document the caller receives *)

(** C3 (amended): when a parse error leaves [readFileImpl], the whole
    decode is aborted and [readFile] returns normally with the null
    document; the nodes appended to the document element before the
    failure are not handed to the caller. *)
Theorem readFile_parse_error_null_document ext fuel d e d' kids :
  readFileImpl_root ext fuel d = (Throw e, d', kids) ->
  readFileImpl ext fuel d = (Throw e, d')
  /\ readFile ext fuel d = (Ok None, d').
Proof.
  intros H. unfold readFile, readFileImpl. rewrite H. split; reflexivity.
Qed.

Lemma readFile_parse_error_null_document_witness :
  readFile stdCollaborators 1 (mkDevice [0; 1] 0) = (Ok None, mkDevice [0; 1] 2).
Proof.
  refine (proj2 (readFile_parse_error_null_document stdCollaborators 1
            (mkDevice [0; 1] 0) (FailedSignature "stylesVersion" 1 2)
            (mkDevice [0; 1] 2) [] _)).
  reflexivity.
Defined.

(** C3 (as stated) fails on a container whose pattern decodes and
    whose styles format version is 15: when the error is raised the
    document element holds the "Patterns" list with the decoded
    pattern, and the caller receives the null document instead. *)
Lemma readFile_drops_partial_tree :
  exists e d' kids,
    readFileImpl_root stdCollaborators 1 (mkDevice containerBadStyles 0)
      = (Throw e, d', kids)
    /\ e = FailedSignature "stylesFormatVersion" 15 16
    /\ (exists pat, kids = [QDomElement "node" [("type", "List"); ("key", "Patterns")] [pat]]
                    /\ attribute "classId" pat = Some "KisPattern")
    /\ readFile stdCollaborators 1 (mkDevice containerBadStyles 0) = (Ok None, d')
    /\ (None : QDomDocument) <> aslDocument kids.
Proof.
  do 3 eexists. split; [vm_compute; reflexivity|].
  split; [reflexivity|].
  split; [eexists; split; reflexivity|].
  split; [vm_compute; reflexivity|].
  discriminate.
Qed.

(** ** Containers without patterns *)

Lemma readDescriptor_Ok_inv ext fuel key d u d' l :
  readDescriptor ext fuel key d = (Ok u, d', l) ->
  exists classId name kids,
    l = [XMLNodeCommonNoValue key "Descriptor"
           [("classId", classId); ("name", name)] kids].
Proof.
  unfold readDescriptor, readDescriptor_body. intros H.
  apply bind_silent_Ok_inv in H; [|auto with silent].
  destruct H as (name & d1 & _ & H).
  apply bind_silent_Ok_inv in H; [|auto with silent].
  destruct H as (classId & d2 & _ & H).
  apply bind_silent_Ok_inv in H; [|auto with silent].
  destruct H as (numChildren & d3 & _ & H).
  unfold appendElementThen in H.
  destruct (forLoop _ _ d3) as [[r d4] kids].
  inversion H; subst. eauto.
Qed.

(** ** Signature checks *)

Lemma bind_Ok_then {A B} (m : M A) (f : A -> M B) d a d1 l1 r d2 l2 l :
  m d = (Ok a, d1, l1) -> f a d1 = (r, d2, l2) -> l = l1 ++ l2 ->
  bind m f d = (r, d2, l).
Proof. intros Hm Hf ->. unfold bind. rewrite Hm, Hf. reflexivity. Qed.

Lemma SAFE_READ_SIGNATURE_EX_match width varname init expected d d1 :
  psdread width d init = (true, expected, d1) ->
  SAFE_READ_SIGNATURE_EX width varname init expected d = (Ok expected, d1, []).
Proof.
  intros H. unfold SAFE_READ_SIGNATURE_EX. rewrite H, Z.eqb_refl. reflexivity.
Qed.

Lemma SAFE_READ_SIGNATURE_EX_mismatch width varname init expected d ok v d1 :
  psdread width d init = (ok, v, d1) ->
  ok = false \/ v <> expected ->
  SAFE_READ_SIGNATURE_EX width varname init expected d
  = (Throw (FailedSignature varname v expected), d1, []).
Proof.
  intros H Hbad. unfold SAFE_READ_SIGNATURE_EX. rewrite H.
  destruct Hbad as [-> | Hne]; [reflexivity|].
  apply Z.eqb_neq in Hne. rewrite Hne, orb_true_r. reflexivity.
Qed.

Ltac step_ok H :=
  eapply bind_Ok_then;
  [ first [ apply (SAFE_READ_SIGNATURE_EX_match _ _ _ _ _ _ H)
          | apply (SAFE_READ_EX_psdread _ _ _ _ _ _ H)
          | apply H ]
  | | ].



(** C5: when decoding arrives at one of the signature fields (the
    container version, the magic signature, the version of the
    patterns section, either styles format version) and the field
    cannot be read in full or does not hold the expected value, the
    decode is aborted with the signature-mismatch error, the caller
    gets the null document, and the device is left where the read of
    that very field left it, not past the end of the field. *)
Theorem signature_mismatch_aborts
    ext fuel d varname width init expected dField kids ok v d' :
  reachesSignature ext fuel d varname width init expected dField kids ->
  psdread width dField init = (ok, v, d') ->
  ok = false \/ v <> expected ->
  readFileImpl_root ext fuel d = (Throw (FailedSignature varname v expected), d', kids)
  /\ readFile ext fuel d = (Ok None, d')
  /\ buffer d' = buffer dField
  /\ pos dField <= pos d' <= pos dField + Z.of_nat width.
Proof.
  intros Hreach Hread Hbad.
  pose proof (SAFE_READ_SIGNATURE_EX_mismatch _ varname _ _ _ _ _ _ Hread Hbad) as Hsig.
  assert (Hroot : readFileImpl_root ext fuel d
                  = (Throw (FailedSignature varname v expected), d', kids)).
  { unfold readFileImpl_root, readStyles.
    destruct Hreach.
    - apply bind_Throw, Hsig.
    - step_ok H; [apply bind_Throw, Hsig | reflexivity].
    - step_ok H; [|reflexivity]. step_ok H0; [|reflexivity].
      apply bind_Throw, Hsig.
    - step_ok H; [|reflexivity]. step_ok H0; [|reflexivity].
      step_ok H1; [|reflexivity]. step_ok H2; [|symmetry; apply app_nil_r].
      step_ok H3; [|reflexivity]. step_ok H4; [|reflexivity].
      apply bind_Throw, Hsig.
    - step_ok H; [|reflexivity]. step_ok H0; [|reflexivity].
      step_ok H1; [|reflexivity]. step_ok H2; [|reflexivity].
      step_ok H3; [|reflexivity]. step_ok H4; [|reflexivity].
      step_ok H5; [|reflexivity]. step_ok H6; [|symmetry; apply app_nil_r].
      apply bind_Throw, Hsig. }
  split; [exact Hroot|].
  split; [unfold readFile, readFileImpl; rewrite Hroot; reflexivity|].
  apply (psdread_device _ _ _ _ _ _ Hread).
Qed.

(** A container of version 1, and the container whose first styles
    format version is 15. *)
Lemma signature_mismatch_aborts_witness :
  readFile stdCollaborators 1 (mkDevice [0; 1; 56; 66] 0)
    = (Ok None, mkDevice [0; 1; 56; 66] 2)
  /\ readFile stdCollaborators 1 (mkDevice containerBadStyles 0)
    = (Ok None, mkDevice containerBadStyles 116).
Proof.
  split.
  - refine (proj1 (proj2 (signature_mismatch_aborts stdCollaborators 1
              (mkDevice [0; 1; 56; 66] 0)
              "stylesVersion" 2%nat (quint16 GARBAGE_VALUE_MARK) 2
              (mkDevice [0; 1; 56; 66] 0) [] true 1
              (mkDevice [0; 1; 56; 66] 2) _ _ _))).
    + apply reaches_stylesVersion.
    + reflexivity.
    + right. discriminate.
  - refine (proj1 (proj2 (signature_mismatch_aborts stdCollaborators 1
              (mkDevice containerBadStyles 0)
              "stylesFormatVersion" 4%nat GARBAGE_VALUE_MARK 16
              (mkDevice containerBadStyles 112) _ true 15
              (mkDevice containerBadStyles 116) _ _ _))).
    + eapply (reaches_stylesFormatVersion_first stdCollaborators 1 _
                (mkDevice containerBadStyles 2) (mkDevice containerBadStyles 6)
                (mkDevice containerBadStyles 8) (mkDevice containerBadStyles 104)
                _ 1 (mkDevice containerBadStyles 108) 60);
        vm_compute; reflexivity.
    + reflexivity.
    + right. discriminate.
Defined.

(** ** Errors inside the patterns section *)

Lemma patternsFailAfter_positive ext patternsSize bytesRead d pats e d' :
  patternsFailAfter ext patternsSize bytesRead d pats e d' ->
  bytesRead < patternsSize.
Proof. intros H. destruct H; assumption. Qed.

Lemma readPatterns_fail ext patternsSize bytesRead d pats e d' :
  patternsFailAfter ext patternsSize bytesRead d pats e d' ->
  forall fuel, (List.length pats < fuel)%nat ->
  readPatterns ext fuel bytesRead patternsSize d = (Throw e, d', pats).
Proof.
  induction 1 as [b d e d' Hlt Hp | b d chunk d1 pat pats e d' Hlt Hp Hrun IH];
    intros fuel Hfuel; (destruct fuel as [|fuel]; [simpl in Hfuel; lia|]);
    apply Z.ltb_lt in Hlt; simpl; rewrite Hlt.
  - apply bind_Throw, Hp.
  - eapply bind_Ok_then; [exact Hp | apply IH; simpl in Hfuel; lia | reflexivity].
Qed.

(** C6: when, inside the patterns section, some pattern records
    decode and the next one raises a parse error, the loop reports no
    error: the "Patterns" list keeps exactly the nodes of the records
    decoded before, the failing record and whatever follows it in the
    section contribute nothing, the section's verifier moves the
    device to the declared end of the section, and [readFileImpl] goes
    on with the styles from there. *)
Theorem pattern_error_is_caught
    ext fuel d d1 d2 d3 patternsSize d4 pats e d5 :
  psdread 2 d (quint16 GARBAGE_VALUE_MARK) = (true, 2, d1) ->
  psdread 4 d1 GARBAGE_VALUE_MARK = (true, refSignature, d2) ->
  psdread 2 d2 (quint16 GARBAGE_VALUE_MARK) = (true, 3, d3) ->
  psdread 4 d3 GARBAGE_VALUE_MARK = (true, patternsSize, d4) ->
  patternsFailAfter ext patternsSize 0 d4 pats e d5 ->
  (List.length pats < fuel)%nat ->
  let sectionEnd := pos d4 + patternsSize in
  let d6 := if pos d5 =? sectionEnd then d5 else QIODevice_seek sectionEnd d5 in
  let patternsRoot := QDomElement "node" [("type", "List"); ("key", "Patterns")] pats in
  readPatternsSection ext fuel d3 = (Ok tt, d6, [patternsRoot])
  /\ readFileImpl_root ext fuel d
     = (let '(r, d7, styles) := readStyles ext fuel d6 in (r, d7, patternsRoot :: styles)).
Proof.
  intros H1 H2 H3 H4 Hrun Hfuel sectionEnd d6 patternsRoot.
  pose proof (patternsFailAfter_positive _ _ _ _ _ _ _ Hrun) as Hpos.
  pose proof (readPatterns_fail _ _ _ _ _ _ _ Hrun fuel Hfuel) as Hloop.
  assert (Hsec : readPatternsSection ext fuel d3 = (Ok tt, d6, [patternsRoot])).
  { unfold readPatternsSection.
    eapply bind_Ok_then;
      [apply (SAFE_READ_EX_psdread _ _ _ _ _ _ H4) | | reflexivity].
    apply Z.ltb_lt in Hpos. rewrite Hpos.
    unfold SETUP_OFFSET_VERIFIER, appendElementThen, tryCatchWarning.
    rewrite Hloop. reflexivity. }
  split; [exact Hsec|].
  unfold readFileImpl_root.
  destruct (readStyles ext fuel d6) as [[r d7] styles] eqn:Hsty.
  step_ok H1; [|reflexivity]. step_ok H2; [|reflexivity].
  step_ok H3; [|reflexivity].
  eapply bind_Ok_then; [exact Hsec | exact Hsty | reflexivity].
Qed.

(** The container with a good pattern followed by a pattern record of
    version 2: the document has the "Patterns" list with the first
    pattern and the two style descriptors. *)
Lemma pattern_error_is_caught_witness :
  exists pat first second d',
    readFileImpl_root stdCollaborators 2 (mkDevice containerTwoPatterns 0)
    = (Ok tt, d',
       [QDomElement "node" [("type", "List"); ("key", "Patterns")] [pat];
        first; second]).
Proof.
  pose (d := fun p => mkDevice containerTwoPatterns p).
  destruct (pattern_error_is_caught stdCollaborators 2
              (d 0) (d 2) (d 6) (d 8) 104 (d 12)
              [QDomElement "node"
                 [("classId", "KisPattern"); ("type", "Descriptor"); ("name", "")]
                 [XMLNodeCommon "Nm  " "p" "Text" [];
                  XMLNodeCommon "Idnt" "id" "Text" [];
                  QDomElement "node" [("type", "KisPatternData"); ("key", "Data")]
                    [QDomCDATASection "id.pat:p"]]]
              (ParseError "Pattern version is not '1'") (d 116))
    as [_ Hroot].
  - reflexivity.
  - reflexivity.
  - reflexivity.
  - reflexivity.
  - eapply fails_later with (chunk := 92) (d1 := d 104).
    + lia.
    + vm_compute. reflexivity.
    + apply fails_now; [lia | vm_compute; reflexivity].
  - simpl. lia.
  - subst d. cbv beta in Hroot. rewrite Hroot. vm_compute.
    do 4 eexists. reflexivity.
Defined.

(** The size of the section is read outside the [try]; once it has
    been read, no parse error leaves the block. *)
Lemma readPatternsSection_never_throws ext fuel d patternsSize d1 :
  psdread 4 d GARBAGE_VALUE_MARK = (true, patternsSize, d1) ->
  forall e d' l, readPatternsSection ext fuel d <> (Throw e, d', l).
Proof.
  intros Hp e d' l. unfold readPatternsSection.
  unfold bind at 1. rewrite (SAFE_READ_EX_psdread _ _ _ _ _ _ Hp).
  destruct (0 <? patternsSize).
  - unfold SETUP_OFFSET_VERIFIER, appendElementThen, tryCatchWarning.
    destruct (readPatterns ext fuel 0 patternsSize d1) as [[r d2] l2].
    destruct r; discriminate.
  - discriminate.
Qed.

(** ** The byte count of a pattern record *)

Lemma SETUP_OFFSET_VERIFIER_Ok_inv {A} expectedOffset maxPadding (scope : M A) d a d' l :
  SETUP_OFFSET_VERIFIER expectedOffset maxPadding scope d = (Ok a, d', l) ->
  exists d1, scope d = (Ok a, d1, l).
Proof.
  unfold SETUP_OFFSET_VERIFIER.
  destruct (scope d) as [[r d1] l1].
  destruct r; intros H; inversion H; subst; eauto.
Qed.

Lemma alignOffsetCeil_4 n :
  n <= alignOffsetCeil n 4 < n + 4 /\ (alignOffsetCeil n 4) mod 4 = 0.
Proof.
  unfold alignOffsetCeil.
  pose proof (Z.div_mod (n + 4 - 1) 4 ltac:(lia)) as Hdm.
  pose proof (Z.mod_pos_bound (n + 4 - 1) 4 ltac:(lia)) as Hb.
  split; [lia|]. apply Z.mod_mul. lia.
Qed.

Ltac inv_bind H :=
  let a := fresh "a" in let d := fresh "d" in
  let l1 := fresh "l" in let l2 := fresh "l" in
  let Hm := fresh "Hm" in let Hl := fresh "Hl" in
  apply bind_Ok_inv in H; destruct H as (a & d & l1 & l2 & Hm & H & Hl).

Ltac inv_if H :=
  match type of H with
  | (if ?c then _ else _) _ = _ => destruct c eqn:?; [discriminate H|]
  end.

(** C8 (amended): the byte count a pattern record returns is 4 plus
    the declared length rounded up to a multiple of 4 as it is stored
    back into the 32-bit length variable, that is, reduced modulo
    2^32; it depends on nothing else.  For a declared length up to
    2^32 - 4 this is 4 plus the least multiple of 4 not below the
    declared length. *)
Theorem readPattern_returned_size ext d declared d1 chunk d2 l :
  psdread 4 d GARBAGE_VALUE_MARK = (true, declared, d1) ->
  readPattern ext d = (Ok chunk, d2, l) ->
  chunk = 4 + (alignOffsetCeil declared 4) mod 2 ^ 32
  /\ (0 <= declared <= 2 ^ 32 - 4 ->
      chunk = 4 + alignOffsetCeil declared 4
      /\ declared <= alignOffsetCeil declared 4 < declared + 4
      /\ (alignOffsetCeil declared 4) mod 4 = 0).
Proof.
  intros Hp H.
  assert (Hchunk : chunk = 4 + (alignOffsetCeil declared 4) mod 2 ^ 32).
  { unfold readPattern in H.
    apply bind_silent_Ok_inv in H; [|auto with silent].
    destruct H as (patternSize & d1' & Hsize & H).
    apply SAFE_READ_EX_Ok_inv in Hsize. rewrite Hp in Hsize.
    inversion Hsize; subst patternSize d1'; clear Hsize.
    apply SETUP_OFFSET_VERIFIER_Ok_inv in H. destruct H as (d3 & H).
    inv_bind H. inv_if H.
    inv_bind H. inv_bind H. inv_bind H. inv_bind H. inv_bind H. inv_bind H.
    inv_bind H. inv_bind H.
    inversion H; subst. reflexivity. }
  split; [exact Hchunk|].
  intros Hrange.
  pose proof (alignOffsetCeil_4 declared) as [Hb Hm].
  repeat split; try lia; try assumption.
  rewrite Hchunk, Z.mod_small; lia.
Qed.

(** The grayscale pattern with a declared length of 86: the count is
    4 + 88. *)
Lemma readPattern_returned_size_witness :
  exists d2 l,
    readPattern stdCollaborators (mkDevice (grayPattern 86) 0) = (Ok 92, d2, l)
    /\ 92 = 4 + alignOffsetCeil 86 4.
Proof.
  eexists. eexists.
  assert (E : readPattern stdCollaborators (mkDevice (grayPattern 86) 0)
              = (Ok 92, _, _)) by (vm_compute; reflexivity).
  split; [exact E|].
  refine (proj1 (proj2 (readPattern_returned_size stdCollaborators
            (mkDevice (grayPattern 86) 0) 86 (mkDevice (grayPattern 86) 4)
            92 _ _ _ E) _)).
  - reflexivity.
  - lia.
Defined.

(** C8 (as stated) fails for the declared length 0xFFFFFFFF: rounded
    up to a multiple of 4 it is 2^32, which the 32-bit variable holds
    as 0, and the record returns 4, not 4 + 2^32.  Whatever is stored
    in the 32-bit variable, the count stays below 4 + 2^32. *)
Lemma readPattern_declared_all_ones :
  exists d2 pat,
    psdread 4 (mkDevice (grayPattern 4294967295) 0) GARBAGE_VALUE_MARK
      = (true, 4294967295, mkDevice (grayPattern 4294967295) 4)
    /\ readPattern stdCollaborators (mkDevice (grayPattern 4294967295) 0)
       = (Ok 4, d2, [pat])
    /\ alignOffsetCeil 4294967295 4 = 4294967296
    /\ 4 <> 4 + alignOffsetCeil 4294967295 4
    /\ (forall rounded, 4 + quint32 rounded <> 4 + 4294967296).
Proof.
  do 2 eexists. split; [reflexivity|].
  split; [vm_compute; reflexivity|].
  split; [reflexivity|]. split; [discriminate|].
  intros rounded. unfold quint32.
  pose proof (Z.mod_pos_bound rounded (2 ^ 32) ltac:(lia)). lia.
Qed.

(** ** Run-length rows *)

Lemma readRows_silent ext width rowSizes : forall plane, silent (readRows ext width rowSizes plane).
Proof.
  induction rowSizes as [|rowSize rest IH]; intros plane; simpl.
  - apply silent_ret.
  - apply silent_bind.
    + intros d r d' l. unfold device_read.
      destruct (QIODevice_read rowSize d). intros H; inversion H; reflexivity.
    + intros compressedData.
      destruct (negb (size compressedData =? rowSize)); [apply silent_throw|].
      destruct (negb (size _ =? width)); [apply silent_throw | apply IH].
Qed.

Lemma bind_assoc {A B C} (m : M A) (f : A -> M B) (g : B -> M C) d :
  bind (bind m f) g d = bind m (fun a => bind (f a) g) d.
Proof.
  unfold bind. destruct (m d) as [[r1 d1] l1].
  destruct r1; try reflexivity.
  destruct (f a d1) as [[r2 d2] l2].
  destruct r2; try reflexivity.
  destruct (g a0 d2) as [[r3 d3] l3].
  rewrite app_assoc. reflexivity.
Qed.

Lemma bind_ext {A B} (m : M A) (f g : A -> M B) d :
  (forall a d1, f a d1 = g a d1) -> bind m f d = bind m g d.
Proof.
  intros H. unfold bind. destruct (m d) as [[r1 d1] l1].
  destruct r1; try reflexivity. rewrite H. reflexivity.
Qed.

Lemma bind_ret_l {A B} (a : A) (f : A -> M B) d : bind (ret a) f d = f a d.
Proof.
  unfold bind, ret. destruct (f a d) as [[r d1] l]. reflexivity.
Qed.

Lemma readRows_app ext width done rest : forall plane d,
  readRows ext width (done ++ rest) plane d
  = bind (readRows ext width done plane) (readRows ext width rest) d.
Proof.
  induction done as [|rowSize done IH]; intros plane d; simpl.
  - symmetry. apply bind_ret_l.
  - rewrite bind_assoc. apply bind_ext. intros compressedData d1.
    destruct (negb (size compressedData =? rowSize)); [reflexivity|].
    destruct (negb (size _ =? width)); [reflexivity|].
    apply IH.
Qed.

(** ** From the rows to the pattern record *)

Lemma bind_step_ex {A B} (m : M A) (f : A -> M B) d a d1 r l :
  m d = (Ok a, d1, []) ->
  (exists d', f a d1 = (r, d', l)) ->
  exists d', bind m f d = (r, d', l).
Proof.
  intros Hm [d' Hf]. exists d'. unfold bind. rewrite Hm, Hf. reflexivity.
Qed.

Lemma SETUP_OFFSET_VERIFIER_ex {A} expectedOffset maxPadding (m : M A) d r l :
  (exists d1, m d = (r, d1, l)) ->
  exists d', SETUP_OFFSET_VERIFIER expectedOffset maxPadding m d = (r, d', l).
Proof.
  intros [d1 Hm]. unfold SETUP_OFFSET_VERIFIER. rewrite Hm.
  destruct r; eauto.
Qed.

Lemma readNonZero_Ok msg d v d1 :
  psdread 4 d GARBAGE_VALUE_MARK = (true, v, d1) -> v <> 0 ->
  readNonZero msg d = (Ok v, d1, []).
Proof.
  intros H Hv. unfold readNonZero. rewrite H.
  apply Z.eqb_neq in Hv. rewrite Hv. reflexivity.
Qed.

Lemma SAFE_READ_EX_fail width varname init d v d1 :
  psdread width d init = (false, v, d1) ->
  SAFE_READ_EX width varname init d = (Throw (FailedToRead varname), d1, []).
Proof. intros H. unfold SAFE_READ_EX. rewrite H. reflexivity. Qed.

Lemma QRect_eqb_refl r : QRect_eqb r r = true.
Proof. unfold QRect_eqb. rewrite !Z.eqb_refl. reflexivity. Qed.

Ltac read_ok :=
  eapply bind_step_ex;
  [ first [ apply SAFE_READ_EX_psdread; eassumption
          | apply readNonZero_Ok; eassumption
          | eassumption
          | reflexivity ]
  | cbv beta zeta ].

(** An exception of the loop over the rows leaves the round of the
    loop over the planes. *)
Lemma readPlane_rows_Throw ext arrayRect i dataPlanes d rowSizes dRows e dT :
  planeRowsRead ext arrayRect d rowSizes dRows ->
  readRows ext (QRect_width arrayRect) rowSizes (nth i dataPlanes []) dRows
    = (Throw e, dT, []) ->
  exists d', readPlane ext arrayRect i dataPlanes d = (Throw e, d', []).
Proof.
  intros Hplane Hrows.
  destruct Hplane as [arrayWritten d1 arrayPlaneLength d2 d3
                        y0 e0 x0 e1 y1 e2 x1 e3 d4 dSizes rowSizes dRows
                        Hw Hwnz Hl Hlnz Hd1 Hy0 Hx0 Hy1 Hx1 Hrect Hd2 Hc Hrle Hsizes].
  unfold readPlane.
  read_ok. read_ok.
  apply SETUP_OFFSET_VERIFIER_ex.
  read_ok. read_ok. read_ok. read_ok. read_ok. read_ok.
  rewrite Hrect, QRect_eqb_refl. cbn [negb].
  read_ok. read_ok.
  rewrite Z.eqb_refl. cbn [negb].
  apply Z.eqb_neq in Hrle. rewrite Hrle, Z.eqb_refl.
  eexists. apply bind_Throw.
  eapply bind_Ok_then; [exact Hsizes | exact Hrows | reflexivity].
Qed.

Lemma readPlanes_app ext a b arrayRect : forall k dataPlanes d,
  readPlanes ext (a + b) arrayRect k dataPlanes d
  = bind (readPlanes ext a arrayRect k dataPlanes)
         (fun dataPlanes' => readPlanes ext b arrayRect (k + a) dataPlanes') d.
Proof.
  induction a as [|a IH]; intros k dataPlanes d; simpl.
  - rewrite bind_ret_l, Nat.add_0_r. reflexivity.
  - rewrite bind_assoc. apply bind_ext. intros dataPlanes' d1.
    rewrite IH, Nat.add_succ_r. reflexivity.
Qed.

(** An exception of the round for plane [i] leaves the loop over the
    planes. *)
Lemma readPlanes_plane_Throw ext n i arrayRect d dataPlanes dPlane e d' :
  (i < n)%nat ->
  readPlanes ext i arrayRect 0 [[]; []; []] d = (Ok dataPlanes, dPlane, []) ->
  readPlane ext arrayRect i dataPlanes dPlane = (Throw e, d', []) ->
  readPlanes ext n arrayRect 0 [[]; []; []] d = (Throw e, d', []).
Proof.
  intros Hi Hbefore Hplane.
  replace n with (i + S (n - i - 1))%nat by lia.
  rewrite readPlanes_app.
  eapply bind_Ok_then; [exact Hbefore | | reflexivity].
  cbn [readPlanes Nat.add]. apply bind_Throw. exact Hplane.
Qed.

(** An exception of the loop over the planes leaves
    [readVirtualArrayList]. *)
Lemma readVirtualArrayList_planes_Throw ext numPlanes d arrayRect dPlanes e dT :
  arrayHeaderRead d arrayRect dPlanes ->
  numPlanes = 1 \/ numPlanes = 3 ->
  readPlanes ext (Z.to_nat numPlanes) arrayRect 0 [[]; []; []] dPlanes
    = (Throw e, dT, []) ->
  exists d', readVirtualArrayList ext numPlanes d = (Throw e, d', []).
Proof.
  intros Harray Hn Hplanes.
  destruct Harray as [d1 arrayLength d2 y0 e0 x0 e1 y1 e2 x1 e3 dPlanes
                        Hv Hlen Hy0 Hx0 Hy1 Hx1 Hch].
  unfold readVirtualArrayList.
  read_ok. cbn [Z.eqb Pos.eqb negb]. read_ok.
  apply SETUP_OFFSET_VERIFIER_ex.
  read_ok. read_ok. read_ok. read_ok. read_ok.
  cbn [Z.eqb Pos.eqb negb].
  assert (Hsel : negb (numPlanes =? 1) && negb (numPlanes =? 3) = false)
    by (destruct Hn as [-> | ->]; reflexivity).
  rewrite Hsel.
  eexists. apply bind_Throw. exact Hplanes.
Qed.

Lemma numPlanesOfMode_planes ext mode numPlanes :
  numPlanesOfMode ext mode = Some numPlanes -> numPlanes = 1 \/ numPlanes = 3.
Proof.
  unfold numPlanesOfMode.
  destruct ((mode =? psd_MultiChannel ext) || (mode =? psd_Grayscale ext));
    [intros H; inversion H; auto|].
  destruct (mode =? psd_RGB ext); intros H; inversion H; auto.
Qed.

(** The [switch] of [readPattern]. *)
Lemma numPlanes_switch ext mode d :
  (if (mode =? psd_MultiChannel ext) || (mode =? psd_Grayscale ext) then ret 1
   else if mode =? psd_RGB ext then ret 3
   else throw (ParseError
          ("Unsupported image mode: " ++ intToString (to_int mode) ++ "!")%string)) d
  = match numPlanesOfMode ext mode with
    | Some numPlanes => (Ok numPlanes, d, [])
    | None => (Throw (ParseError
                 ("Unsupported image mode: " ++ intToString (to_int mode) ++ "!")%string),
               d, [])
    end.
Proof.
  unfold numPlanesOfMode.
  destruct ((mode =? psd_MultiChannel ext) || (mode =? psd_Grayscale ext));
    [reflexivity|].
  destruct (mode =? psd_RGB ext); reflexivity.
Qed.

Lemma patternName_Ok ext d ok name d1 :
  psdread_unicodestring ext d = (ok, name, d1) ->
  (fun d => let '(_, s, d') := psdread_unicodestring ext d in
            (@Ok string s, d', @nil QDomNode)) d
  = (Ok name, d1, []).
Proof. intros H. cbv beta. rewrite H. reflexivity. Qed.

(** An exception of [readVirtualArrayList] leaves [readPattern]. *)
Lemma readPattern_array_Throw ext d numPlanes dArray e dT :
  patternHeaderRead ext d numPlanes dArray ->
  readVirtualArrayList ext numPlanes dArray = (Throw e, dT, []) ->
  exists d', readPattern ext d = (Throw e, d', []).
Proof.
  intros Hheader Harray.
  destruct Hheader as [declared mode dName ok name dName' patternUuid dArray numPlanes
                         Hfields Hname Huuid Hmode].
  destruct Hfields as [declared d1 d2 mode d3 patternHeight d4 patternWidth dName
                         Hsize Hversion Himage Hheight Hwidth].
  unfold readPattern.
  read_ok.
  apply SETUP_OFFSET_VERIFIER_ex.
  read_ok. cbn [Z.eqb Pos.eqb negb].
  read_ok. read_ok. read_ok.
  eapply bind_step_ex; [apply (patternName_Ok _ _ _ _ _ Hname)|]. cbv beta zeta.
  read_ok.
  eapply bind_step_ex; [rewrite numPlanes_switch, Hmode; reflexivity|]. cbv beta zeta.
  eexists. apply bind_Throw. exact Harray.
Qed.

(** C7: in a pattern record whose decoding has arrived at the loop
    over the rows of a run-length plane, once the rows [done] have
    been expanded, the next row is read with its declared [rowSize]:
    when fewer bytes are available the loop raises the parse error of
    the short read; when they are all there and their expansion is not
    exactly [width] bytes long, shorter or longer, it raises the parse
    error of the decompression.  Either error leaves the loops over
    the rows and over the planes, [readVirtualArrayList] and
    [readPattern]: decoding of the pattern record fails with it, and
    no node is appended. *)
Theorem rle_row_length_is_checked
    ext d width done rowSize rest plane dRows plane1 d1 compressedData d2 :
  reachesRowLoop ext d width (done ++ rowSize :: rest) plane dRows ->
  readRows ext width done plane dRows = (Ok plane1, d1, []) ->
  QIODevice_read rowSize d1 = (compressedData, d2) ->
  (size compressedData <> rowSize ->
     readRows ext width (done ++ rowSize :: rest) plane dRows
     = (Throw (ParseError "VAList: failed to read compressed data!"), d2, [])
     /\ exists d',
          readPattern ext d
          = (Throw (ParseError "VAList: failed to read compressed data!"), d', []))
  /\ (size compressedData = rowSize ->
      size (Compression_uncompress ext width compressedData (Compression_RLE ext))
        <> width ->
      readRows ext width (done ++ rowSize :: rest) plane dRows
      = (Throw (ParseError "VAList: failed to decompress data!"), d2, [])
      /\ exists d',
           readPattern ext d
           = (Throw (ParseError "VAList: failed to decompress data!"), d', [])).
Proof.
  intros Hreach Hdone Hread.
  assert (Hlift : forall e dT,
             readRows ext width (done ++ rowSize :: rest) plane dRows
             = (Throw e, dT, []) ->
             exists d', readPattern ext d = (Throw e, d', [])).
  { intros e dT Hrows.
    destruct Hreach as [numPlanes dArray arrayRect dPlanes i dataPlanes dPlane
                          width rowSizes plane dRows
                          Hheader Harray Hi Hbefore Hplane -> ->].
    destruct (readPlane_rows_Throw _ _ _ _ _ _ _ _ _ Hplane Hrows) as [d3 Hthrow].
    assert (Hn : numPlanes = 1 \/ numPlanes = 3).
    { destruct Hheader. eapply numPlanesOfMode_planes; eassumption. }
    assert (Hplanes : readPlanes ext (Z.to_nat numPlanes) arrayRect 0 [[]; []; []] dPlanes
                      = (Throw e, d3, [])).
    { apply (readPlanes_plane_Throw ext _ i arrayRect dPlanes dataPlanes dPlane e d3);
        [lia | exact Hbefore | exact Hthrow]. }
    destruct (readVirtualArrayList_planes_Throw _ _ _ _ _ _ _ Harray Hn Hplanes)
      as [d4 Hlist].
    exact (readPattern_array_Throw _ _ _ _ _ _ Hheader Hlist). }
  assert (Hshort : size compressedData <> rowSize ->
            readRows ext width (done ++ rowSize :: rest) plane dRows
            = (Throw (ParseError "VAList: failed to read compressed data!"), d2, [])).
  { intros Hne. rewrite readRows_app.
    eapply bind_Ok_then; [exact Hdone | | reflexivity].
    simpl. unfold bind, device_read. rewrite Hread.
    apply Z.eqb_neq in Hne. rewrite Hne. reflexivity. }
  assert (Hlong : size compressedData = rowSize ->
            size (Compression_uncompress ext width compressedData (Compression_RLE ext))
              <> width ->
            readRows ext width (done ++ rowSize :: rest) plane dRows
            = (Throw (ParseError "VAList: failed to decompress data!"), d2, [])).
  { intros Hfull Hlen. rewrite readRows_app.
    eapply bind_Ok_then; [exact Hdone | | reflexivity].
    simpl. unfold bind, device_read. rewrite Hread.
    apply Z.eqb_eq in Hfull. rewrite Hfull.
    apply Z.eqb_neq in Hlen. rewrite Hlen. reflexivity. }
  split.
  - intros Hne. pose proof (Hshort Hne) as Hrows.
    split; [exact Hrows | exact (Hlift _ _ Hrows)].
  - intros Hfull Hlen. pose proof (Hlong Hfull Hlen) as Hrows.
    split; [exact Hrows | exact (Hlift _ _ Hrows)].
Qed.

Lemma rlePattern_reachesRowLoop row2 :
  List.length row2 = 2%nat ->
  reachesRowLoop stdCollaborators (mkDevice (rlePattern row2) 0)
    4 [2; 2] [] (mkDevice (rlePattern row2) 88).
Proof.
  intros Hlen.
  destruct row2 as [|b1 [|b2 [|b3 row2]]]; try discriminate Hlen.
  eapply reaches_rows with (i := 0%nat) (numPlanes := 1)
                           (arrayRect := QRect_xywh 0 0 (quint32 (4 - 0)) (quint32 (2 - 0)))
                           (dataPlanes := [[]; []; []])
                           (dArray := mkDevice (rlePattern [b1; b2]) 25)
                           (dPlanes := mkDevice (rlePattern [b1; b2]) 53)
                           (dPlane := mkDevice (rlePattern [b1; b2]) 53).
  - eapply header_read with (declared := 88) (mode := 1) (ok := true) (name := "p")
                            (patternUuid := "id")
                            (dName := mkDevice (rlePattern [b1; b2]) 16)
                            (dName' := mkDevice (rlePattern [b1; b2]) 22).
    + eapply fields_read with (d1 := mkDevice (rlePattern [b1; b2]) 4)
                              (d2 := mkDevice (rlePattern [b1; b2]) 8)
                              (d3 := mkDevice (rlePattern [b1; b2]) 12)
                              (d4 := mkDevice (rlePattern [b1; b2]) 14)
                              (patternHeight := 2) (patternWidth := 4);
        reflexivity.
    + reflexivity.
    + reflexivity.
    + reflexivity.
  - eapply array_header_read with (d1 := mkDevice (rlePattern [b1; b2]) 29)
                                  (d2 := mkDevice (rlePattern [b1; b2]) 33)
                                  (e0 := mkDevice (rlePattern [b1; b2]) 37)
                                  (e1 := mkDevice (rlePattern [b1; b2]) 41)
                                  (e2 := mkDevice (rlePattern [b1; b2]) 45)
                                  (e3 := mkDevice (rlePattern [b1; b2]) 49)
                                  (arrayLength := 59)
                                  (y0 := 0) (x0 := 0) (y1 := 2) (x1 := 4);
      reflexivity.
  - simpl. lia.
  - reflexivity.
  - eapply plane_rows_read with (arrayWritten := 1) (arrayPlaneLength := 31)
                                (d1 := mkDevice (rlePattern [b1; b2]) 57)
                                (d2 := mkDevice (rlePattern [b1; b2]) 61)
                                (d3 := mkDevice (rlePattern [b1; b2]) 65)
                                (y0 := 0) (x0 := 0) (y1 := 2) (x1 := 4)
                                (e0 := mkDevice (rlePattern [b1; b2]) 69)
                                (e1 := mkDevice (rlePattern [b1; b2]) 73)
                                (e2 := mkDevice (rlePattern [b1; b2]) 77)
                                (e3 := mkDevice (rlePattern [b1; b2]) 81)
                                (d4 := mkDevice (rlePattern [b1; b2]) 83)
                                (dSizes := mkDevice (rlePattern [b1; b2]) 84);
      try reflexivity; try discriminate.
  - reflexivity.
  - reflexivity.
Qed.

(** The pattern record [rlePattern] with two rows of declared size 2
    for a plane of width 4: the second row expands to three bytes. *)
Lemma rle_row_length_is_checked_witness :
  readRows stdCollaborators 4 [2; 2] [] (mkDevice (rlePattern [254; 9]) 88)
    = (Throw (ParseError "VAList: failed to decompress data!"),
       mkDevice (rlePattern [254; 9]) 92, [])
  /\ exists d',
       readPattern stdCollaborators (mkDevice (rlePattern [254; 9]) 0)
       = (Throw (ParseError "VAList: failed to decompress data!"), d', []).
Proof.
  refine (proj2 (rle_row_length_is_checked stdCollaborators
            (mkDevice (rlePattern [254; 9]) 0) 4 [2] 2 [] []
            (mkDevice (rlePattern [254; 9]) 88) [7; 7; 7; 7]
            (mkDevice (rlePattern [254; 9]) 90) [254; 9]
            (mkDevice (rlePattern [254; 9]) 92) _ _ _) _ _).
  - apply rlePattern_reachesRowLoop. reflexivity.
  - vm_compute. reflexivity.
  - vm_compute. reflexivity.
  - reflexivity.
  - vm_compute. discriminate.
Defined.

(** Whole pattern records with run-length rows: a second row that
    expands to four bytes decodes; one that expands to three or to
    five bytes makes the record fail. *)
Example rlePattern_rows :
  readVirtualArrayList stdCollaborators 1 (mkDevice (rleVirtualArrayList [253; 9]) 0)
    = (Ok (mkImage 4 2
             [0; 0; 7; 255;  0; 0; 7; 255;  0; 0; 7; 255;  0; 0; 7; 255;
              0; 0; 9; 255;  0; 0; 9; 255;  0; 0; 9; 255;  0; 0; 9; 255]),
       mkDevice (rleVirtualArrayList [253; 9]) 67, [])
  /\ readPattern stdCollaborators (mkDevice (rlePattern [254; 9]) 0)
    = (Throw (ParseError "VAList: failed to decompress data!"),
       mkDevice (rlePattern [254; 9]) 92, [])
  /\ readPattern stdCollaborators (mkDevice (rlePattern [252; 9]) 0)
    = (Throw (ParseError "VAList: failed to decompress data!"),
       mkDevice (rlePattern [252; 9]) 92, []).
Proof. repeat split; vm_compute; reflexivity. Qed.

(** ** Readers of the array that append no node *)

Lemma silent_SETUP_OFFSET_VERIFIER {A} expectedOffset maxPadding (m : M A) :
  silent m -> silent (SETUP_OFFSET_VERIFIER expectedOffset maxPadding m).
Proof.
  intros Hm d r d' l. unfold SETUP_OFFSET_VERIFIER.
  destruct (m d) as [[r1 d1] l1] eqn:E. apply Hm in E. subst l1.
  destruct r1; intros H; inversion H; reflexivity.
Qed.

Lemma silent_device_pos : silent device_pos.
Proof. intros d r d' l H. inversion H; reflexivity. Qed.

Lemma silent_device_seek p : silent (device_seek p).
Proof. intros d r d' l H. inversion H; reflexivity. Qed.

Lemma silent_device_read maxSize : silent (device_read maxSize).
Proof.
  intros d r d' l. unfold device_read.
  destruct (QIODevice_read maxSize d). intros H; inversion H; reflexivity.
Qed.

Lemma silent_readNonZero msg : silent (readNonZero msg).
Proof.
  intros d r d' l. unfold readNonZero.
  destruct (psdread 4 d GARBAGE_VALUE_MARK) as [[ok v] d1].
  destruct (negb ok || (v =? 0)); intros H; inversion H; reflexivity.
Qed.

Lemma silent_readRowSizes numRows : silent (readRowSizes numRows).
Proof.
  induction numRows as [|n IH]; simpl.
  - apply silent_ret.
  - apply silent_bind; [apply silent_SAFE_READ_EX|]. intros rowSize.
    apply silent_bind; [apply IH|]. intros rest. apply silent_ret.
Qed.

Lemma silent_crash {A} : silent (@crash A).
Proof. intros d r d' l H. inversion H; reflexivity. Qed.

Lemma silent_composeImage numPlanes arrayRect dataPlanes :
  silent (composeImage numPlanes arrayRect dataPlanes).
Proof.
  unfold composeImage.
  destruct (QImage_isNull _ _); [destruct (0 <? _)|];
    intros d r d' l H; inversion H; reflexivity.
Qed.

#[local] Hint Resolve silent_device_pos silent_device_seek silent_device_read
  silent_readNonZero silent_readRowSizes readRows_silent
  silent_crash silent_composeImage : silent.

Ltac silence :=
  cbv beta zeta;
  lazymatch goal with
  | |- silent (bind _ _) => apply silent_bind; [silence | intros ?; silence]
  | |- silent (SETUP_OFFSET_VERIFIER _ _ _) =>
      apply silent_SETUP_OFFSET_VERIFIER; silence
  | |- silent (if ?c then _ else _) => destruct c; silence
  | |- _ => auto with silent
  end.

Lemma silent_readPlane ext arrayRect i dataPlanes :
  silent (readPlane ext arrayRect i dataPlanes).
Proof. unfold readPlane. silence. Qed.

Lemma silent_readPlanes ext n arrayRect : forall i dataPlanes,
  silent (readPlanes ext n arrayRect i dataPlanes).
Proof.
  induction n as [|n IH]; intros i dataPlanes; simpl.
  - apply silent_ret.
  - apply silent_bind; [apply silent_readPlane | intros; apply IH].
Qed.

Lemma silent_readVirtualArrayList ext numPlanes :
  silent (readVirtualArrayList ext numPlanes).
Proof.
  unfold readVirtualArrayList.
  pose proof (silent_readPlanes ext). silence.
Qed.

(** ** The pattern name *)

Lemma bind_known {A B} (m : M A) (f : A -> M B) d a d1 r d' l :
  m d = (Ok a, d1, []) -> bind m f d = (r, d', l) -> f a d1 = (r, d', l).
Proof.
  intros Hm. unfold bind. rewrite Hm.
  destruct (f a d1) as [[r2 d2] l2]. simpl. intros H. exact H.
Qed.

Lemma SETUP_OFFSET_VERIFIER_Throw_inv {A} expectedOffset maxPadding (m : M A) d e d' l :
  SETUP_OFFSET_VERIFIER expectedOffset maxPadding m d = (Throw e, d', l) ->
  exists dT, m d = (Throw e, dT, l).
Proof.
  unfold SETUP_OFFSET_VERIFIER.
  destruct (m d) as [[r d1] l1]. destruct r; intros H; inversion H; subst; eauto.
Qed.

Ltac known H E := apply (bind_known _ _ _ _ _ _ _ _ E) in H; cbv beta zeta in H.



(** With the reader of 4-byte-counted strings, on a record cut short
    in the character count of its name: the read of the name fails at
    the end of the stream, and the record fails one field later, on
    the length of the identifier. *)
Example truncatedNamePattern_fails :
  psdread_unicodestring stdCollaborators (mkDevice truncatedNamePattern 16)
    = (false, "", mkDevice truncatedNamePattern 18)
  /\ readPattern stdCollaborators (mkDevice truncatedNamePattern 0)
    = (Throw (FailedToRead "length"), mkDevice truncatedNamePattern 92, []).
Proof. split; vm_compute; reflexivity. Qed.

(** ** One node per record *)

Lemma appendsOnePattern_bind {A B} (m : M A) (f : A -> M B) :
  silent m -> (forall a, appendsOnePattern (f a)) -> appendsOnePattern (bind m f).
Proof.
  intros Hm Hf d r d' l. unfold bind.
  destruct (m d) as [[r1 d1] l1] eqn:E. apply Hm in E. subst l1.
  destruct r1; try (intros H; inversion H; reflexivity).
  destruct (f a d1) as [[r2 d2] l2] eqn:E2. apply Hf in E2.
  intros H; inversion H; subst. exact E2.
Qed.

Lemma appendsOnePattern_throw {A} e : appendsOnePattern (@throw A e).
Proof. intros d r d' l H. inversion H; reflexivity. Qed.

Lemma appendsOnePattern_SETUP {A} expectedOffset maxPadding (m : M A) :
  appendsOnePattern m ->
  appendsOnePattern (SETUP_OFFSET_VERIFIER expectedOffset maxPadding m).
Proof.
  intros Hm d r d' l. unfold SETUP_OFFSET_VERIFIER.
  destruct (m d) as [[r1 d1] l1] eqn:E. apply Hm in E.
  destruct r1; intros H; inversion H; subst; first [exact E | reflexivity].
Qed.

Lemma readPattern_appendsOnePattern ext : appendsOnePattern (readPattern ext).
Proof.
  unfold readPattern.
  apply appendsOnePattern_bind; [auto with silent|]. intros patternSize.
  apply appendsOnePattern_SETUP.
  apply appendsOnePattern_bind; [auto with silent|]. intros patternVersion.
  destruct (negb (patternVersion =? 1)); [apply appendsOnePattern_throw|].
  apply appendsOnePattern_bind; [auto with silent|]. intros patternImageMode.
  apply appendsOnePattern_bind; [auto with silent|]. intros patternHeight.
  apply appendsOnePattern_bind; [auto with silent|]. intros patternWidth.
  apply appendsOnePattern_bind.
  { intros d r d' l. destruct (psdread_unicodestring ext d) as [[ok s] d1].
    intros H; inversion H; reflexivity. }
  intros patternName.
  apply appendsOnePattern_bind; [auto with silent|]. intros patternUuid.
  apply appendsOnePattern_bind.
  { silence. }
  intros numPlanes.
  apply appendsOnePattern_bind; [apply silent_readVirtualArrayList|].
  intros patternImage.
  intros d r d' l H. inversion H; subst.
  eexists. split; reflexivity.
Qed.

(** Every parse error that leaves the loop over the pattern records
    comes about in the way [patternsFailAfter] describes. *)
Lemma readPatterns_Throw_inv ext patternsSize fuel : forall bytesRead d e d' pats,
  readPatterns ext fuel bytesRead patternsSize d = (Throw e, d', pats) ->
  patternsFailAfter ext patternsSize bytesRead d pats e d'
  /\ Forall (fun pat => attribute "classId" pat = Some "KisPattern") pats.
Proof.
  induction fuel as [|fuel IH]; intros bytesRead d e d' pats; simpl;
    destruct (bytesRead <? patternsSize) eqn:Hlt; try discriminate.
  apply Z.ltb_lt in Hlt. unfold bind.
  destruct (readPattern ext d) as [[r d1] l1] eqn:Hp.
  pose proof (readPattern_appendsOnePattern ext _ _ _ _ Hp) as Hlog.
  destruct r as [chunk | e1 | msg | | ]; try discriminate.
  - destruct Hlog as (pat & -> & Hclass).
    destruct (readPatterns ext fuel (bytesRead + chunk) patternsSize d1)
      as [[r2 d2] l2] eqn:Hrest.
    intros H; inversion H; subst.
    apply IH in Hrest. destruct Hrest as [Hrun Hall].
    split; [eapply fails_later; eauto | constructor; assumption].
  - subst l1. intros H; inversion H; subst.
    split; [apply fails_now; assumption | constructor].
Qed.

(** ** Enough fuel

    The recursion between [readChildObject] and [readDescriptor] and
    the loop over the pattern records are bounded by the bytes the
    stream has left: every nested value starts with a tag of four
    bytes and every pattern record with a length of four bytes.  So
    the reader never runs out of a fuel that exceeds a quarter of the
    remaining bytes, provided the reader of unicode strings leaves the
    buffer alone and does not move the cursor backwards. *)

Lemma forward_keepsBuffer {A} (m : M A) : forward m -> keepsBuffer m.
Proof. intros H d r d' l E. apply (H _ _ _ _ E). Qed.

Lemma bytesLeft_forward d d' :
  buffer d' = buffer d -> pos d <= pos d' -> (bytesLeft d' <= bytesLeft d)%nat.
Proof.
  unfold bytesLeft, remainingBytes. intros -> Hpos.
  rewrite !length_skipn. lia.
Qed.

Lemma forward_bind {A B} (m : M A) (f : A -> M B) :
  forward m -> (forall a, forward (f a)) -> forward (bind m f).
Proof.
  intros Hm Hf d r d' l. unfold bind.
  destruct (m d) as [[r1 d1] l1] eqn:E. apply Hm in E. destruct E as [Eb Ep].
  destruct r1; try solve [intros H; inversion H; subst; auto].
  destruct (f a d1) as [[r2 d2] l2] eqn:E2. apply Hf in E2.
  destruct E2 as [Eb2 Ep2].
  intros H; inversion H; subst. split; [congruence | lia].
Qed.

Lemma keepsBuffer_bind {A B} (m : M A) (f : A -> M B) :
  keepsBuffer m -> (forall a, keepsBuffer (f a)) -> keepsBuffer (bind m f).
Proof.
  intros Hm Hf d r d' l. unfold bind.
  destruct (m d) as [[r1 d1] l1] eqn:E. apply Hm in E.
  destruct r1; try solve [intros H; inversion H; subst; auto].
  destruct (f a d1) as [[r2 d2] l2] eqn:E2. apply Hf in E2.
  intros H; inversion H; subst. congruence.
Qed.

Lemma forward_pure {A} (r : outcome A) l : forward (fun d => (r, d, l)).
Proof. intros d r' d' l' H. inversion H; subst. split; [reflexivity | lia]. Qed.

Lemma forward_ret {A} (a : A) : forward (ret a).
Proof. apply forward_pure. Qed.
Lemma forward_throw {A} e : forward (@throw A e).
Proof. apply forward_pure. Qed.
Lemma forward_qFatal {A} msg : forward (@qFatal A msg).
Proof. apply forward_pure. Qed.
Lemma forward_outOfFuel {A} : forward (@outOfFuel A).
Proof. apply forward_pure. Qed.
Lemma forward_composeImage numPlanes arrayRect dataPlanes :
  forward (composeImage numPlanes arrayRect dataPlanes).
Proof.
  unfold composeImage.
  destruct (QImage_isNull _ _); [destruct (0 <? _)|]; apply forward_pure.
Qed.
Lemma forward_appendChild n : forward (appendChild n).
Proof. apply forward_pure. Qed.
Lemma forward_device_pos : forward device_pos.
Proof. intros d r d' l H. inversion H; subst. split; [reflexivity | lia]. Qed.

Lemma QIODevice_read_forward maxSize d data d' :
  QIODevice_read maxSize d = (data, d') ->
  buffer d' = buffer d /\ pos d <= pos d'.
Proof.
  intros H. apply QIODevice_read_pos in H. unfold size in H.
  destruct H as [-> ->]. split; [reflexivity | lia].
Qed.

Lemma forward_device_read maxSize : forward (device_read maxSize).
Proof.
  intros d r d' l. unfold device_read.
  destruct (QIODevice_read maxSize d) as [data d1] eqn:E.
  apply QIODevice_read_forward in E.
  intros H; inversion H; subst. exact E.
Qed.

Lemma forward_SAFE_READ_EX width varname init : forward (SAFE_READ_EX width varname init).
Proof.
  intros d r d' l. unfold SAFE_READ_EX.
  destruct (psdread width d init) as [[ok v] d1] eqn:E.
  apply psdread_device in E. destruct E as [Eb [Ep _]].
  destruct ok; intros H; inversion H; subst; auto.
Qed.

Lemma forward_SAFE_READ_SIGNATURE_EX width varname init expected :
  forward (SAFE_READ_SIGNATURE_EX width varname init expected).
Proof.
  intros d r d' l. unfold SAFE_READ_SIGNATURE_EX.
  destruct (psdread width d init) as [[ok v] d1] eqn:E.
  apply psdread_device in E. destruct E as [Eb [Ep _]].
  destruct (negb ok || negb (v =? expected)); intros H; inversion H; subst; auto.
Qed.

Lemma forward_readNonZero msg : forward (readNonZero msg).
Proof.
  intros d r d' l. unfold readNonZero.
  destruct (psdread 4 d GARBAGE_VALUE_MARK) as [[ok v] d1] eqn:E.
  apply psdread_device in E. destruct E as [Eb [Ep _]].
  destruct (negb ok || (v =? 0)); intros H; inversion H; subst; auto.
Qed.

Lemma forward_readStringCommon len : forward (readStringCommon len).
Proof.
  intros d r d' l. unfold readStringCommon, QIODevice_read_into.
  destruct (len <? 0).
  - destruct (negb (-1 =? len)); intros H; inversion H; subst;
      (split; [reflexivity | lia]).
  - destruct (QIODevice_read len d) as [data d1] eqn:E.
    apply QIODevice_read_forward in E.
    destruct (negb (_ =? len)); intros H; inversion H; subst; exact E.
Qed.

Lemma forward_readVarString : forward readVarString.
Proof.
  apply forward_bind; [apply forward_SAFE_READ_EX|].
  intros a. apply forward_readStringCommon.
Qed.

Lemma forward_readPascalString : forward readPascalString.
Proof.
  apply forward_bind; [apply forward_SAFE_READ_EX|].
  intros a. apply forward_readStringCommon.
Qed.

Lemma forward_appendElementThen {A} mk (body : M A) :
  forward body -> forward (appendElementThen mk body).
Proof.
  intros Hb d r d' l. unfold appendElementThen.
  destruct (body d) as [[r1 d1] kids] eqn:E. apply Hb in E.
  intros H; inversion H; subst. exact E.
Qed.

Lemma forward_forLoop n (body : M unit) : forward body -> forward (forLoop n body).
Proof.
  intros Hb. induction n as [|n IH]; simpl.
  - apply forward_ret.
  - apply forward_bind; [exact Hb | intros _; exact IH].
Qed.

Lemma forward_readFixedString : forward readFixedString.
Proof. apply forward_readStringCommon. Qed.

Create HintDb forward.
#[local] Hint Resolve forward_readFixedString forward_ret forward_throw forward_qFatal forward_outOfFuel
  forward_composeImage
  forward_appendChild forward_device_pos forward_device_read
  forward_SAFE_READ_EX forward_SAFE_READ_SIGNATURE_EX forward_readNonZero
  forward_readStringCommon forward_readVarString forward_readPascalString
  forward_appendElementThen forward_forLoop : forward.

Lemma fueled_bind {A B} k (m : M A) (f : A -> M B) :
  forward m -> fueled k m -> (forall a, fueled k (f a)) -> fueled k (bind m f).
Proof.
  intros Hfw Hm Hf d r d' l Hpos Hk. unfold bind.
  destruct (m d) as [[r1 d1] l1] eqn:E.
  pose proof (Hm _ _ _ _ Hpos Hk E) as Hr1.
  apply Hfw in E. destruct E as [Eb Ep].
  destruct r1; try solve [intros H; inversion H; subst; discriminate];
    [|contradiction].
  destruct (f a d1) as [[r2 d2] l2] eqn:E2.
  intros H; inversion H; subst.
  eapply (Hf a d1); [lia | | exact E2].
  pose proof (bytesLeft_forward d d1 Eb Ep). lia.
Qed.

Lemma fuelFree_fueled {A} k (m : M A) : fuelFree m -> fueled k m.
Proof. intros H d r d' l _ _ E. apply (H _ _ _ _ E). Qed.

Lemma fuelFree_bind {A B} (m : M A) (f : A -> M B) :
  fuelFree m -> (forall a, fuelFree (f a)) -> fuelFree (bind m f).
Proof.
  intros Hm Hf d r d' l. unfold bind.
  destruct (m d) as [[r1 d1] l1] eqn:E. apply Hm in E.
  destruct r1; try solve [intros H; inversion H; subst; discriminate];
    [|contradiction].
  destruct (f a d1) as [[r2 d2] l2] eqn:E2. apply Hf in E2.
  intros H; inversion H; subst. exact E2.
Qed.

Lemma fuelFree_ret {A} (a : A) : fuelFree (ret a).
Proof. intros d r d' l H. inversion H; discriminate. Qed.
Lemma fuelFree_throw {A} e : fuelFree (@throw A e).
Proof. intros d r d' l H. inversion H; discriminate. Qed.
Lemma fuelFree_qFatal {A} msg : fuelFree (@qFatal A msg).
Proof. intros d r d' l H. inversion H; discriminate. Qed.
Lemma fuelFree_appendChild n : fuelFree (appendChild n).
Proof. intros d r d' l H. inversion H; discriminate. Qed.
Lemma fuelFree_composeImage numPlanes arrayRect dataPlanes :
  fuelFree (composeImage numPlanes arrayRect dataPlanes).
Proof.
  unfold composeImage.
  destruct (QImage_isNull _ _); [destruct (0 <? _)|];
    intros d r d' l H; inversion H; discriminate.
Qed.
Lemma fuelFree_device_pos : fuelFree device_pos.
Proof. intros d r d' l H. inversion H; discriminate. Qed.
Lemma fuelFree_device_seek p : fuelFree (device_seek p).
Proof. intros d r d' l H. inversion H; discriminate. Qed.

Lemma fuelFree_device_read maxSize : fuelFree (device_read maxSize).
Proof.
  intros d r d' l. unfold device_read.
  destruct (QIODevice_read maxSize d). intros H; inversion H; discriminate.
Qed.

Lemma fuelFree_SAFE_READ_EX width varname init : fuelFree (SAFE_READ_EX width varname init).
Proof.
  intros d r d' l. unfold SAFE_READ_EX.
  destruct (psdread width d init) as [[ok v] d1].
  destruct ok; intros H; inversion H; discriminate.
Qed.

Lemma fuelFree_SAFE_READ_SIGNATURE_EX width varname init expected :
  fuelFree (SAFE_READ_SIGNATURE_EX width varname init expected).
Proof.
  intros d r d' l. unfold SAFE_READ_SIGNATURE_EX.
  destruct (psdread width d init) as [[ok v] d1].
  destruct (negb ok || negb (v =? expected)); intros H; inversion H; discriminate.
Qed.

Lemma fuelFree_readNonZero msg : fuelFree (readNonZero msg).
Proof.
  intros d r d' l. unfold readNonZero.
  destruct (psdread 4 d GARBAGE_VALUE_MARK) as [[ok v] d1].
  destruct (negb ok || (v =? 0)); intros H; inversion H; discriminate.
Qed.

Lemma fuelFree_readStringCommon len : fuelFree (readStringCommon len).
Proof.
  intros d r d' l. unfold readStringCommon.
  destruct (QIODevice_read_into len d) as [[n data] d1].
  destruct (negb (n =? len)); intros H; inversion H; discriminate.
Qed.

Lemma fuelFree_readVarString : fuelFree readVarString.
Proof.
  apply fuelFree_bind; [apply fuelFree_SAFE_READ_EX|].
  intros a. apply fuelFree_readStringCommon.
Qed.

Lemma fuelFree_readPascalString : fuelFree readPascalString.
Proof.
  apply fuelFree_bind; [apply fuelFree_SAFE_READ_EX|].
  intros a. apply fuelFree_readStringCommon.
Qed.

Lemma fuelFree_readUnicodeString ext : fuelFree (readUnicodeString ext).
Proof.
  intros d r d' l. unfold readUnicodeString.
  destruct (psdread_unicodestring ext d) as [[ok s] d1].
  destruct (negb ok); intros H; inversion H; discriminate.
Qed.

Lemma fuelFree_readFixedString : fuelFree readFixedString.
Proof. apply fuelFree_readStringCommon. Qed.

Create HintDb fuelFree.
#[local] Hint Resolve fuelFree_readFixedString fuelFree_ret fuelFree_throw fuelFree_qFatal fuelFree_appendChild
  fuelFree_composeImage
  fuelFree_device_pos fuelFree_device_seek fuelFree_device_read
  fuelFree_SAFE_READ_EX fuelFree_SAFE_READ_SIGNATURE_EX fuelFree_readNonZero
  fuelFree_readStringCommon fuelFree_readVarString fuelFree_readPascalString
  fuelFree_readUnicodeString : fuelFree.

Lemma fueled_appendElementThen {A} k mk (body : M A) :
  fueled k body -> fueled k (appendElementThen mk body).
Proof.
  intros Hb d r d' l Hpos Hk. unfold appendElementThen.
  destruct (body d) as [[r1 d1] kids] eqn:E.
  intros H; inversion H; subst. apply (Hb _ _ _ _ Hpos Hk E).
Qed.

Lemma fueled_forLoop k n (body : M unit) :
  forward body -> fueled k body -> fueled k (forLoop n body).
Proof.
  intros Hfw Hb. induction n as [|n IH]; simpl.
  - apply fuelFree_fueled, fuelFree_ret.
  - apply fueled_bind; [exact Hfw | exact Hb | intros _; exact IH].
Qed.

(** The bytes that are read are gone. *)
Lemma bytesLeft_read maxSize d data d' :
  0 <= pos d ->
  QIODevice_read maxSize d = (data, d') ->
  (bytesLeft d' + List.length data = bytesLeft d)%nat.
Proof.
  unfold QIODevice_read, bytesLeft, remainingBytes. intros Hpos H.
  inversion H; subst; clear H. cbn [buffer pos].
  rewrite !length_firstn, !length_skipn. lia.
Qed.

Lemma fueled_after_tag {B} k (f : string -> M B) :
  (forall a, (4 <= k)%nat -> fueled (k - 4) (f a)) ->
  fueled k (bind readFixedString f).
Proof.
  intros Hf d r d' l Hpos Hk. unfold bind, readFixedString.
  destruct (QIODevice_read 4 d) as [data d1] eqn:E.
  rewrite (readStringCommon_spec 4 d data d1 ltac:(lia) E).
  destruct (size data =? 4) eqn:E4; [|intros H; inversion H; discriminate].
  apply Z.eqb_eq in E4. unfold size in E4.
  assert (Hlen : List.length data = 4%nat) by lia.
  pose proof (bytesLeft_read _ _ _ _ Hpos E) as Hleft.
  apply QIODevice_read_forward in E. destruct E as [Eb Ep].
  destruct (f (QString_of_bytes data) d1) as [[r2 d2] l2] eqn:E2.
  intros H; inversion H; subst.
  eapply (Hf _ ltac:(lia) d1); [lia | lia | exact E2].
Qed.

Section EnoughFuel.

Variable ext : Collaborators.
Hypothesis unicode_forward : unicodeReaderForward ext.

Lemma forward_readUnicodeString : forward (readUnicodeString ext).
Proof.
  intros d r d' l. unfold readUnicodeString.
  destruct (psdread_unicodestring ext d) as [[ok s] d1] eqn:E.
  apply unicode_forward in E.
  destruct (negb ok); intros H; inversion H; subst; exact E.
Qed.

Ltac fwd :=
  cbv beta zeta;
  lazymatch goal with
  | |- forward (bind _ _) => apply forward_bind; [fwd | intros ?; fwd]
  | |- forward (if ?c then _ else _) => destruct c; fwd
  | |- forward (appendElementThen _ _) => apply forward_appendElementThen; fwd
  | |- forward (forLoop _ _) => apply forward_forLoop; fwd
  | |- _ => auto using forward_readUnicodeString with forward
  end.

Lemma forward_readChildObject fuel : forall skipKey,
  forward (readChildObject ext fuel skipKey).
Proof.
  induction fuel as [|fuel IH]; intros skipKey; simpl.
  - apply forward_outOfFuel.
  - unfold readDescriptor_body, readDoubleAsString, readIntAsString,
      readBoolAsString, appendDoubleXMLNode, appendIntegerXMLNode,
      appendTextXMLNode, appendXMLNodeCommon.
    fwd.
Qed.

Lemma forward_readDescriptor fuel key : forward (readDescriptor ext fuel key).
Proof.
  unfold readDescriptor, readDescriptor_body.
  pose proof (forward_readChildObject fuel). fwd.
Qed.

Ltac fuel_step IH :=
  cbv beta zeta;
  lazymatch goal with
  | |- fueled _ (bind _ _) =>
      apply fueled_bind;
      [ fwd | fuel_step IH | intros ?; fuel_step IH ]
  | |- fueled _ (if ?c then _ else _) => destruct c; fuel_step IH
  | |- fueled _ (appendElementThen _ _) =>
      apply fueled_appendElementThen; fuel_step IH
  | |- fueled _ (forLoop _ _) =>
      apply fueled_forLoop; [apply forward_readChildObject | fuel_step IH]
  | |- fueled _ (readChildObject _ _ _) => apply IH; lia
  | |- _ => apply fuelFree_fueled; auto with fuelFree
  end.

Lemma readChildObject_fueled fuel : forall k skipKey,
  (k < 4 * fuel)%nat -> fueled k (readChildObject ext fuel skipKey).
Proof.
  induction fuel as [|fuel IH]; intros k skipKey Hk; [lia|].
  simpl.
  apply fueled_bind.
  - destruct skipKey; auto with forward.
  - destruct skipKey; apply fuelFree_fueled; auto with fuelFree.
  - intros key. apply fueled_after_tag. intros OSType Hk4.
    assert (Hk' : (k - 4 < 4 * fuel)%nat) by lia.
    unfold readDescriptor_body, readDoubleAsString, readIntAsString,
      readBoolAsString, appendDoubleXMLNode, appendIntegerXMLNode,
      appendTextXMLNode, appendXMLNodeCommon.
    fuel_step IH.
Qed.

Lemma readDescriptor_fueled fuel k key :
  (k < 4 * fuel)%nat -> fueled k (readDescriptor ext fuel key).
Proof.
  intros Hk. unfold readDescriptor, readDescriptor_body.
  pose proof (fun k s H => readChildObject_fueled fuel k s H) as IH.
  fuel_step IH.
Qed.

(** *** The pattern records *)

Lemma keepsBuffer_device_seek p : keepsBuffer (device_seek p).
Proof. intros d r d' l H. inversion H; reflexivity. Qed.

Lemma keepsBuffer_SETUP {A} expectedOffset maxPadding (m : M A) :
  keepsBuffer m -> keepsBuffer (SETUP_OFFSET_VERIFIER expectedOffset maxPadding m).
Proof.
  intros Hm d r d' l. unfold SETUP_OFFSET_VERIFIER.
  destruct (m d) as [[r1 d1] l1] eqn:E. apply Hm in E.
  destruct r1; intros H; inversion H; subst; try assumption;
    destruct (pos d1 =? _); assumption.
Qed.

Lemma keepsBuffer_unicode :
  keepsBuffer (fun d => let '(_, s, d') := psdread_unicodestring ext d in
                        (@Ok string s, d', @nil QDomNode)).
Proof.
  intros d r d' l. destruct (psdread_unicodestring ext d) as [[ok s] d1] eqn:E.
  apply unicode_forward in E. intros H; inversion H; subst. apply E.
Qed.

Ltac kb :=
  cbv beta zeta;
  lazymatch goal with
  | |- keepsBuffer (bind _ _) => apply keepsBuffer_bind; [kb | intros ?; kb]
  | |- keepsBuffer (if ?c then _ else _) => destruct c; kb
  | |- keepsBuffer (SETUP_OFFSET_VERIFIER _ _ _) => apply keepsBuffer_SETUP; kb
  | |- keepsBuffer (device_seek _) => apply keepsBuffer_device_seek
  | |- _ => first [ assumption
                  | apply keepsBuffer_unicode
                  | apply forward_keepsBuffer; solve [auto with forward]
                  | idtac ]
  end.

Lemma keepsBuffer_readRowSizes numRows : keepsBuffer (readRowSizes numRows).
Proof.
  induction numRows as [|n IH]; simpl; kb.
Qed.

Lemma keepsBuffer_readRows width rowSizes : forall plane,
  keepsBuffer (readRows ext width rowSizes plane).
Proof.
  induction rowSizes as [|rowSize rest IH]; intros plane; simpl; kb.
  apply IH.
Qed.

Lemma keepsBuffer_readPlane arrayRect i dataPlanes :
  keepsBuffer (readPlane ext arrayRect i dataPlanes).
Proof.
  unfold readPlane.
  pose proof keepsBuffer_readRowSizes. pose proof keepsBuffer_readRows.
  kb; auto.
Qed.

Lemma keepsBuffer_readPlanes n arrayRect : forall i dataPlanes,
  keepsBuffer (readPlanes ext n arrayRect i dataPlanes).
Proof.
  induction n as [|n IH]; intros i dataPlanes; simpl; kb.
  - apply keepsBuffer_readPlane.
  - apply IH.
Qed.

Lemma keepsBuffer_readVirtualArrayList numPlanes :
  keepsBuffer (readVirtualArrayList ext numPlanes).
Proof.
  unfold readVirtualArrayList. kb. apply keepsBuffer_readPlanes.
Qed.

Lemma fuelFree_SETUP {A} expectedOffset maxPadding (m : M A) :
  fuelFree m -> fuelFree (SETUP_OFFSET_VERIFIER expectedOffset maxPadding m).
Proof.
  intros Hm d r d' l. unfold SETUP_OFFSET_VERIFIER.
  destruct (m d) as [[r1 d1] l1] eqn:E. apply Hm in E.
  destruct r1; intros H; inversion H; subst; first [discriminate | contradiction].
Qed.

Ltac ff :=
  cbv beta zeta;
  lazymatch goal with
  | |- fuelFree (bind _ _) => apply fuelFree_bind; [ff | intros ?; ff]
  | |- fuelFree (if ?c then _ else _) => destruct c; ff
  | |- fuelFree (SETUP_OFFSET_VERIFIER _ _ _) => apply fuelFree_SETUP; ff
  | |- _ => first [ assumption | solve [auto with fuelFree] | idtac ]
  end.

Lemma fuelFree_readRowSizes numRows : fuelFree (readRowSizes numRows).
Proof. induction numRows as [|n IH]; simpl; ff. Qed.

Lemma fuelFree_readRows width rowSizes : forall plane,
  fuelFree (readRows ext width rowSizes plane).
Proof.
  induction rowSizes as [|rowSize rest IH]; intros plane; simpl; ff.
Qed.

Lemma fuelFree_readPlane arrayRect i dataPlanes :
  fuelFree (readPlane ext arrayRect i dataPlanes).
Proof.
  unfold readPlane.
  pose proof fuelFree_readRowSizes. pose proof fuelFree_readRows.
  ff; auto.
Qed.

Lemma fuelFree_readPlanes n arrayRect : forall i dataPlanes,
  fuelFree (readPlanes ext n arrayRect i dataPlanes).
Proof.
  induction n as [|n IH]; intros i dataPlanes; simpl; ff;
    first [apply fuelFree_readPlane | apply IH].
Qed.

Lemma fuelFree_readVirtualArrayList numPlanes :
  fuelFree (readVirtualArrayList ext numPlanes).
Proof.
  unfold readVirtualArrayList. ff; try apply fuelFree_readPlanes.
Qed.

Lemma fuelFree_readPattern : fuelFree (readPattern ext).
Proof.
  unfold readPattern. pose proof fuelFree_readVirtualArrayList. ff; auto.
  intros d r d' l. destruct (psdread_unicodestring ext d) as [[ok s] d1].
  intros E; inversion E; discriminate.
Qed.

Lemma keepsBuffer_readPattern : keepsBuffer (readPattern ext).
Proof.
  unfold readPattern. pose proof keepsBuffer_readVirtualArrayList. kb; auto.
Qed.

Lemma SETUP_OFFSET_VERIFIER_Ok_device {A} expectedOffset maxPadding (m : M A) d a d' l :
  SETUP_OFFSET_VERIFIER expectedOffset maxPadding m d = (Ok a, d', l) ->
  exists d1, m d = (Ok a, d1, l)
             /\ pos d' = pos d + expectedOffset /\ buffer d' = buffer d1.
Proof.
  unfold SETUP_OFFSET_VERIFIER.
  destruct (m d) as [[r d1] l1]. destruct r; try discriminate.
  intros H; inversion H; subst. exists d1.
  split; [reflexivity|].
  destruct (pos d1 =? pos d + expectedOffset) eqn:E.
  - apply Z.eqb_eq in E. auto.
  - simpl. auto.
Qed.

Lemma psdread_true_bytesLeft width d init v d1 :
  0 <= pos d ->
  psdread width d init = (true, v, d1) ->
  (bytesLeft d1 + width = bytesLeft d)%nat.
Proof.
  unfold psdread. intros Hpos.
  destruct (QIODevice_read (Z.of_nat width) d) as [data d'] eqn:E.
  destruct (Nat.eqb (List.length data) width) eqn:Hw; [|discriminate].
  apply Nat.eqb_eq in Hw. intros H; inversion H; subst.
  pose proof (bytesLeft_read _ _ _ _ Hpos E). lia.
Qed.

(** A pattern record that decodes leaves the cursor at least four
    bytes further on. *)
Lemma readPattern_progress d chunk d' l :
  0 <= pos d ->
  readPattern ext d = (Ok chunk, d', l) ->
  0 <= pos d' /\ (bytesLeft d' + 4 <= bytesLeft d)%nat.
Proof.
  intros Hpos H.
  pose proof (keepsBuffer_readPattern _ _ _ _ H) as Hbuf.
  unfold readPattern in H.
  apply bind_silent_Ok_inv in H; [|auto with silent].
  destruct H as (patternSize & d1 & Hsize & H).
  apply SAFE_READ_EX_Ok_inv in Hsize.
  pose proof (psdread_true_bytesLeft _ _ _ _ _ Hpos Hsize) as Hleft.
  apply psdread_device in Hsize. destruct Hsize as [Hb1 [Hp1 _]].
  apply SETUP_OFFSET_VERIFIER_Ok_device in H.
  destruct H as (d2 & _ & Hp & _).
  assert (Hq : 0 <= quint32 (alignOffsetCeil patternSize 4))
    by (unfold quint32; apply Z.mod_pos_bound; lia).
  split; [lia|].
  assert (Hle : (bytesLeft d' <= bytesLeft d1)%nat)
    by (apply bytesLeft_forward; [congruence | lia]).
  lia.
Qed.

Lemma readPatterns_fueled fuel : forall k bytesRead patternsSize,
  (k < 4 * fuel)%nat -> fueled k (readPatterns ext fuel bytesRead patternsSize).
Proof.
  induction fuel as [|fuel IH]; intros k bytesRead patternsSize Hk; [lia|].
  intros d r d' l Hpos Hleft. simpl.
  destruct (bytesRead <? patternsSize); [|intros H; inversion H; discriminate].
  unfold bind.
  destruct (readPattern ext d) as [[r1 d1] l1] eqn:Hp.
  pose proof (fuelFree_readPattern _ _ _ _ Hp) as Hfree.
  destruct r1 as [chunk | e | msg | | ];
    try solve [intros H; inversion H; discriminate]; [|contradiction].
  apply readPattern_progress in Hp; [|assumption]. destruct Hp as [Hpos1 Hleft1].
  destruct (readPatterns ext fuel (bytesRead + chunk) patternsSize d1)
    as [[r2 d2] l2] eqn:Hrest.
  intros H; inversion H; subst.
  eapply (IH (k - 4)%nat); [lia | exact Hpos1 | lia | exact Hrest].
Qed.

Lemma keepsBuffer_readPatterns fuel : forall bytesRead patternsSize,
  keepsBuffer (readPatterns ext fuel bytesRead patternsSize).
Proof.
  induction fuel as [|fuel IH]; intros bytesRead patternsSize; simpl;
    (destruct (bytesRead <? patternsSize);
     [|apply forward_keepsBuffer, forward_ret]).
  - apply forward_keepsBuffer, forward_outOfFuel.
  - apply keepsBuffer_bind; [apply keepsBuffer_readPattern | intros; apply IH].
Qed.

(** The patterns block, when it completes, leaves the cursor where it
    was or further on. *)
Lemma readPatternsSection_Ok_forward fuel d u d' l :
  readPatternsSection ext fuel d = (Ok u, d', l) ->
  buffer d' = buffer d /\ pos d <= pos d'.
Proof.
  unfold readPatternsSection. intros H.
  apply bind_silent_Ok_inv in H; [|auto with silent].
  destruct H as (patternsSize & d1 & Hsize & H).
  apply forward_SAFE_READ_EX in Hsize. destruct Hsize as [Hb1 Hp1].
  destruct (0 <? patternsSize) eqn:Hps.
  - apply Z.ltb_lt in Hps.
    apply SETUP_OFFSET_VERIFIER_Ok_device in H.
    destruct H as (d2 & Hbody & Hp & Hb).
    unfold appendElementThen, tryCatchWarning in Hbody.
    destruct (readPatterns ext fuel 0 patternsSize d1) as [[r3 d3] l3] eqn:Hloop.
    apply keepsBuffer_readPatterns in Hloop.
    assert (d3 = d2) by (destruct r3; inversion Hbody; reflexivity). subst d3.
    split; [congruence | lia].
  - inversion H; subst. auto.
Qed.

Lemma readPatternsSection_fueled fuel k :
  (k < 4 * fuel)%nat -> fueled k (readPatternsSection ext fuel).
Proof.
  intros Hk d r d' l Hpos Hleft. unfold readPatternsSection, bind.
  destruct (SAFE_READ_EX 4 "patternsSize" GARBAGE_VALUE_MARK d)
    as [[r1 d1] l1] eqn:Hsize.
  pose proof (fuelFree_SAFE_READ_EX _ _ _ _ _ _ _ Hsize) as Hfree.
  apply forward_SAFE_READ_EX in Hsize. destruct Hsize as [Hb1 Hp1].
  destruct r1 as [patternsSize | e | msg | | ];
    try solve [intros H; inversion H; discriminate]; [|contradiction].
  destruct (0 <? patternsSize); [|intros H; inversion H; discriminate].
  unfold SETUP_OFFSET_VERIFIER, appendElementThen, tryCatchWarning.
  destruct (readPatterns ext fuel 0 patternsSize d1) as [[r3 d3] l3] eqn:Hloop.
  assert (Hr3 : r3 <> OutOfFuel).
  { eapply (readPatterns_fueled fuel k); [exact Hk | | | exact Hloop].
    - lia.
    - pose proof (bytesLeft_forward d d1 Hb1 Hp1). lia. }
  destruct r3; try contradiction; intros H; inversion H; discriminate.
Qed.

Lemma fueled_bind_Ok {A B} k (m : M A) (f : A -> M B) :
  (forall d a d' l, m d = (Ok a, d', l) -> buffer d' = buffer d /\ pos d <= pos d') ->
  fueled k m -> (forall a, fueled k (f a)) -> fueled k (bind m f).
Proof.
  intros Hfw Hm Hf d r d' l Hpos Hk. unfold bind.
  destruct (m d) as [[r1 d1] l1] eqn:E.
  pose proof (Hm _ _ _ _ Hpos Hk E) as Hr1.
  destruct r1; try solve [intros H; inversion H; subst; discriminate];
    [|contradiction].
  apply Hfw in E. destruct E as [Eb Ep].
  destruct (f a d1) as [[r2 d2] l2] eqn:E2.
  intros H; inversion H; subst.
  eapply (Hf a d1); [lia | | exact E2].
  pose proof (bytesLeft_forward d d1 Eb Ep). lia.
Qed.

Lemma readFileImpl_root_fueled fuel k :
  (k < 4 * fuel)%nat -> fueled k (readFileImpl_root ext fuel).
Proof.
  intros Hk. unfold readFileImpl_root, readStyles.
  pose proof (fun k s H => readChildObject_fueled fuel k s H) as IH.
  pose proof (readDescriptor_fueled fuel k "" Hk) as Hdesc.
  pose proof (forward_readDescriptor fuel "") as Hfwd.
  do 3 (apply fueled_bind;
        [auto with forward | apply fuelFree_fueled; auto with fuelFree | intros ?]).
  apply fueled_bind_Ok;
    [apply readPatternsSection_Ok_forward
    | apply readPatternsSection_fueled; exact Hk | intros ?].
  do 3 (apply fueled_bind;
        [auto with forward | apply fuelFree_fueled; auto with fuelFree | intros ?]).
  apply fueled_bind; [exact Hfwd | exact Hdesc | intros ?].
  apply fueled_bind;
    [auto with forward | apply fuelFree_fueled; auto with fuelFree | intros ?].
  exact Hdesc.
Qed.

(** X2: the recursion and the loops of [readFile] are bounded by the
    stream.  On a stream with fewer than [4 * fuel] bytes left, read
    by a unicode reader that only moves forward, [readFile] does not
    run out of fuel, however it ends: values are nested less than
    [fuel] deep and the loop over the pattern records runs less than
    [fuel] times.  And no parse error leaves [readFile]. *)
Theorem readFile_enough_fuel fuel d :
  0 <= pos d -> (bytesLeft d < 4 * fuel)%nat ->
  let r := fst (readFile ext fuel d) in
  r <> OutOfFuel /\ forall e, r <> Throw e.
Proof.
  intros Hpos Hleft. unfold readFile, readFileImpl.
  destruct (readFileImpl_root ext fuel d) as [[r d'] kids] eqn:E.
  pose proof (readFileImpl_root_fueled fuel (bytesLeft d) Hleft
                _ _ _ _ Hpos (Nat.le_refl _) E) as Hr.
  destruct r as [u | e | msg | | ]; try contradiction; simpl;
    (split; [discriminate | intros e'; discriminate]).
Qed.

End EnoughFuel.

(** The unicode reader used on the example streams only moves forward. *)
Lemma psdread_unicodestring_model_forward : unicodeReaderForward stdCollaborators.
Proof.
  intros d ok s d'. simpl. unfold psdread_unicodestring_model.
  destruct (psdread 4 d 0) as [[ok1 count] d1] eqn:E1.
  apply psdread_device in E1. destruct E1 as [Hb1 [Hp1 _]].
  destruct (negb ok1); [intros H; inversion H; subst; auto|].
  destruct (QIODevice_read (2 * count) d1) as [data d2] eqn:E2.
  apply QIODevice_read_forward in E2. destruct E2 as [Hb2 Hp2].
  destruct (negb (_ =? 2 * count)); intros H; inversion H; subst;
    (split; [congruence | lia]).
Qed.

(** * Further properties *)

(** ** Outcomes of the pattern decoder *)

Lemma recoverable_bind {A B} (m : M A) (f : A -> M B) :
  recoverable m -> (forall a, recoverable (f a)) -> recoverable (bind m f).
Proof.
  intros Hm Hf d r d' l. unfold bind.
  destruct (m d) as [[r1 d1] l1] eqn:E. apply Hm in E.
  destruct E as [[a ->] | [[e ->] | ->]].
  - destruct (f a d1) as [[r2 d2] l2] eqn:E2. apply Hf in E2.
    intros H; inversion H; subst. exact E2.
  - intros H; inversion H; subst. right. left. eauto.
  - intros H; inversion H; subst. right. right. reflexivity.
Qed.

Lemma recoverable_ret {A} (a : A) : recoverable (ret a).
Proof. intros d r d' l H. inversion H; subst. left. eauto. Qed.

Lemma recoverable_throw {A} e : recoverable (@throw A e).
Proof. intros d r d' l H. inversion H; subst. right. left. eauto. Qed.

Lemma recoverable_appendChild n : recoverable (appendChild n).
Proof. intros d r d' l H. inversion H; subst. left. eauto. Qed.

Lemma recoverable_device_pos : recoverable device_pos.
Proof. intros d r d' l H. inversion H; subst. left. eauto. Qed.

Lemma recoverable_device_seek p : recoverable (device_seek p).
Proof. intros d r d' l H. inversion H; subst. left. eauto. Qed.

Lemma recoverable_device_read maxSize : recoverable (device_read maxSize).
Proof.
  intros d r d' l. unfold device_read.
  destruct (QIODevice_read maxSize d). intros H; inversion H; subst. left. eauto.
Qed.

Lemma recoverable_SAFE_READ_EX width varname init :
  recoverable (SAFE_READ_EX width varname init).
Proof.
  intros d r d' l. unfold SAFE_READ_EX.
  destruct (psdread width d init) as [[ok v] d1].
  destruct ok; intros H; inversion H; subst; [left | right; left]; eauto.
Qed.

Lemma recoverable_readNonZero msg : recoverable (readNonZero msg).
Proof.
  intros d r d' l. unfold readNonZero.
  destruct (psdread 4 d GARBAGE_VALUE_MARK) as [[ok v] d1].
  destruct (negb ok || (v =? 0)); intros H; inversion H; subst; [right; left | left]; eauto.
Qed.

Lemma recoverable_readStringCommon len : recoverable (readStringCommon len).
Proof.
  intros d r d' l. unfold readStringCommon.
  destruct (QIODevice_read_into len d) as [[n data] d1].
  destruct (negb (n =? len)); intros H; inversion H; subst; [right; left | left]; eauto.
Qed.

Lemma recoverable_readPascalString : recoverable readPascalString.
Proof.
  apply recoverable_bind; [apply recoverable_SAFE_READ_EX|].
  intros a. apply recoverable_readStringCommon.
Qed.

Lemma recoverable_SETUP {A} expectedOffset maxPadding (m : M A) :
  recoverable m -> recoverable (SETUP_OFFSET_VERIFIER expectedOffset maxPadding m).
Proof.
  intros Hm d r d' l. unfold SETUP_OFFSET_VERIFIER.
  destruct (m d) as [[r1 d1] l1] eqn:E. apply Hm in E.
  destruct E as [[a ->] | [[e ->] | ->]]; intros H; inversion H; subst;
    [left | right; left | right; right]; eauto.
Qed.

Lemma recoverable_composeImage numPlanes arrayRect dataPlanes :
  recoverable (composeImage numPlanes arrayRect dataPlanes).
Proof.
  unfold composeImage.
  destruct (QImage_isNull _ _); [destruct (0 <? _)|];
    intros d r d' l H; inversion H; subst; eauto.
Qed.

Create HintDb recoverable.
#[local] Hint Resolve recoverable_ret recoverable_throw recoverable_appendChild
  recoverable_composeImage
  recoverable_device_pos recoverable_device_seek recoverable_device_read
  recoverable_SAFE_READ_EX recoverable_readNonZero recoverable_readStringCommon
  recoverable_readPascalString : recoverable.

Ltac rec_step :=
  cbv beta zeta;
  lazymatch goal with
  | |- recoverable (bind _ _) => apply recoverable_bind; [rec_step | intros ?; rec_step]
  | |- recoverable (if ?c then _ else _) => destruct c; rec_step
  | |- recoverable (SETUP_OFFSET_VERIFIER _ _ _) => apply recoverable_SETUP; rec_step
  | |- _ => first [ assumption | solve [auto with recoverable] | idtac ]
  end.

Lemma recoverable_readRowSizes numRows : recoverable (readRowSizes numRows).
Proof. induction numRows as [|n IH]; simpl; rec_step. Qed.

Lemma recoverable_readRows ext width rowSizes : forall plane,
  recoverable (readRows ext width rowSizes plane).
Proof.
  induction rowSizes as [|rowSize rest IH]; intros plane; simpl; rec_step.
Qed.

Lemma recoverable_readPlane ext arrayRect i dataPlanes :
  recoverable (readPlane ext arrayRect i dataPlanes).
Proof.
  unfold readPlane.
  pose proof recoverable_readRowSizes. pose proof (recoverable_readRows ext).
  rec_step; auto.
Qed.

Lemma recoverable_readPlanes ext n arrayRect : forall i dataPlanes,
  recoverable (readPlanes ext n arrayRect i dataPlanes).
Proof.
  induction n as [|n IH]; intros i dataPlanes; simpl; rec_step;
    first [apply recoverable_readPlane | apply IH].
Qed.

Lemma recoverable_readVirtualArrayList ext numPlanes :
  recoverable (readVirtualArrayList ext numPlanes).
Proof.
  unfold readVirtualArrayList. rec_step; try apply recoverable_readPlanes.
Qed.

Lemma recoverable_readPattern ext : recoverable (readPattern ext).
Proof.
  unfold readPattern. pose proof (recoverable_readVirtualArrayList ext).
  rec_step; auto.
  intros d r d' l. destruct (psdread_unicodestring ext d) as [[ok s] d1].
  intros E; inversion E; subst. left. eauto.
Qed.

Lemma silent_patternName ext :
  silent (fun d => let '(_, s, d') := psdread_unicodestring ext d in
                   (@Ok string s, d', @nil QDomNode)).
Proof.
  intros d r d' l. destruct (psdread_unicodestring ext d) as [[ok s] d1].
  intros H; inversion H; reflexivity.
Qed.

(** What a pattern record that decodes has gone through. *)
Lemma readPattern_Ok_inv ext d chunk d' l :
  readPattern ext d = (Ok chunk, d', l) ->
  exists declared d1 d2 mode d3 patternName patternUuid image,
    psdread 4 d GARBAGE_VALUE_MARK = (true, declared, d1)
    /\ psdread 4 d1 GARBAGE_VALUE_MARK = (true, 1, d2)
    /\ psdread 4 d2 GARBAGE_VALUE_MARK = (true, mode, d3)
    /\ (mode = psd_MultiChannel ext \/ mode = psd_Grayscale ext \/ mode = psd_RGB ext)
    /\ l = [patternNode patternName patternUuid
              (serializePattern ext image patternName (patternUuid ++ ".pat")%string)]
    /\ chunk = 4 + quint32 (alignOffsetCeil declared 4)
    /\ pos d' = pos d1 + quint32 (alignOffsetCeil declared 4).
Proof.
  unfold readPattern. intros H.
  apply bind_silent_Ok_inv in H; [|auto with silent].
  destruct H as (declared & d1 & Hsize & H).
  apply SAFE_READ_EX_Ok_inv in Hsize.
  apply SETUP_OFFSET_VERIFIER_Ok_device in H.
  destruct H as (dEnd & H & Hpos & _).
  apply bind_silent_Ok_inv in H; [|auto with silent].
  destruct H as (patternVersion & d2 & Hversion & H).
  apply SAFE_READ_EX_Ok_inv in Hversion.
  destruct (negb (patternVersion =? 1)) eqn:Hv; [discriminate H|].
  apply negb_false_iff, Z.eqb_eq in Hv. subst patternVersion.
  apply bind_silent_Ok_inv in H; [|auto with silent].
  destruct H as (mode & d3 & Hmode & H).
  apply SAFE_READ_EX_Ok_inv in Hmode.
  apply bind_silent_Ok_inv in H; [|auto with silent].
  destruct H as (patternHeight & d4 & _ & H).
  apply bind_silent_Ok_inv in H; [|auto with silent].
  destruct H as (patternWidth & d5 & _ & H).
  apply bind_silent_Ok_inv in H; [|apply silent_patternName].
  destruct H as (patternName & d6 & _ & H).
  apply bind_silent_Ok_inv in H; [|auto with silent].
  destruct H as (patternUuid & d7 & _ & H).
  apply bind_silent_Ok_inv in H; [|silence].
  destruct H as (numPlanes & d8 & Hplanes & H).
  apply bind_silent_Ok_inv in H; [|apply silent_readVirtualArrayList].
  destruct H as (image & d9 & _ & H).
  unfold bind, appendChild, ret in H. inversion H; subst.
  exists declared, d1, d2, mode, d3, patternName, patternUuid, image.
  repeat split; try assumption; try reflexivity.
  cbv zeta in Hplanes.
  destruct ((mode =? psd_MultiChannel ext) || (mode =? psd_Grayscale ext)) eqn:E1.
  - apply orb_true_iff in E1. destruct E1 as [E1 | E1]; apply Z.eqb_eq in E1; auto.
  - destruct (mode =? psd_RGB ext) eqn:E2; [|discriminate Hplanes].
    apply Z.eqb_eq in E2. auto.
Qed.

(** X3: a pattern record is all or nothing, whatever its bytes.  When
    [readPattern] returns, it has appended exactly one node, the
    "KisPattern" descriptor with its three children "Nm  ", "Idnt" and
    "Data"; when it raises a parse error, and when the process dies
    writing the pixels of a null image, it has appended nothing.  It
    never calls [qFatal], and it has no recursion to run out of. *)
Theorem readPattern_all_or_nothing ext d :
  let r := fst (fst (readPattern ext d)) in
  let nodes := snd (readPattern ext d) in
  match r with
  | Ok _ => exists patternName patternUuid blob,
              nodes = [patternNode patternName patternUuid blob]
  | Throw _ => nodes = []
  | Crash => nodes = []
  | Fatal _ => False
  | OutOfFuel => False
  end.
Proof.
  destruct (readPattern ext d) as [[r d'] l] eqn:E. cbn [fst snd].
  destruct (recoverable_readPattern ext _ _ _ _ E) as [[chunk ->] | [[e ->] | ->]].
  - pose proof (readPattern_Ok_inv _ _ _ _ _ E) as Hinv.
    destruct Hinv as (declared & d1 & d2 & mode & d3 & name & uuid & image & Hinv).
    destruct Hinv as (_ & _ & _ & _ & -> & _).
    do 3 eexists. reflexivity.
  - exact (readPattern_appendsOnePattern ext _ _ _ _ E).
  - exact (readPattern_appendsOnePattern ext _ _ _ _ E).
Qed.

(** X4: a pattern record that decodes leaves the cursor exactly as
    many bytes after its start as the byte count it returns, whether
    its body consumed fewer or more bytes than declared: the offset
    verifier of the record puts the cursor at the declared end. *)
Theorem readPattern_cursor_advance ext d chunk d' l :
  readPattern ext d = (Ok chunk, d', l) ->
  pos d' = pos d + chunk.
Proof.
  intros H. apply readPattern_Ok_inv in H.
  destruct H as (declared & d1 & d2 & mode & d3 & name & uuid & image & H).
  destruct H as (Hsize & _ & _ & _ & _ & -> & Hpos).
  apply psdread_true_device in Hsize. subst d1. simpl in Hpos. lia.
Qed.

(** A record that declares 0 bytes and has a body of 88: the count and
    the cursor are both 4. *)
Lemma readPattern_cursor_advance_witness :
  exists pat,
    readPattern stdCollaborators (mkDevice (grayPattern 0) 0)
      = (Ok 4, mkDevice (grayPattern 0) 4, [pat])
    /\ pos (mkDevice (grayPattern 0) 4) = pos (mkDevice (grayPattern 0) 0) + 4.
Proof.
  eexists.
  assert (E : readPattern stdCollaborators (mkDevice (grayPattern 0) 0)
              = (Ok 4, mkDevice (grayPattern 0) 4, _)) by (vm_compute; reflexivity).
  split; [exact E|].
  exact (readPattern_cursor_advance _ _ _ _ _ E).
Defined.

(** X5: a pattern record decodes only if its version field, the four
    bytes after the length, is 1 and its image mode, the next four
    bytes, is MultiChannel, Grayscale or RGB. *)
Theorem readPattern_accepted_header ext d chunk d' l :
  readPattern ext d = (Ok chunk, d', l) ->
  exists mode,
    psdread 4 (mkDevice (buffer d) (pos d + 4)) GARBAGE_VALUE_MARK
      = (true, 1, mkDevice (buffer d) (pos d + 8))
    /\ psdread 4 (mkDevice (buffer d) (pos d + 8)) GARBAGE_VALUE_MARK
      = (true, mode, mkDevice (buffer d) (pos d + 12))
    /\ (mode = psd_MultiChannel ext \/ mode = psd_Grayscale ext \/ mode = psd_RGB ext).
Proof.
  intros H. apply readPattern_Ok_inv in H.
  destruct H as (declared & d1 & d2 & mode & d3 & name & uuid & image & H).
  destruct H as (Hsize & Hversion & Hmode & Hsupported & _).
  pose proof (psdread_true_device _ _ _ _ _ Hsize) as E1. subst d1.
  pose proof (psdread_true_device _ _ _ _ _ Hversion) as E2. subst d2.
  pose proof (psdread_true_device _ _ _ _ _ Hmode) as E3. subst d3.
  simpl in *.
  replace (pos d + 4 + 4) with (pos d + 8) in * by lia.
  replace (pos d + 8 + 4) with (pos d + 12) in * by lia.
  exists mode. auto.
Qed.

Lemma readPattern_accepted_header_witness :
  exists mode,
    psdread 4 (mkDevice (grayPattern 88) 4) GARBAGE_VALUE_MARK
      = (true, 1, mkDevice (grayPattern 88) 8)
    /\ psdread 4 (mkDevice (grayPattern 88) 8) GARBAGE_VALUE_MARK
      = (true, mode, mkDevice (grayPattern 88) 12)
    /\ (mode = 7 \/ mode = 1 \/ mode = 3).
Proof.
  assert (E : exists d' l, readPattern stdCollaborators (mkDevice (grayPattern 88) 0)
                           = (Ok 92, d', l))
    by (do 2 eexists; vm_compute; reflexivity).
  destruct E as (d' & l & E).
  exact (readPattern_accepted_header stdCollaborators _ _ _ _ E).
Defined.

(** ** The loop over the pattern records *)

Lemma readPattern_nodes ext d r d' l :
  readPattern ext d = (r, d', l) ->
  l = [] \/ (exists chunk n, r = Ok chunk /\ l = [n] /\ isPatternNode n).
Proof.
  intros E.
  destruct (recoverable_readPattern ext _ _ _ _ E) as [[chunk ->] | [[e ->] | ->]].
  - right. pose proof (readPattern_Ok_inv _ _ _ _ _ E) as Hinv.
    destruct Hinv as (declared & d1 & d2 & mode & d3 & name & uuid & image & Hinv).
    destruct Hinv as (_ & _ & _ & _ & -> & _).
    do 2 eexists. split; [reflexivity|]. split; [reflexivity|].
    unfold isPatternNode. eauto.
  - left. pose proof (readPattern_appendsOnePattern ext _ _ _ _ E) as Hl.
    exact Hl.
  - left. pose proof (readPattern_appendsOnePattern ext _ _ _ _ E) as Hl.
    exact Hl.
Qed.

Lemma readPatterns_nodes ext patternsSize fuel : forall bytesRead d r d' l,
  readPatterns ext fuel bytesRead patternsSize d = (r, d', l) ->
  Forall isPatternNode l /\ (forall msg, r <> Fatal msg).
Proof.
  induction fuel as [|fuel IH]; intros bytesRead d r d' l; simpl;
    destruct (bytesRead <? patternsSize);
    try solve [intros H; inversion H; subst; split; [constructor | discriminate]].
  unfold bind.
  destruct (readPattern ext d) as [[r1 d1] l1] eqn:Hp.
  pose proof (readPattern_nodes _ _ _ _ _ Hp) as Hn.
  pose proof (recoverable_readPattern ext _ _ _ _ Hp) as Hrec.
  destruct Hrec as [[chunk ->] | [[e ->] | ->]].
  - destruct (readPatterns ext fuel (bytesRead + chunk) patternsSize d1)
      as [[r2 d2] l2] eqn:Hrest.
    apply IH in Hrest. destruct Hrest as [Hall Hfatal].
    intros H; inversion H; subst. split; [|exact Hfatal].
    apply Forall_app. split; [|exact Hall].
    destruct Hn as [-> | (c & n & _ & -> & Hnode)]; repeat constructor; assumption.
  - intros H; inversion H; subst. split; [|discriminate].
    destruct Hn as [-> | (c & n & Hc & _)]; [constructor | discriminate Hc].
  - intros H; inversion H; subst. split; [|discriminate].
    destruct Hn as [-> | (c & n & Hc & _)]; [constructor | discriminate Hc].
Qed.

Lemma readPatterns_Ok_inv ext patternsSize fuel : forall bytesRead d u d' pats,
  readPatterns ext fuel bytesRead patternsSize d = (Ok u, d', pats) ->
  exists chunks,
    List.length chunks = List.length pats
    /\ Forall (fun chunk => 4 <= chunk) chunks
    /\ pos d' = pos d + sumZ chunks
    /\ patternsSize <= bytesRead + sumZ chunks
    /\ (bytesRead < patternsSize ->
        chunks <> [] /\ bytesRead + sumZ (removelast chunks) < patternsSize)
    /\ decodesRecords ext chunks d pats d'.
Proof.
  induction fuel as [|fuel IH]; intros bytesRead d u d' pats; simpl;
    destruct (bytesRead <? patternsSize) eqn:Hlt;
    try discriminate;
    try solve [ apply Z.ltb_ge in Hlt; intros H; inversion H; subst;
                exists []; simpl; repeat split; try constructor; lia ].
  apply Z.ltb_lt in Hlt. intros H.
  apply bind_Ok_inv in H.
  destruct H as (chunk & d1 & l1 & l2 & Hp & Hrest & ->).
  pose proof (readPattern_cursor_step := readPattern_Ok_inv _ _ _ _ _ Hp).
  destruct readPattern_cursor_step
    as (declared & d0 & d2 & mode & d3 & name & uuid & image & Hinv).
  destruct Hinv as (Hsize & _ & _ & _ & -> & Hchunk & Hpos).
  apply psdread_true_device in Hsize. subst d0. simpl in Hpos.
  assert (Hq : 0 <= quint32 (alignOffsetCeil declared 4))
    by (unfold quint32; apply Z.mod_pos_bound; lia).
  pose proof (IH _ _ _ _ _ Hrest)
    as (chunks & Hlen & Hall & Hpos' & Hge & Hlast & Hrun).
  exists (chunk :: chunks).
  assert (Hrecords : decodesRecords ext (chunk :: chunks) d
                       ([patternNode name uuid
                           (serializePattern ext image name (uuid ++ ".pat")%string)]
                        ++ l2) d').
  { cbn [decodesRecords]. do 3 eexists. split; [exact Hp|].
    split; [reflexivity | exact Hrun]. }
  split; [|split; [|split; [|split; [|split; [|exact Hrecords]]]]]; simpl.
  - rewrite Hlen. reflexivity.
  - constructor; [lia | exact Hall].
  - lia.
  - lia.
  - intros _. split; [discriminate|].
    destruct chunks as [|c rest]; [simpl; lia|].
    assert (Hnext : bytesRead + chunk < patternsSize).
    { destruct (Z.lt_ge_cases (bytesRead + chunk) patternsSize) as [Hl | Hg]; [exact Hl|].
      exfalso. destruct fuel as [|fuel']; simpl in Hrest;
        (assert (Hb : (bytesRead + chunk <? patternsSize) = false)
           by (apply Z.ltb_ge; exact Hg));
        rewrite Hb in Hrest; inversion Hrest; subst; discriminate Hlen. }
    destruct (Hlast Hnext) as [_ Hbound].
    change (removelast (chunk :: c :: rest)) with (chunk :: removelast (c :: rest)).
    simpl sumZ. unfold sumZ in Hbound. unfold sumZ. simpl fold_right in *. lia.
Qed.

(** X6: when the loop over the pattern records ends normally, it has
    decoded a run of records one after the other, each starting where
    the one before left the cursor; [chunks] are the byte counts that
    [readPattern] returned for them and [pats] the nodes it appended,
    one "KisPattern" node per record.  Every count is at least four,
    the cursor has advanced by their sum, and the loop has stopped at
    the first record boundary at or past the declared size of the
    section: the counts add up to at least that size, and without the
    last record they stay below it. *)
Theorem readPatterns_stops_at_declared_size ext fuel patternsSize d d' pats :
  0 < patternsSize ->
  readPatterns ext fuel 0 patternsSize d = (Ok tt, d', pats) ->
  Forall isPatternNode pats
  /\ exists chunks,
       decodesRecords ext chunks d pats d'
       /\ List.length chunks = List.length pats
       /\ Forall (fun chunk => 4 <= chunk) chunks
       /\ pos d' = pos d + sumZ chunks
       /\ sumZ (removelast chunks) < patternsSize <= sumZ chunks.
Proof.
  intros Hpos H.
  split; [apply (readPatterns_nodes _ _ _ _ _ _ _ _ H)|].
  apply readPatterns_Ok_inv in H.
  destruct H as (chunks & Hlen & Hall & Hcur & Hge & Hlast & Hrun).
  destruct (Hlast Hpos) as [_ Hbound].
  exists chunks. repeat split; try assumption; lia.
Qed.

(** Two records of 92 bytes in a section declared with 100: both are
    read. *)
Lemma readPatterns_stops_at_declared_size_witness :
  exists d' pats,
    readPatterns stdCollaborators 2 0 100
      (mkDevice (grayPattern 88 ++ grayPattern 88) 0) = (Ok tt, d', pats)
    /\ Forall isPatternNode pats
    /\ exists chunks,
         decodesRecords stdCollaborators chunks
           (mkDevice (grayPattern 88 ++ grayPattern 88) 0) pats d'
         /\ List.length chunks = List.length pats
         /\ Forall (fun chunk => 4 <= chunk) chunks
         /\ pos d' = pos (mkDevice (grayPattern 88 ++ grayPattern 88) 0) + sumZ chunks
         /\ sumZ (removelast chunks) < 100 <= sumZ chunks.
Proof.
  assert (E : exists d' p1 p2,
             readPatterns stdCollaborators 2 0 100
               (mkDevice (grayPattern 88 ++ grayPattern 88) 0) = (Ok tt, d', [p1; p2]))
    by (do 3 eexists; vm_compute; reflexivity).
  destruct E as (d' & p1 & p2 & E).
  exists d', [p1; p2]. split; [exact E|].
  exact (readPatterns_stops_at_declared_size stdCollaborators 2 100 _ _ _
           ltac:(lia) E).
Defined.

(** ** The patterns block and the document *)

Lemma readPatternsSection_inv ext fuel d r d' l :
  readPatternsSection ext fuel d = (r, d', l) ->
  (exists e, r = Throw e /\ l = []
             /\ exists v, psdread 4 d GARBAGE_VALUE_MARK = (false, v, d'))
  \/ exists patternsSize d1,
       psdread 4 d GARBAGE_VALUE_MARK = (true, patternsSize, d1)
       /\ if 0 <? patternsSize then
            exists pats,
              l = [QDomElement "node" [("type", "List"); ("key", "Patterns")] pats]
              /\ Forall isPatternNode pats
              /\ (r = Ok tt -> pos d' = pos d1 + patternsSize)
              /\ (r = Ok tt \/ r = Crash \/ r = OutOfFuel)
          else r = Ok tt /\ d' = d1 /\ l = [].
Proof.
  unfold readPatternsSection, bind, SAFE_READ_EX.
  destruct (psdread 4 d GARBAGE_VALUE_MARK) as [[ok v] d1] eqn:Hsize.
  destruct ok.
  - intros H. right. exists v, d1. split; [reflexivity|].
    destruct (0 <? v) eqn:Hv.
    + unfold SETUP_OFFSET_VERIFIER, appendElementThen, tryCatchWarning in H.
      destruct (readPatterns ext fuel 0 v d1) as [[r3 d3] l3] eqn:Hloop.
      apply readPatterns_nodes in Hloop. destruct Hloop as [Hall Hfatal].
      destruct r3 as [u | e | msg | | ];
        try (exfalso; apply (Hfatal msg); reflexivity);
        inversion H; subst; simpl; eexists;
        (split; [reflexivity|]); (split; [exact Hall|]).
      * split; [|left; destruct u; reflexivity].
        intros _. destruct (pos d3 =? pos d1 + v) eqn:E;
          [apply Z.eqb_eq in E; exact E | reflexivity].
      * split; [|left; reflexivity].
        intros _. destruct (pos d3 =? pos d1 + v) eqn:E;
          [apply Z.eqb_eq in E; exact E | reflexivity].
      * split; [discriminate | right; left; reflexivity].
      * split; [discriminate | right; right; reflexivity].
    + unfold ret in H. inversion H; subst. auto.
  - intros H. inversion H; subst. left. eexists. split; [reflexivity|].
    split; [reflexivity|]. eauto.
Qed.

(** X7: what the patterns block leaves behind.  Once the size of the
    section has been read, no parse error leaves the block and it does
    not call [qFatal], whatever the bytes of the section are; on a
    stream with fewer than [4 * fuel] bytes left it does not run out
    of fuel.  For a size of zero it ends normally, appends nothing and
    reads nothing more; otherwise it has appended the one "Patterns"
    list, whose children are all "KisPattern" nodes, and when it ends
    normally the cursor is at the declared end of the section. *)
Theorem readPatternsSection_outcome ext fuel d patternsSize d1 r d' l :
  psdread 4 d GARBAGE_VALUE_MARK = (true, patternsSize, d1) ->
  readPatternsSection ext fuel d = (r, d', l) ->
  (forall e, r <> Throw e) /\ (forall msg, r <> Fatal msg)
  /\ (unicodeReaderForward ext -> 0 <= pos d -> (bytesLeft d < 4 * fuel)%nat ->
      r <> OutOfFuel)
  /\ if 0 <? patternsSize then
       (r = Ok tt -> pos d' = pos d1 + patternsSize)
       /\ exists pats,
            l = [QDomElement "node" [("type", "List"); ("key", "Patterns")] pats]
            /\ Forall isPatternNode pats
     else r = Ok tt /\ d' = d1 /\ l = [].
Proof.
  intros Hsize E.
  assert (Hfuel : unicodeReaderForward ext -> 0 <= pos d ->
                  (bytesLeft d < 4 * fuel)%nat -> r <> OutOfFuel).
  { intros Hfw Hpos Hleft.
    exact (readPatternsSection_fueled ext Hfw fuel (bytesLeft d) Hleft
             _ _ _ _ Hpos (Nat.le_refl _) E). }
  apply readPatternsSection_inv in E.
  destruct E as [(e & _ & _ & v & Hshort) | (n & d1' & Hsize' & E)].
  - rewrite Hsize in Hshort. discriminate Hshort.
  - rewrite Hsize in Hsize'. inversion Hsize'; subst n d1'; clear Hsize'.
    destruct (0 <? patternsSize).
    + destruct E as (pats & Hl & Hall & Hend & Hr).
      split; [intros e; destruct Hr as [-> | [-> | ->]]; discriminate|].
      split; [intros msg; destruct Hr as [-> | [-> | ->]]; discriminate|].
      split; [exact Hfuel|]. split; [exact Hend|]. eauto.
    + destruct E as (-> & -> & ->).
      split; [discriminate|]. split; [discriminate|].
      split; [exact Hfuel|]. auto.
Qed.

(** A section declared with 104 bytes that holds a good record and a
    record of version 2. *)
Lemma readPatternsSection_outcome_witness :
  exists d' pats,
    readPatternsSection stdCollaborators 50 (mkDevice containerTwoPatterns 8)
    = (Ok tt, d',
       [QDomElement "node" [("type", "List"); ("key", "Patterns")] pats])
    /\ pos d' = 116 /\ Forall isPatternNode pats.
Proof.
  assert (E : exists d' pats,
             readPatternsSection stdCollaborators 50 (mkDevice containerTwoPatterns 8)
             = (Ok tt, d',
                [QDomElement "node" [("type", "List"); ("key", "Patterns")] pats]))
    by (do 2 eexists; vm_compute; reflexivity).
  destruct E as (d' & pats & E).
  destruct (readPatternsSection_outcome stdCollaborators 50
              (mkDevice containerTwoPatterns 8) 104
              (mkDevice containerTwoPatterns 12) _ _ _
              ltac:(vm_compute; reflexivity) E)
    as (_ & _ & _ & Hend & pats' & Hl & Hall).
  inversion Hl; subst pats'.
  exists d', pats. split; [exact E|]. split; [apply Hend; reflexivity | exact Hall].
Defined.

(** X8: the document of a container that decodes.  The children of
    the document element are the "Patterns" list, present exactly when
    the declared size of the patterns section (the four bytes at
    offset 8) is not zero and then holding only "KisPattern" nodes,
    followed by exactly two nodes of type Descriptor without a key. *)
Theorem readFileImpl_document_shape ext fuel d doc d' :
  readFileImpl ext fuel d = (Ok doc, d') ->
  exists patternsSize d12 first second,
    psdread 4 (mkDevice (buffer d) (pos d + 8)) GARBAGE_VALUE_MARK
      = (true, patternsSize, d12)
    /\ attribute "type" first = Some "Descriptor" /\ attribute "key" first = None
    /\ attribute "type" second = Some "Descriptor" /\ attribute "key" second = None
    /\ if 0 <? patternsSize then
         exists pats,
           Forall isPatternNode pats
           /\ doc = aslDocument
                      [QDomElement "node" [("type", "List"); ("key", "Patterns")] pats;
                       first; second]
       else doc = aslDocument [first; second].
Proof.
  intros H. unfold readFileImpl in H.
  destruct (readFileImpl_root ext fuel d) as [[r dr] kids] eqn:E.
  destruct r; inversion H; subst; clear H.
  unfold readFileImpl_root in E.
  apply bind_silent_Ok_inv in E; [|auto with silent].
  destruct E as (v1 & d1 & H1 & E).
  apply bind_silent_Ok_inv in E; [|auto with silent].
  destruct E as (v2 & d2 & H2 & E).
  apply bind_silent_Ok_inv in E; [|auto with silent].
  destruct E as (v3 & d3 & H3 & E).
  apply SAFE_READ_SIGNATURE_EX_Ok_inv, psdread_true_device in H1, H2, H3.
  assert (Hd3 : d3 = mkDevice (buffer d) (pos d + 8)).
  { rewrite H3, H2, H1. simpl. f_equal. lia. }
  rewrite Hd3 in E. clear H1 H2 H3 Hd3.
  apply bind_Ok_inv in E.
  destruct E as (u & d4 & l1 & l2 & Hsec & Hsty & ->).
  apply readPatternsSection_inv in Hsec.
  destruct Hsec as [(e & He & _) | (patternsSize & d12 & Hsize & Hsec)];
    [discriminate He|].
  unfold readStyles in Hsty.
  apply bind_silent_Ok_inv in Hsty; [|auto with silent].
  destruct Hsty as (numStyles & d5 & _ & Hsty).
  apply bind_silent_Ok_inv in Hsty; [|auto with silent].
  destruct Hsty as (bytesToRead & d6 & _ & Hsty).
  apply bind_silent_Ok_inv in Hsty; [|auto with silent].
  destruct Hsty as (v4 & d7 & _ & Hsty).
  apply bind_Ok_inv in Hsty.
  destruct Hsty as (u1 & d8 & k1 & k2 & Hdesc1 & Hsty & ->).
  apply bind_silent_Ok_inv in Hsty; [|auto with silent].
  destruct Hsty as (v5 & d9 & _ & Hdesc2).
  apply readDescriptor_Ok_inv in Hdesc1, Hdesc2.
  destruct Hdesc1 as (c1 & n1 & kids1 & ->).
  destruct Hdesc2 as (c2 & n2 & kids2 & ->).
  exists patternsSize, d12,
    (XMLNodeCommonNoValue "" "Descriptor" [("classId", c1); ("name", n1)] kids1),
    (XMLNodeCommonNoValue "" "Descriptor" [("classId", c2); ("name", n2)] kids2).
  split; [exact Hsize|].
  do 4 (split; [reflexivity|]).
  destruct (0 <? patternsSize).
  - destruct Hsec as (pats & -> & Hall & _). exists pats. split; [exact Hall | reflexivity].
  - destruct Hsec as (_ & _ & ->). reflexivity.
Qed.

Lemma readFileImpl_document_shape_witness :
  exists pat first second d',
    readFileImpl stdCollaborators 2 (mkDevice containerTwoPatterns 0)
    = (Ok (aslDocument
             [QDomElement "node" [("type", "List"); ("key", "Patterns")] [pat];
              first; second]), d')
    /\ attribute "type" first = Some "Descriptor".
Proof.
  assert (E : exists pat first second d',
             readFileImpl stdCollaborators 2 (mkDevice containerTwoPatterns 0)
             = (Ok (aslDocument
                      [QDomElement "node" [("type", "List"); ("key", "Patterns")] [pat];
                       first; second]), d'))
    by (do 4 eexists; vm_compute; reflexivity).
  destruct E as (pat & first & second & d' & E).
  exists pat, first, second, d'. split; [exact E|].
  destruct (readFileImpl_document_shape _ _ _ _ _ E)
    as (n & d12 & f & s & Hsize & Hf & _ & _ & _ & Hdoc).
  vm_compute in Hsize. inversion Hsize; subst n. simpl in Hdoc.
  destruct Hdoc as (pats & _ & Hdoc). inversion Hdoc; subst. exact Hf.
Defined.

(** ** The nodes of tagged values *)

Lemma shaped_silent inList {A} (m : M A) : silent m -> shaped inList m.
Proof.
  intros Hs d r d' l E. apply Hs in E. subst l. split; [simpl; lia | reflexivity].
Qed.

Lemma shaped_silent_bind inList {A B} (m : M A) (f : A -> M B) :
  silent m -> (forall a, shaped inList (f a)) -> shaped inList (bind m f).
Proof.
  intros Hm Hf d r d' l. unfold bind.
  destruct (m d) as [[r1 d1] l1] eqn:E. apply Hm in E. subst l1.
  destruct r1; try solve [intros H; inversion H; subst; split; [simpl; lia | reflexivity]].
  destruct (f a d1) as [[r2 d2] l2] eqn:E2. apply Hf in E2.
  intros H; inversion H; subst. exact E2.
Qed.

Lemma shaped_bind_ret inList {A B} (a : A) (f : A -> M B) :
  shaped inList (f a) -> shaped inList (bind (ret a) f).
Proof.
  intros Hf d r d' l. rewrite bind_ret_l. apply Hf.
Qed.

Lemma shaped_appendChild inList n :
  valueNode inList n = true -> shaped inList (appendChild n).
Proof.
  intros Hn d r d' l H. inversion H; subst. split; [simpl; lia|].
  simpl. rewrite Hn. reflexivity.
Qed.

Lemma shaped_appendElementThen inList {A} mk (body : M A) :
  (forall d r d' kids, body d = (r, d', kids) -> valueNode inList (mk kids) = true) ->
  shaped inList (appendElementThen mk body).
Proof.
  intros Hb d r d' l. unfold appendElementThen.
  destruct (body d) as [[r1 d1] kids] eqn:E. apply Hb in E.
  intros H; inversion H; subst. split; [simpl; lia|].
  simpl. rewrite E. reflexivity.
Qed.

(** What a loop appends, when each round appends at most one node. *)
Lemma forLoop_nodes inList n (body : M unit) :
  shaped inList body ->
  forall d r d' l,
    forLoop n body d = (r, d', l) ->
    (List.length l <= n)%nat /\ forallb (valueNode inList) l = true.
Proof.
  intros Hb. induction n as [|n IH]; intros d r d' l; simpl.
  - intros H; inversion H; subst. split; [simpl; lia | reflexivity].
  - unfold bind.
    destruct (body d) as [[r1 d1] l1] eqn:E. apply Hb in E. destruct E as [Hlen Hall].
    destruct r1; try solve [intros H; inversion H; subst; split; [lia | exact Hall]].
    destruct (forLoop n body d1) as [[r2 d2] l2] eqn:E2. apply IH in E2.
    destruct E2 as [Hlen2 Hall2].
    intros H; inversion H; subst. rewrite length_app, forallb_app, Hall, Hall2.
    split; [lia | reflexivity].
Qed.

Lemma valueNode_leaf inList key value type extra :
  (inList = true -> key = "") ->
  (extra = [] /\ In type ["Integer"; "Double"; "Text"; "Boolean"])
  \/ (type = "UnitFloat" /\ exists u, extra = [("unit", u)])
  \/ (type = "Enum" /\ exists t, extra = [("typeId", t)]) ->
  valueNode inList (XMLNodeCommon key value type extra) = true.
Proof.
  intros Hkey Hcase. unfold XMLNodeCommon, keyAttribute.
  destruct Hcase as [(-> & Hin) | [(-> & (u & ->)) | (-> & (u & ->))]].
  - simpl in Hin.
    repeat (destruct Hin as [Hin | Hin];
            [subst type;
             (destruct inList;
              [rewrite (Hkey eq_refl) | destruct (String.eqb key "")]);
             reflexivity|]).
    contradiction.
  - destruct inList;
      [rewrite (Hkey eq_refl) | destruct (String.eqb key "")]; reflexivity.
  - destruct inList;
      [rewrite (Hkey eq_refl) | destruct (String.eqb key "")]; reflexivity.
Qed.

Lemma valueNode_container inList key type extra kids :
  (inList = true -> key = "") ->
  (type = "Descriptor" /\ (exists c n, extra = [("classId", c); ("name", n)])
                       /\ forallb (valueNode false) kids = true)
  \/ (type = "List" /\ extra = [] /\ forallb (valueNode true) kids = true) ->
  valueNode inList (XMLNodeCommonNoValue key type extra kids) = true.
Proof.
  intros Hkey Hcase. unfold XMLNodeCommonNoValue, keyAttribute.
  destruct Hcase as [(-> & (c & n & ->) & Hkids) | (-> & -> & Hkids)];
    (destruct inList;
     [ rewrite (Hkey eq_refl); simpl; exact Hkids
     | destruct (String.eqb key ""); simpl; exact Hkids ]).
Qed.

Lemma silent_readFixedString : silent readFixedString.
Proof. apply silent_readStringCommon. Qed.

Lemma silent_qFatal {A} msg : silent (@qFatal A msg).
Proof. intros d r d' l H. inversion H; reflexivity. Qed.

#[local] Hint Resolve silent_readFixedString silent_qFatal : silent.

Lemma readChildObject_shaped ext fuel : forall skipKey,
  shaped skipKey (readChildObject ext fuel skipKey).
Proof.
  induction fuel as [|fuel IH]; intros skipKey.
  - apply shaped_silent. intros d r d' l H. inversion H; reflexivity.
  - assert (Hbody : forall key, (skipKey = true -> key = "") ->
              shaped skipKey
                (OSType <- readFixedString ;;
                 if String.eqb OSType "obj " then qFatal "no implemented"
                 else if String.eqb OSType "Objc" || String.eqb OSType "GlbO" then
                   readDescriptor_body ext (readChildObject ext fuel) key
                 else if String.eqb OSType "VlLs" then
                   numItems <- SAFE_READ_EX 4 "numItems" GARBAGE_VALUE_MARK ;;
                   appendElementThen (XMLNodeCommonNoValue key "List" [])
                     (forLoop (Z.to_nat numItems) (readChildObject ext fuel true))
                 else if String.eqb OSType "doub" then
                   value <- readDoubleAsString ext ;;
                   appendDoubleXMLNode key value
                 else if String.eqb OSType "UntF" then
                   unit <- readFixedString ;;
                   value <- readDoubleAsString ext ;;
                   appendXMLNodeCommon key value "UnitFloat" [("unit", unit)]
                 else if String.eqb OSType "TEXT" then
                   unicodeString <- readUnicodeString ext ;;
                   appendTextXMLNode key unicodeString
                 else if String.eqb OSType "enum" then
                   typeId <- readVarString ;;
                   value <- readVarString ;;
                   appendXMLNodeCommon key value "Enum" [("typeId", typeId)]
                 else if String.eqb OSType "long" then
                   value <- readIntAsString ;;
                   appendIntegerXMLNode key value
                 else if String.eqb OSType "bool" then
                   value <- readBoolAsString ;;
                   appendXMLNodeCommon key value "Boolean" []
                 else if String.eqb OSType "type" then qFatal "no implemented"
                 else if String.eqb OSType "GlbC" then qFatal "no implemented"
                 else if String.eqb OSType "alis" then qFatal "no implemented"
                 else if String.eqb OSType "tdta" then qFatal "no implemented"
                 else ret tt)).
    { intros key Hkey.
      assert (Hleaf : forall value type extra,
                 (extra = [] /\ In type ["Integer"; "Double"; "Text"; "Boolean"])
                 \/ (type = "UnitFloat" /\ exists u, extra = [("unit", u)])
                 \/ (type = "Enum" /\ exists t, extra = [("typeId", t)]) ->
                 shaped skipKey (appendXMLNodeCommon key value type extra)).
      { intros value type extra Hin. apply shaped_appendChild.
        apply valueNode_leaf; assumption. }
      apply shaped_silent_bind; [auto with silent|]. intros OSType.
      unfold readDescriptor_body, readDoubleAsString, readIntAsString,
        readBoolAsString, appendDoubleXMLNode, appendIntegerXMLNode, appendTextXMLNode.
      repeat match goal with
             | |- shaped _ (if ?c then _ else _) => destruct c
             end;
        repeat (apply shaped_silent_bind; [solve [silence] | intros ?]);
        try solve [apply shaped_silent; auto with silent];
        try solve [apply Hleaf; simpl; eauto 8].
      - (* the descriptor *)
        apply shaped_appendElementThen. intros d r d' kids Hloop.
        apply valueNode_container; [exact Hkey|]. left.
        split; [reflexivity|]. split; [eauto|].
        apply (forLoop_nodes false _ _ (IH false) _ _ _ _ Hloop).
      - (* the list *)
        apply shaped_appendElementThen. intros d r d' kids Hloop.
        apply valueNode_container; [exact Hkey|]. right.
        split; [reflexivity|]. split; [reflexivity|].
        apply (forLoop_nodes true _ _ (IH true) _ _ _ _ Hloop). }
    cbn [readChildObject]. destruct skipKey.
    + apply shaped_bind_ret. apply Hbody. reflexivity.
    + apply shaped_silent_bind; [auto with silent|]. intros key.
      apply Hbody. discriminate.
Qed.

(** X9: whatever bytes follow, and whether it returns, throws or
    stops, [readChildObject] appends at most one node to its parent,
    and that node is a well-formed value: its type is one of
    Descriptor, List, Integer, Double, Text, Boolean, UnitFloat and
    Enum, with the attributes of that type; a member of a List bears no
    key, and so for every node below it. *)
Theorem readChildObject_tree_shape ext fuel skipKey d :
  let nodes := snd (readChildObject ext fuel skipKey d) in
  (List.length nodes <= 1)%nat /\ forallb (valueNode skipKey) nodes = true.
Proof.
  destruct (readChildObject ext fuel skipKey d) as [[r d'] l] eqn:E.
  exact (readChildObject_shaped ext fuel skipKey d r d' l E).
Qed.

(** X10: once the name, the class id and the number of children of a
    descriptor are read, [readDescriptor] appends the Descriptor
    element, even when a child fails later; the element bears the class
    id and the name, it has no more children than the header declares,
    and every child is a well-formed value. *)
Theorem readDescriptor_children_bound ext fuel key d name d1 classId d2 numChildren d3 :
  readUnicodeString ext d = (Ok name, d1, []) ->
  readVarString d1 = (Ok classId, d2, []) ->
  psdread 4 d2 GARBAGE_VALUE_MARK = (true, numChildren, d3) ->
  exists r d' kids,
    readDescriptor ext fuel key d
    = (r, d', [XMLNodeCommonNoValue key "Descriptor"
                 [("classId", classId); ("name", name)] kids])
    /\ (List.length kids <= Z.to_nat numChildren)%nat
    /\ forallb (valueNode false) kids = true.
Proof.
  intros Hname Hclass Hnum.
  destruct (forLoop (Z.to_nat numChildren) (readChildObject ext fuel false) d3)
    as [[r d'] kids] eqn:Hloop.
  exists r, d', kids. split.
  - unfold readDescriptor, readDescriptor_body.
    eapply bind_Ok_then; [exact Hname | | reflexivity].
    eapply bind_Ok_then; [exact Hclass | | reflexivity].
    eapply bind_Ok_then;
      [apply SAFE_READ_EX_psdread; exact Hnum | | reflexivity].
    unfold appendElementThen. rewrite Hloop. reflexivity.
  - exact (forLoop_nodes false _ _ (readChildObject_shaped ext fuel false)
             _ _ _ _ Hloop).
Qed.

Lemma readDescriptor_children_bound_witness :
  exists r d' kids,
    readDescriptor stdCollaborators 3 "" (mkDevice mixedDescriptor 0)
    = (r, d', [XMLNodeCommonNoValue "" "Descriptor"
                 [("classId", "null"); ("name", "")] kids])
    /\ (List.length kids <= 3)%nat
    /\ forallb (valueNode false) kids = true.
Proof.
  apply (readDescriptor_children_bound stdCollaborators 3 ""
           (mkDevice mixedDescriptor 0) "" (mkDevice mixedDescriptor 4)
           "null" (mkDevice mixedDescriptor 12) 3 (mkDevice mixedDescriptor 16));
    vm_compute; reflexivity.
Defined.

(** ** Planes and images *)

Lemma QRect_eqb_eq a b : QRect_eqb a b = true -> a = b.
Proof.
  unfold QRect_eqb. destruct a, b; simpl. intros H.
  repeat (apply andb_prop in H; destruct H as [H ?]).
  repeat match goal with E : (_ =? _) = true |- _ => apply Z.eqb_eq in E end.
  congruence.
Qed.

Lemma readNonZero_Ok_inv msg d v d1 l :
  readNonZero msg d = (Ok v, d1, l) ->
  psdread 4 d GARBAGE_VALUE_MARK = (true, v, d1) /\ v <> 0 /\ l = [].
Proof.
  unfold readNonZero.
  destruct (psdread 4 d GARBAGE_VALUE_MARK) as [[ok v'] d'].
  destruct ok; simpl; [|discriminate].
  destruct (v' =? 0) eqn:E; [discriminate|].
  apply Z.eqb_neq in E. intros H; inversion H; subst. auto.
Qed.

(** What a plane that decodes leaves behind: only slot [i] changes,
    the new plane has one byte per pixel of the array rectangle, and
    the cursor is at the declared end of the plane. *)
Lemma readPlane_Ok_size ext arrayRect i dataPlanes d dataPlanes' d' l :
  readPlane ext arrayRect i dataPlanes d = (Ok dataPlanes', d', l) ->
  exists plane arrayPlaneLength,
    dataPlanes' = setPlane i plane dataPlanes
    /\ size plane = to_int (QRect_width arrayRect * QRect_height arrayRect)
    /\ arrayPlaneLength <> 0
    /\ pos d' = pos d + 8 + arrayPlaneLength
    /\ l = []
    /\ psdread 4 (mkDevice (buffer d) (pos d + 4)) GARBAGE_VALUE_MARK
       = (true, arrayPlaneLength, mkDevice (buffer d) (pos d + 8)).
Proof.
  intros H.
  pose proof (silent_readPlane ext arrayRect i dataPlanes _ _ _ _ H) as Hl.
  unfold readPlane in H.
  apply bind_Ok_inv in H. destruct H as (w & d1 & l1 & l2 & Hw & H & _).
  apply bind_Ok_inv in H. destruct H as (len & d2 & l3 & l4 & Hlen & H & _).
  apply readNonZero_Ok_inv in Hw. destruct Hw as (Hw & _ & _).
  apply readNonZero_Ok_inv in Hlen. destruct Hlen as (Hlen & Hnz & _).
  pose proof Hlen as Hfield.
  apply psdread_true_device in Hw. apply psdread_true_device in Hlen.
  rewrite Hlen, Hw in Hfield. cbn [buffer pos] in Hfield.
  replace (pos d + Z.of_nat 4 + Z.of_nat 4) with (pos d + 8) in Hfield by lia.
  replace (pos d + Z.of_nat 4) with (pos d + 4) in Hfield by lia.
  apply SETUP_OFFSET_VERIFIER_Ok_device in H. destruct H as (d3 & H & Hpos & _).
  inv_bind H. inv_bind H. inv_bind H. inv_bind H. inv_bind H. inv_bind H.
  inv_if H. inv_bind H. inv_bind H. inv_if H. inv_if H.
  inv_bind H. inv_if H. inv_bind H.
  inversion H; subst.
  match goal with
  | E : negb (QRect_eqb _ arrayRect) = false |- _ =>
      apply negb_false_iff, QRect_eqb_eq in E; rewrite E in *
  end.
  match goal with
  | E : negb (size ?p =? _) = false |- _ =>
      apply negb_false_iff, Z.eqb_eq in E; exists p, len
  end.
  repeat split; try assumption.
  rewrite Hpos. simpl. lia.
Qed.

Lemma setPlane_length i plane : forall dataPlanes,
  List.length (setPlane i plane dataPlanes) = List.length dataPlanes.
Proof.
  induction i as [|i IH]; intros [|p rest]; simpl; try reflexivity.
  rewrite IH. reflexivity.
Qed.

Lemma setPlane_other i plane : forall dataPlanes j,
  j <> i -> nth j (setPlane i plane dataPlanes) [] = nth j dataPlanes [].
Proof.
  induction i as [|i IH]; intros [|p rest] j Hj; simpl; try reflexivity.
  - destruct j; [contradiction | reflexivity].
  - destruct j; [reflexivity|]. apply IH. intros ->. apply Hj. reflexivity.
Qed.

Lemma setPlane_same i plane : forall dataPlanes,
  (i < List.length dataPlanes)%nat -> nth i (setPlane i plane dataPlanes) [] = plane.
Proof.
  induction i as [|i IH]; intros [|p rest] Hi; simpl in *; try lia.
  - reflexivity.
  - apply IH. lia.
Qed.

(** X11: a plane that decodes changes plane [i] of the array and no
    other: the planes are as many as before, plane [i] now holds one
    byte for each pixel of the array rectangle, and the cursor is at
    the declared end of the plane, its non-zero length field past the
    two 4-byte fields that open it, wherever the data ended; no node
    is appended. *)
Theorem readPlane_replaces_one_plane ext arrayRect i dataPlanes d dataPlanes' d' l :
  (i < List.length dataPlanes)%nat ->
  readPlane ext arrayRect i dataPlanes d = (Ok dataPlanes', d', l) ->
  exists arrayPlaneLength,
    psdread 4 (mkDevice (buffer d) (pos d + 4)) GARBAGE_VALUE_MARK
      = (true, arrayPlaneLength, mkDevice (buffer d) (pos d + 8))
    /\ arrayPlaneLength <> 0
    /\ pos d' = pos d + 8 + arrayPlaneLength
    /\ List.length dataPlanes' = List.length dataPlanes
    /\ (forall j, j <> i -> nth j dataPlanes' [] = nth j dataPlanes [])
    /\ size (nth i dataPlanes' [])
       = to_int (QRect_width arrayRect * QRect_height arrayRect)
    /\ l = [].
Proof.
  intros Hi H. apply readPlane_Ok_size in H.
  destruct H as (plane & len & -> & Hsize & Hnz & Hpos & -> & Hfield).
  exists len. repeat split; try assumption.
  - apply setPlane_length.
  - intros j Hj. apply setPlane_other. exact Hj.
  - rewrite setPlane_same by exact Hi. exact Hsize.
Qed.

Lemma readPlane_replaces_one_plane_witness :
  exists arrayPlaneLength,
    psdread 4 (mkDevice (buffer (mkDevice rgbVirtualArrayList 61))
                        (pos (mkDevice rgbVirtualArrayList 61) + 4)) GARBAGE_VALUE_MARK
      = (true, arrayPlaneLength,
         mkDevice (buffer (mkDevice rgbVirtualArrayList 61))
                  (pos (mkDevice rgbVirtualArrayList 61) + 8))
    /\ arrayPlaneLength <> 0
    /\ pos (mkDevice rgbVirtualArrayList 94)
       = pos (mkDevice rgbVirtualArrayList 61) + 8 + arrayPlaneLength
    /\ List.length [[1; 2]; [3; 4]; []] = List.length [[1; 2]; []; @nil Z]
    /\ (forall j, j <> 1%nat ->
          nth j [[1; 2]; [3; 4]; []] [] = nth j [[1; 2]; []; @nil Z] [])
    /\ size (nth 1 [[1; 2]; [3; 4]; []] [])
       = to_int (QRect_width (QRect_xywh 0 0 2 1) * QRect_height (QRect_xywh 0 0 2 1))
    /\ @nil QDomNode = [].
Proof.
  apply (readPlane_replaces_one_plane stdCollaborators (QRect_xywh 0 0 2 1) 1
           [[1; 2]; []; []] (mkDevice rgbVirtualArrayList 61)
           [[1; 2]; [3; 4]; []] (mkDevice rgbVirtualArrayList 94) []).
  - simpl. lia.
  - vm_compute. reflexivity.
Defined.

Lemma readRows_Ok_inv ext width rowSizes : forall plane d plane' d' l,
  readRows ext width rowSizes plane d = (Ok plane', d', l) ->
  exists rows,
    plane' = plane ++ List.concat rows
    /\ List.length rows = List.length rowSizes
    /\ Forall (fun row => size row = width) rows
    /\ pos d' = pos d + sumZ rowSizes
    /\ buffer d' = buffer d
    /\ l = [].
Proof.
  induction rowSizes as [|rowSize rest IH]; intros plane d plane' d' l; simpl.
  - intros H; inversion H; subst. exists []. simpl.
    rewrite app_nil_r. repeat split; try constructor. lia.
  - unfold bind at 1. unfold device_read, QIODevice_read.
    set (data := firstn (Z.to_nat rowSize) (remainingBytes d)).
    destruct (negb (size data =? rowSize)) eqn:Hsize; [discriminate|].
    apply negb_false_iff, Z.eqb_eq in Hsize.
    destruct (negb (size (Compression_uncompress ext width data (Compression_RLE ext))
                    =? width)) eqn:Hrow; [discriminate|].
    apply negb_false_iff, Z.eqb_eq in Hrow.
    destruct (readRows ext width rest _ _) as [[r2 d2] l2] eqn:E.
    intros H. simpl in H. injection H as Hr Hd Hl. subst r2 d2 l2.
    apply IH in E.
    destruct E as (rows & -> & Hlen & Hall & Hpos & Hbuf & ->).
    exists (Compression_uncompress ext width data (Compression_RLE ext) :: rows).
    simpl. rewrite <- app_assoc.
    repeat split; try (constructor; assumption); try assumption; try congruence.
    rewrite Hpos. simpl. unfold size in Hsize. lia.
Qed.

(** X12: the loop over the rows of a run-length plane, when it
    succeeds, has appended to the plane one expanded row of exactly
    [width] bytes for each declared row size, in order, and has moved
    the cursor by the sum of the declared row sizes; it appends no
    node. *)
Theorem readRows_appends_rows ext width rowSizes plane d plane' d' l :
  readRows ext width rowSizes plane d = (Ok plane', d', l) ->
  exists rows,
    plane' = plane ++ List.concat rows
    /\ List.length rows = List.length rowSizes
    /\ Forall (fun row => size row = width) rows
    /\ size plane' = size plane + width * Z.of_nat (List.length rowSizes)
    /\ pos d' = pos d + sumZ rowSizes
    /\ buffer d' = buffer d
    /\ l = [].
Proof.
  intros H. apply readRows_Ok_inv in H.
  destruct H as (rows & -> & Hlen & Hall & Hpos & Hbuf & ->).
  exists rows. repeat split; try assumption.
  rewrite <- Hlen. unfold size. rewrite length_app, Nat2Z.inj_add. f_equal.
  clear Hlen Hpos Hbuf. induction Hall as [|row rows Hrow _ IH]; simpl.
  - lia.
  - rewrite length_app, Nat2Z.inj_add, IH. unfold size in Hrow. lia.
Qed.

Lemma readRows_appends_rows_witness :
  exists rows,
    [1; 2] ++ [7; 7; 7; 7; 9; 9; 9; 9] = [1; 2] ++ List.concat rows
    /\ List.length rows = List.length [2; 2]
    /\ Forall (fun row => size row = 4) rows
    /\ size ([1; 2] ++ [7; 7; 7; 7; 9; 9; 9; 9])
       = size [1; 2] + 4 * Z.of_nat (List.length [2; 2])
    /\ pos (mkDevice [0; 253; 7; 253; 9] 5) = pos (mkDevice [0; 253; 7; 253; 9] 1) + sumZ [2; 2]
    /\ buffer (mkDevice [0; 253; 7; 253; 9] 5) = buffer (mkDevice [0; 253; 7; 253; 9] 1)
    /\ @nil QDomNode = [].
Proof.
  apply (readRows_appends_rows stdCollaborators 4 [2; 2] [1; 2]
           (mkDevice [0; 253; 7; 253; 9] 1)).
  vm_compute. reflexivity.
Defined.

Lemma readPlanes_three ext arrayRect d dataPlanes d' l :
  readPlanes ext 3 arrayRect 0 [[]; []; []] d = (Ok dataPlanes, d', l) ->
  exists p0 p1 p2 e1 e2,
    dataPlanes = [p0; p1; p2]
    /\ readPlane ext arrayRect 0 [[]; []; []] d = (Ok [p0; []; []], e1, [])
    /\ readPlane ext arrayRect 1 [p0; []; []] e1 = (Ok [p0; p1; []], e2, [])
    /\ readPlane ext arrayRect 2 [p0; p1; []] e2 = (Ok [p0; p1; p2], d', [])
    /\ Forall (fun p => size p = to_int (QRect_width arrayRect * QRect_height arrayRect))
              [p0; p1; p2].
Proof.
  cbn [readPlanes]. intros H.
  apply bind_Ok_inv in H. destruct H as (dp0 & d1 & l0 & ? & H0 & H & _).
  apply bind_Ok_inv in H. destruct H as (dp1 & d2 & l1 & ? & H1 & H & _).
  apply bind_Ok_inv in H. destruct H as (dp2 & d3 & l2 & ? & H2 & H & _).
  inversion H; subst.
  pose proof (silent_readPlane _ _ _ _ _ _ _ _ H0) as ->.
  pose proof (silent_readPlane _ _ _ _ _ _ _ _ H1) as ->.
  pose proof (silent_readPlane _ _ _ _ _ _ _ _ H2) as ->.
  pose proof (readPlane_Ok_size _ _ _ _ _ _ _ _ H0) as (p0 & ? & -> & Hs0 & _).
  pose proof (readPlane_Ok_size _ _ _ _ _ _ _ _ H1) as (p1 & ? & -> & Hs1 & _).
  pose proof (readPlane_Ok_size _ _ _ _ _ _ _ _ H2) as (p2 & ? & -> & Hs2 & _).
  exists p0, p1, p2, d1, d2. split; [reflexivity|].
  do 3 (split; [assumption|]).
  repeat constructor; assumption.
Qed.

Lemma readPlanes_one ext arrayRect d dataPlanes d' l :
  readPlanes ext 1 arrayRect 0 [[]; []; []] d = (Ok dataPlanes, d', l) ->
  exists p0,
    dataPlanes = [p0; []; []]
    /\ readPlane ext arrayRect 0 [[]; []; []] d = (Ok [p0; []; []], d', [])
    /\ size p0 = to_int (QRect_width arrayRect * QRect_height arrayRect).
Proof.
  cbn [readPlanes]. intros H.
  apply bind_Ok_inv in H. destruct H as (dp0 & d1 & l0 & ? & H0 & H & _).
  inversion H; subst.
  pose proof (silent_readPlane _ _ _ _ _ _ _ _ H0) as ->.
  pose proof (readPlane_Ok_size _ _ _ _ _ _ _ _ H0) as (p0 & ? & -> & Hs0 & _).
  exists p0. split; [reflexivity|]. split; assumption.
Qed.

Lemma QImage_isNull_false width height :
  QImage_isNull width height = false ->
  0 < width /\ 0 < height /\ 4 * (width * height) <= INT_MAX.
Proof.
  unfold QImage_isNull. intros H.
  repeat (apply orb_false_iff in H; destruct H as [H ?]).
  repeat match goal with
         | E : (_ <=? _) = false |- _ => apply Z.leb_gt in E
         | E : (_ <? _) = false |- _ => apply Z.ltb_ge in E
         end.
  split; [assumption|]. split; [assumption|].
  pose proof (Z.mul_div_le INT_MAX (4 * width) ltac:(lia)).
  nia.
Qed.

(** What the loops that fill the image return, when they return. *)
Lemma composeImage_Ok_inv numPlanes arrayRect dataPlanes d image d' l :
  composeImage numPlanes arrayRect dataPlanes d = (Ok image, d', l) ->
  let width := QRect_width arrayRect in
  let height := QRect_height arrayRect in
  let dataLength := to_int (width * height) in
  d' = d /\ l = []
  /\ bits image
     = flat_map (composePixel numPlanes dataPlanes) (seq 0 (Z.to_nat dataLength))
  /\ if QImage_isNull width height
     then image = nullImage /\ dataLength <= 0
     else imageWidth image = width /\ imageHeight image = height
          /\ dataLength = width * height.
Proof.
  unfold composeImage. cbv zeta.
  destruct (QImage_isNull _ _) eqn:Hnull.
  - destruct (0 <? _) eqn:Hlen; [discriminate|].
    apply Z.ltb_ge in Hlen.
    intros H; inversion H; subst.
    replace (Z.to_nat _) with 0%nat by lia.
    repeat split; assumption.
  - intros H; inversion H; subst. cbn [bits imageWidth imageHeight].
    repeat split.
    apply QImage_isNull_false in Hnull. destruct Hnull as (Hw & Hh & Hfit).
    apply to_int_small. unfold INT_MAX in Hfit. nia.
Qed.

Lemma fieldAt_psdread d offset v d1 :
  psdread 4 (mkDevice (buffer d) (pos d + offset)) 0 = (true, v, d1) ->
  fieldAt d offset = v.
Proof. intros H. unfold fieldAt. rewrite H. reflexivity. Qed.

Lemma psdread_true_at width b p init v d1 :
  psdread width (mkDevice b p) init = (true, v, d1) ->
  d1 = mkDevice b (p + Z.of_nat width).
Proof. intros H. apply psdread_true_device in H. exact H. Qed.

(** What an array that decodes has gone through, with every device
    named by its offset from the start of the array. *)
Lemma readVirtualArrayList_Ok_inv ext numPlanes d image d' l :
  readVirtualArrayList ext numPlanes d = (Ok image, d', l) ->
  exists arrayLength dataPlanes d4,
    psdread 4 d GARBAGE_VALUE_MARK = (true, 3, mkDevice (buffer d) (pos d + 4))
    /\ psdread 4 (mkDevice (buffer d) (pos d + 4)) GARBAGE_VALUE_MARK
       = (true, arrayLength, mkDevice (buffer d) (pos d + 8))
    /\ (numPlanes = 1 \/ numPlanes = 3)
    /\ psdread 4 (mkDevice (buffer d) (pos d + 8)) 0
       = (true, fieldAt d 8, mkDevice (buffer d) (pos d + 12))
    /\ psdread 4 (mkDevice (buffer d) (pos d + 12)) 0
       = (true, fieldAt d 12, mkDevice (buffer d) (pos d + 16))
    /\ psdread 4 (mkDevice (buffer d) (pos d + 16)) 0
       = (true, fieldAt d 16, mkDevice (buffer d) (pos d + 20))
    /\ psdread 4 (mkDevice (buffer d) (pos d + 20)) 0
       = (true, fieldAt d 20, mkDevice (buffer d) (pos d + 24))
    /\ readPlanes ext (Z.to_nat numPlanes) (arrayRectAt d) 0 [[]; []; []]
         (mkDevice (buffer d) (pos d + 28))
       = (Ok dataPlanes, d4, [])
    /\ composeImage numPlanes (arrayRectAt d) dataPlanes d4 = (Ok image, d4, [])
    /\ pos d' = pos d + 8 + arrayLength
    /\ l = [].
Proof.
  intros H.
  pose proof (silent_readVirtualArrayList ext numPlanes _ _ _ _ H) as ->.
  unfold readVirtualArrayList in H.
  apply bind_silent_Ok_inv in H; [|auto with silent].
  destruct H as (v & d1 & Hv & H).
  destruct (negb (v =? 3)) eqn:Ev; [discriminate|].
  apply negb_false_iff, Z.eqb_eq in Ev. subst v.
  apply bind_silent_Ok_inv in H; [|auto with silent].
  destruct H as (arrayLength & d2 & Hlen & H).
  apply SAFE_READ_EX_Ok_inv in Hv. apply SAFE_READ_EX_Ok_inv in Hlen.
  pose proof (psdread_true_device _ _ _ _ _ Hv) as E. subst d1.
  replace (pos d + Z.of_nat 4) with (pos d + 4) in * by lia.
  pose proof (psdread_true_at _ _ _ _ _ _ Hlen) as E. subst d2.
  replace (pos d + 4 + Z.of_nat 4) with (pos d + 8) in * by lia.
  apply SETUP_OFFSET_VERIFIER_Ok_device in H. destruct H as (d5 & H & Hpos & _).
  cbn [pos] in Hpos.
  apply bind_silent_Ok_inv in H; [|auto with silent]. destruct H as (y0 & e0 & Hy0 & H).
  apply SAFE_READ_EX_Ok_inv in Hy0.
  pose proof (psdread_true_at _ _ _ _ _ _ Hy0) as E. subst e0.
  replace (pos d + 8 + Z.of_nat 4) with (pos d + 12) in * by lia.
  apply bind_silent_Ok_inv in H; [|auto with silent]. destruct H as (x0 & e1 & Hx0 & H).
  apply SAFE_READ_EX_Ok_inv in Hx0.
  pose proof (psdread_true_at _ _ _ _ _ _ Hx0) as E. subst e1.
  replace (pos d + 12 + Z.of_nat 4) with (pos d + 16) in * by lia.
  apply bind_silent_Ok_inv in H; [|auto with silent]. destruct H as (y1 & e2 & Hy1 & H).
  apply SAFE_READ_EX_Ok_inv in Hy1.
  pose proof (psdread_true_at _ _ _ _ _ _ Hy1) as E. subst e2.
  replace (pos d + 16 + Z.of_nat 4) with (pos d + 20) in * by lia.
  apply bind_silent_Ok_inv in H; [|auto with silent]. destruct H as (x1 & e3 & Hx1 & H).
  apply SAFE_READ_EX_Ok_inv in Hx1.
  pose proof (psdread_true_at _ _ _ _ _ _ Hx1) as E. subst e3.
  replace (pos d + 20 + Z.of_nat 4) with (pos d + 24) in * by lia.
  apply bind_silent_Ok_inv in H; [|auto with silent]. destruct H as (ch & d3 & Hch & H).
  apply SAFE_READ_EX_Ok_inv in Hch.
  pose proof (psdread_true_at _ _ _ _ _ _ Hch) as E. subst d3.
  replace (pos d + 24 + Z.of_nat 4) with (pos d + 28) in * by lia.
  destruct (negb (ch =? 24)); [discriminate|].
  destruct (negb (numPlanes =? 1) && negb (numPlanes =? 3)) eqn:En; [discriminate|].
  apply bind_silent_Ok_inv in H; [|apply silent_readPlanes].
  destruct H as (dataPlanes & d4 & Hplanes & H).
  pose proof (composeImage_Ok_inv _ _ _ _ _ _ _ H) as (E & _). subst d5.
  pose proof (fieldAt_psdread _ _ _ _ Hy0) as Fy0.
  pose proof (fieldAt_psdread _ _ _ _ Hx0) as Fx0.
  pose proof (fieldAt_psdread _ _ _ _ Hy1) as Fy1.
  pose proof (fieldAt_psdread _ _ _ _ Hx1) as Fx1.
  assert (Hrect : QRect_xywh x0 y0 (quint32 (x1 - x0)) (quint32 (y1 - y0))
                  = arrayRectAt d).
  { unfold arrayRectAt. rewrite Fy0, Fx0, Fy1, Fx1. reflexivity. }
  rewrite Hrect in *. subst y0 x0 y1 x1.
  exists arrayLength, dataPlanes, d4.
  repeat split; try assumption.
  apply andb_false_iff in En.
  destruct En as [En | En]; apply negb_false_iff, Z.eqb_eq in En; auto.
Qed.

(** The array without pixels decodes to the null image; on the array
    that runs backwards the process dies in the loop that writes the
    pixels. *)
Example readVirtualArrayList_null_image :
  readVirtualArrayList stdCollaborators 1 (mkDevice emptyVirtualArrayList 0)
    = (Ok nullImage, mkDevice emptyVirtualArrayList 59, [])
  /\ readVirtualArrayList stdCollaborators 1 (mkDevice backwardsVirtualArrayList 0)
    = (Crash, mkDevice backwardsVirtualArrayList 67, []).
Proof. split; vm_compute; reflexivity. Qed.

(** X13: a virtual array list decodes only when its version is 3 and
    the caller asks for one or for three planes; it appends no node,
    the image has four bytes for each of its [width * height] pixels,
    and the cursor ends at the declared end of the array, the declared
    length past the length field, wherever the planes ended. *)
Theorem readVirtualArrayList_accepts ext numPlanes d image d' l :
  readVirtualArrayList ext numPlanes d = (Ok image, d', l) ->
  exists d1 arrayLength d2,
    psdread 4 d GARBAGE_VALUE_MARK = (true, 3, d1)
    /\ psdread 4 d1 GARBAGE_VALUE_MARK = (true, arrayLength, d2)
    /\ (numPlanes = 1 \/ numPlanes = 3)
    /\ pos d' = pos d + 8 + arrayLength
    /\ List.length (bits image)
       = (4 * Z.to_nat (to_int (imageWidth image * imageHeight image)))%nat
    /\ l = [].
Proof.
  intros H. apply readVirtualArrayList_Ok_inv in H.
  destruct H as (arrayLength & dataPlanes & d4
                 & Hv & Hlen & Hn & _ & _ & _ & _ & _ & Himage & Hpos & ->).
  exists (mkDevice (buffer d) (pos d + 4)), arrayLength,
    (mkDevice (buffer d) (pos d + 8)).
  repeat split; try assumption.
  apply composeImage_Ok_inv in Himage. cbv zeta in Himage.
  destruct Himage as (_ & _ & Hbits & Hsize).
  assert (Hlength : forall n s,
             List.length (flat_map (composePixel numPlanes dataPlanes) (seq s n))
             = (4 * n)%nat).
  { induction n as [|n IH]; intros s; simpl; [reflexivity|].
    rewrite IH. lia. }
  rewrite Hbits, Hlength.
  destruct (QImage_isNull _ _).
  - destruct Hsize as (-> & Hle). cbn [imageWidth imageHeight].
    replace (Z.to_nat _) with 0%nat by lia. reflexivity.
  - destruct Hsize as (-> & -> & _). reflexivity.
Qed.

Lemma readVirtualArrayList_accepts_witness :
  exists d1 arrayLength d2,
    psdread 4 (mkDevice rgbVirtualArrayList 0) GARBAGE_VALUE_MARK = (true, 3, d1)
    /\ psdread 4 d1 GARBAGE_VALUE_MARK = (true, arrayLength, d2)
    /\ (3 = 1 \/ 3 = 3)
    /\ pos (mkDevice rgbVirtualArrayList 127) = pos (mkDevice rgbVirtualArrayList 0) + 8 + arrayLength
    /\ List.length [5; 3; 1; 255; 6; 4; 2; 255] = Nat.mul 4 (Z.to_nat (to_int (2 * 1)))
    /\ @nil QDomNode = [].
Proof.
  apply (readVirtualArrayList_accepts stdCollaborators 3 (mkDevice rgbVirtualArrayList 0)
           (mkImage 2 1 [5; 3; 1; 255; 6; 4; 2; 255]) (mkDevice rgbVirtualArrayList 127) []).
  vm_compute. reflexivity.
Defined.

(** X14: the pixels of a three-plane array that decodes.  The three
    rounds of the loop over the planes, run one after the other from
    offset 28 of the array, store the planes [p0], [p1] and [p2], in
    this order; each holds exactly one byte per pixel of the array
    rectangle, and pixel [i] of the image is the four bytes: [p2] at
    [i], [p1] at [i], [p0] at [i], then 255. *)
Theorem readVirtualArrayList_three_planes ext d image d' l :
  readVirtualArrayList ext 3 d = (Ok image, d', l) ->
  exists p0 p1 p2 e1 e2 e3,
    readPlane ext (arrayRectAt d) 0 [[]; []; []] (mkDevice (buffer d) (pos d + 28))
      = (Ok [p0; []; []], e1, [])
    /\ readPlane ext (arrayRectAt d) 1 [p0; []; []] e1 = (Ok [p0; p1; []], e2, [])
    /\ readPlane ext (arrayRectAt d) 2 [p0; p1; []] e2 = (Ok [p0; p1; p2], e3, [])
    /\ List.length p1 = List.length p0 /\ List.length p2 = List.length p0
    /\ size p0 = to_int (QRect_width (arrayRectAt d) * QRect_height (arrayRectAt d))
    /\ bits image
       = flat_map (fun i => [nth i p2 0; nth i p1 0; nth i p0 0; 255])
                  (seq 0 (List.length p0)).
Proof.
  intros H. apply readVirtualArrayList_Ok_inv in H.
  destruct H as (arrayLength & dataPlanes & d4
                 & _ & _ & _ & _ & _ & _ & _ & Hplanes & Himage & _ & _).
  change (Z.to_nat 3) with 3%nat in Hplanes.
  apply readPlanes_three in Hplanes.
  destruct Hplanes as (p0 & p1 & p2 & e1 & e2 & -> & H0 & H1 & H2 & Hall).
  inversion Hall as [|? ? Hs0 Hall1]; subst.
  inversion Hall1 as [|? ? Hs1 Hall2]; subst.
  inversion Hall2 as [|? ? Hs2 _]; subst.
  apply composeImage_Ok_inv in Himage. cbv zeta in Himage.
  destruct Himage as (_ & _ & Hbits & _).
  exists p0, p1, p2, e1, e2, d4.
  do 3 (split; [assumption|]).
  unfold size in *.
  split; [lia|]. split; [lia|]. split; [assumption|].
  rewrite Hbits, <- Hs0, Nat2Z.id. reflexivity.
Qed.

Lemma readVirtualArrayList_three_planes_witness :
  exists p0 p1 p2 e1 e2 e3,
    readPlane stdCollaborators (arrayRectAt (mkDevice rgbVirtualArrayList 0)) 0
      [[]; []; []]
      (mkDevice (buffer (mkDevice rgbVirtualArrayList 0))
                (pos (mkDevice rgbVirtualArrayList 0) + 28))
      = (Ok [p0; []; []], e1, [])
    /\ readPlane stdCollaborators (arrayRectAt (mkDevice rgbVirtualArrayList 0)) 1
         [p0; []; []] e1 = (Ok [p0; p1; []], e2, [])
    /\ readPlane stdCollaborators (arrayRectAt (mkDevice rgbVirtualArrayList 0)) 2
         [p0; p1; []] e2 = (Ok [p0; p1; p2], e3, [])
    /\ List.length p1 = List.length p0 /\ List.length p2 = List.length p0
    /\ size p0 = to_int (QRect_width (arrayRectAt (mkDevice rgbVirtualArrayList 0))
                         * QRect_height (arrayRectAt (mkDevice rgbVirtualArrayList 0)))
    /\ [5; 3; 1; 255; 6; 4; 2; 255]
       = flat_map (fun i => [nth i p2 0; nth i p1 0; nth i p0 0; 255])
                  (seq 0 (List.length p0)).
Proof.
  apply (readVirtualArrayList_three_planes stdCollaborators
           (mkDevice rgbVirtualArrayList 0)
           (mkImage 2 1 [5; 3; 1; 255; 6; 4; 2; 255])
           (mkDevice rgbVirtualArrayList 127) []).
  vm_compute. reflexivity.
Defined.

(** X15: the pixels of a single-plane array that decodes.  The one
    round of the loop over the planes, run from offset 28 of the array,
    stores the plane [p0], one byte per pixel of the array rectangle,
    and pixel [i] of the image is the four bytes 0, 0, [p0] at [i],
    255: the plane reaches one colour channel only. *)
Theorem readVirtualArrayList_one_plane ext d image d' l :
  readVirtualArrayList ext 1 d = (Ok image, d', l) ->
  exists p0 e1,
    readPlane ext (arrayRectAt d) 0 [[]; []; []] (mkDevice (buffer d) (pos d + 28))
      = (Ok [p0; []; []], e1, [])
    /\ size p0 = to_int (QRect_width (arrayRectAt d) * QRect_height (arrayRectAt d))
    /\ bits image
       = flat_map (fun i => [0; 0; nth i p0 0; 255]) (seq 0 (List.length p0)).
Proof.
  intros H. apply readVirtualArrayList_Ok_inv in H.
  destruct H as (arrayLength & dataPlanes & d4
                 & _ & _ & _ & _ & _ & _ & _ & Hplanes & Himage & _ & _).
  change (Z.to_nat 1) with 1%nat in Hplanes.
  apply readPlanes_one in Hplanes.
  destruct Hplanes as (p0 & -> & H0 & Hs0).
  apply composeImage_Ok_inv in Himage. cbv zeta in Himage.
  destruct Himage as (_ & _ & Hbits & _).
  exists p0, d4.
  split; [assumption|]. split; [assumption|].
  rewrite Hbits, <- Hs0. unfold size. rewrite Nat2Z.id.
  apply flat_map_ext. intros i. apply composePixel_single_plane.
Qed.

Lemma readVirtualArrayList_one_plane_witness :
  exists p0 e1,
    readPlane stdCollaborators (arrayRectAt (mkDevice grayVirtualArrayList 0)) 0
      [[]; []; []]
      (mkDevice (buffer (mkDevice grayVirtualArrayList 0))
                (pos (mkDevice grayVirtualArrayList 0) + 28))
      = (Ok [p0; []; []], e1, [])
    /\ size p0 = to_int (QRect_width (arrayRectAt (mkDevice grayVirtualArrayList 0))
                         * QRect_height (arrayRectAt (mkDevice grayVirtualArrayList 0)))
    /\ [0; 0; 10; 255; 0; 0; 20; 255; 0; 0; 30; 255; 0; 0; 40; 255;
        0; 0; 50; 255; 0; 0; 60; 255; 0; 0; 70; 255; 0; 0; 80; 255]
       = flat_map (fun i => [0; 0; nth i p0 0; 255]) (seq 0 (List.length p0)).
Proof.
  apply (readVirtualArrayList_one_plane stdCollaborators
           (mkDevice grayVirtualArrayList 0)
           (mkImage 4 2 [0; 0; 10; 255; 0; 0; 20; 255; 0; 0; 30; 255; 0; 0; 40; 255;
                         0; 0; 50; 255; 0; 0; 60; 255; 0; 0; 70; 255; 0; 0; 80; 255])
           (mkDevice grayVirtualArrayList 67) []).
  vm_compute. reflexivity.
Defined.

(** ** The bytes of an uncompressed plane *)

(** X21: an uncompressed plane is stored as it is read.  When plane
    [i] decodes and its compression field, the byte at offset 30 of
    the plane, selects no compression, the plane stored is exactly the
    [width * height] bytes that follow that field, at offset 31. *)
Theorem readPlane_uncompressed_bytes ext arrayRect i dataPlanes d dataPlanes' d' l :
  (i < List.length dataPlanes)%nat ->
  readPlane ext arrayRect i dataPlanes d = (Ok dataPlanes', d', l) ->
  psdread 1 (mkDevice (buffer d) (pos d + 30)) 9
    = (true, Compression_Uncompressed ext, mkDevice (buffer d) (pos d + 31)) ->
  nth i dataPlanes' []
  = firstn (Z.to_nat (to_int (QRect_width arrayRect * QRect_height arrayRect)))
           (remainingBytes (mkDevice (buffer d) (pos d + 31))).
Proof.
  intros Hi H Hfield. unfold readPlane in H.
  apply bind_silent_Ok_inv in H; [|auto with silent].
  destruct H as (w & d1 & Hw & H).
  apply bind_silent_Ok_inv in H; [|auto with silent].
  destruct H as (len & d2 & Hlen & H).
  apply readNonZero_Ok_inv in Hw. destruct Hw as (Hw & _ & _).
  apply readNonZero_Ok_inv in Hlen. destruct Hlen as (Hlen & _ & _).
  pose proof (psdread_true_device _ _ _ _ _ Hw) as E. subst d1.
  pose proof (psdread_true_at _ _ _ _ _ _ Hlen) as E. subst d2.
  replace (pos d + Z.of_nat 4 + Z.of_nat 4) with (pos d + 8) in * by lia.
  apply SETUP_OFFSET_VERIFIER_Ok_inv in H. destruct H as (d3 & H).
  unfold bind at 1 in H. unfold device_pos at 1 in H. cbn [pos] in H.
  destruct (bind (SAFE_READ_EX 4 "pixelDepth1" GARBAGE_VALUE_MARK) _ _)
    as [[r4 d4] l4] eqn:Hbody.
  assert (Hr : r4 = Ok dataPlanes' /\ d4 = d3)
    by (destruct r4; inversion H; subst; auto).
  destruct Hr as [-> ->]. clear H. rename Hbody into H.
  apply bind_silent_Ok_inv in H; [|auto with silent].
  destruct H as (depth1 & e0 & Hd1 & H). apply SAFE_READ_EX_Ok_inv in Hd1.
  pose proof (psdread_true_at _ _ _ _ _ _ Hd1) as E. subst e0.
  replace (pos d + 8 + Z.of_nat 4) with (pos d + 12) in * by lia.
  apply bind_silent_Ok_inv in H; [|auto with silent].
  destruct H as (y0 & e1 & Hy0 & H). apply SAFE_READ_EX_Ok_inv in Hy0.
  pose proof (psdread_true_at _ _ _ _ _ _ Hy0) as E. subst e1.
  replace (pos d + 12 + Z.of_nat 4) with (pos d + 16) in * by lia.
  apply bind_silent_Ok_inv in H; [|auto with silent].
  destruct H as (x0 & e2 & Hx0 & H). apply SAFE_READ_EX_Ok_inv in Hx0.
  pose proof (psdread_true_at _ _ _ _ _ _ Hx0) as E. subst e2.
  replace (pos d + 16 + Z.of_nat 4) with (pos d + 20) in * by lia.
  apply bind_silent_Ok_inv in H; [|auto with silent].
  destruct H as (y1 & e3 & Hy1 & H). apply SAFE_READ_EX_Ok_inv in Hy1.
  pose proof (psdread_true_at _ _ _ _ _ _ Hy1) as E. subst e3.
  replace (pos d + 20 + Z.of_nat 4) with (pos d + 24) in * by lia.
  apply bind_silent_Ok_inv in H; [|auto with silent].
  destruct H as (x1 & e4 & Hx1 & H). apply SAFE_READ_EX_Ok_inv in Hx1.
  pose proof (psdread_true_at _ _ _ _ _ _ Hx1) as E. subst e4.
  replace (pos d + 24 + Z.of_nat 4) with (pos d + 28) in * by lia.
  cbv zeta in H.
  destruct (negb (QRect_eqb _ arrayRect)) eqn:Hrect; [discriminate|].
  apply negb_false_iff, QRect_eqb_eq in Hrect. rewrite Hrect in H.
  apply bind_silent_Ok_inv in H; [|auto with silent].
  destruct H as (depth2 & e5 & Hd2 & H). apply SAFE_READ_EX_Ok_inv in Hd2.
  pose proof (psdread_true_at _ _ _ _ _ _ Hd2) as E. subst e5.
  replace (pos d + 28 + Z.of_nat 2) with (pos d + 30) in * by lia.
  apply bind_silent_Ok_inv in H; [|auto with silent].
  destruct H as (useCompression & e6 & Hc & H). apply SAFE_READ_EX_Ok_inv in Hc.
  rewrite Hfield in Hc. inversion Hc; subst useCompression e6; clear Hc.
  destruct (negb (depth1 =? depth2)); [discriminate|].
  destruct (negb (depth1 =? 8)); [discriminate|].
  rewrite Z.eqb_refl in H.
  unfold bind at 1 in H. unfold device_read at 1, QIODevice_read in H.
  match type of H with
  | context [negb (size ?p =? _)] => set (plane := p) in *
  end.
  destruct (negb (size plane =? _)); [discriminate|].
  unfold bind, device_seek, ret in H. inversion H; subst.
  rewrite setPlane_same by exact Hi. reflexivity.
Qed.

Lemma readPlane_uncompressed_bytes_witness :
  nth 1 [[1; 2]; [3; 4]; []] []
  = firstn (Z.to_nat (to_int (QRect_width (QRect_xywh 0 0 2 1)
                              * QRect_height (QRect_xywh 0 0 2 1))))
           (remainingBytes (mkDevice (buffer (mkDevice rgbVirtualArrayList 61))
                                     (pos (mkDevice rgbVirtualArrayList 61) + 31))).
Proof.
  apply (readPlane_uncompressed_bytes stdCollaborators (QRect_xywh 0 0 2 1) 1
           [[1; 2]; []; []] (mkDevice rgbVirtualArrayList 61)
           [[1; 2]; [3; 4]; []] (mkDevice rgbVirtualArrayList 94) []).
  - simpl. lia.
  - vm_compute. reflexivity.
  - vm_compute. reflexivity.
Defined.

(** ** Strings *)

Lemma QString_of_bytes_length data :
  (String.length (QString_of_bytes data) <= List.length data)%nat.
Proof.
  induction data as [|b rest IH]; simpl; [lia|].
  destruct (b mod 256 =? 0); simpl; lia.
Qed.

Lemma readStringCommon_Ok_cursor len d s d' l :
  readStringCommon len d = (Ok s, d', l) ->
  l = []
  /\ ((len = -1 /\ d' = d)
      \/ (0 <= len
          /\ pos d' = pos d + len
          /\ s = QString_of_bytes (firstn (Z.to_nat len) (remainingBytes d))
          /\ Z.of_nat (String.length s) <= len)).
Proof.
  unfold readStringCommon, QIODevice_read_into.
  destruct (len <? 0) eqn:Eneg.
  - destruct (-1 =? len) eqn:E; simpl; [|discriminate].
    apply Z.eqb_eq in E. intros H; inversion H; subst. auto.
  - apply Z.ltb_ge in Eneg. unfold QIODevice_read.
    set (data := firstn (Z.to_nat len) (remainingBytes d)).
    destruct (Z.of_nat (List.length data) =? len) eqn:E; simpl; [|discriminate].
    apply Z.eqb_eq in E. intros H. injection H as Hs Hd Hl. subst s d' l.
    split; [reflexivity|]. right.
    split; [assumption|]. split; [simpl; lia|]. split; [reflexivity|].
    pose proof (QString_of_bytes_length data). lia.
Qed.

(** X16: [readStringCommon] returns a string in two cases only.  For a
    length that is not negative, exactly [length] bytes were read: the
    cursor is [length] bytes further and the string is the text of
    these bytes, cut at the first NUL, so no longer than [length].  For
    the length -1 nothing is read and the string is empty.  The buffer
    is never changed and no node is appended. *)
Theorem readStringCommon_success len d s d' l :
  readStringCommon len d = (Ok s, d', l) ->
  l = [] /\ buffer d' = buffer d
  /\ ((len = -1 /\ d' = d /\ s = "")
      \/ (0 <= len
          /\ pos d' = pos d + len
          /\ s = QString_of_bytes (firstn (Z.to_nat len) (remainingBytes d))
          /\ Z.of_nat (String.length s) <= len)).
Proof.
  unfold readStringCommon, QIODevice_read_into.
  destruct (len <? 0) eqn:Eneg.
  - destruct (-1 =? len) eqn:E; simpl; [|discriminate].
    apply Z.eqb_eq in E. intros H; inversion H; subst.
    split; [reflexivity|]. split; [reflexivity|]. left. repeat split.
  - apply Z.ltb_ge in Eneg. unfold QIODevice_read.
    set (data := firstn (Z.to_nat len) (remainingBytes d)).
    destruct (Z.of_nat (List.length data) =? len) eqn:E; simpl; [|discriminate].
    apply Z.eqb_eq in E. intros H. injection H as Hs Hd Hl. subst s d' l.
    split; [reflexivity|]. split; [reflexivity|]. right.
    split; [assumption|]. split; [simpl; lia|]. split; [reflexivity|].
    pose proof (QString_of_bytes_length data). lia.
Qed.

Lemma readStringCommon_success_witness :
  @nil QDomNode = [] /\ buffer (mkDevice [56; 66; 0; 77; 9] 4) = buffer (mkDevice [56; 66; 0; 77; 9] 0)
  /\ ((4 = -1 /\ mkDevice [56; 66; 0; 77; 9] 4 = mkDevice [56; 66; 0; 77; 9] 0 /\ "8B" = "")
      \/ (0 <= 4
          /\ pos (mkDevice [56; 66; 0; 77; 9] 4) = pos (mkDevice [56; 66; 0; 77; 9] 0) + 4
          /\ "8B" = QString_of_bytes
                      (firstn (Z.to_nat 4) (remainingBytes (mkDevice [56; 66; 0; 77; 9] 0)))
          /\ Z.of_nat (String.length "8B") <= 4)).
Proof.
  apply (readStringCommon_success 4 (mkDevice [56; 66; 0; 77; 9] 0)).
  vm_compute. reflexivity.
Defined.

Lemma psdread_one_byte d init n d1 :
  Forall (fun b => 0 <= b < 256) (buffer d) ->
  psdread 1 d init = (true, n, d1) ->
  0 <= n < 256.
Proof.
  unfold psdread, QIODevice_read, remainingBytes. intros Hbytes.
  set (rest := skipn (Z.to_nat (pos d)) (buffer d)).
  assert (Hrest : Forall (fun b => 0 <= b < 256) rest).
  { apply Forall_forall. intros b Hb. rewrite Forall_forall in Hbytes.
    apply Hbytes. unfold rest in Hb.
    rewrite <- (firstn_skipn (Z.to_nat (pos d)) (buffer d)).
    apply in_or_app. right. exact Hb. }
  change (Z.to_nat (Z.of_nat 1)) with 1%nat.
  destruct rest as [|b rest']; simpl; [discriminate|].
  intros H; inversion H; subst.
  inversion Hrest; subst. unfold be_decode. simpl. assumption.
Qed.

(** X17: on a buffer of bytes, a Pascal string that is read has the
    layout one length byte [n], then [n] bytes: the cursor ends
    [1 + n] bytes further, with [n] at most 255, and the string is no
    longer than [n].  A zero length byte gives the empty string and
    reads nothing more. *)
Theorem readPascalString_success d s d' l :
  Forall (fun b => 0 <= b < 256) (buffer d) ->
  readPascalString d = (Ok s, d', l) ->
  exists n d1,
    psdread 1 d 0 = (true, n, d1)
    /\ 0 <= n < 256
    /\ pos d' = pos d + 1 + n
    /\ Z.of_nat (String.length s) <= n
    /\ (n = 0 -> s = "")
    /\ l = [].
Proof.
  intros Hbytes H. unfold readPascalString in H.
  apply bind_silent_Ok_inv in H; [|auto with silent].
  destruct H as (n & d1 & Hn & H).
  apply SAFE_READ_EX_Ok_inv in Hn.
  pose proof (psdread_one_byte _ _ _ _ Hbytes Hn) as Hrange.
  pose proof (psdread_true_device _ _ _ _ _ Hn) as Hd1.
  apply readStringCommon_Ok_cursor in H.
  destruct H as (Hl & [(Hneg & _) | (_ & Hpos & Hs & Hlen)]); [lia|].
  exists n, d1. repeat split; try assumption; try lia.
  - rewrite Hpos. subst d1. simpl. lia.
  - intros ->. destruct s; [reflexivity | simpl in Hlen; lia].
Qed.

Lemma readPascalString_success_witness :
  exists n d1,
    psdread 1 (mkDevice [2; 105; 100; 7] 0) 0 = (true, n, d1)
    /\ 0 <= n < 256
    /\ pos (mkDevice [2; 105; 100; 7] 3) = pos (mkDevice [2; 105; 100; 7] 0) + 1 + n
    /\ Z.of_nat (String.length "id") <= n
    /\ (n = 0 -> "id" = "")
    /\ @nil QDomNode = [].
Proof.
  apply (readPascalString_success (mkDevice [2; 105; 100; 7] 0)).
  - repeat constructor; lia.
  - vm_compute. reflexivity.
Defined.

(** ** The point node *)

(** X18: the node of a point is a Descriptor of class "CrPt" with two
    Double children keyed "Hrzn" and "Vrtc", of the shape the decoder
    gives to a descriptor; both children carry the horizontal
    coordinate, and the vertical coordinate of the point has no effect
    on the node. *)
Theorem appendPointXMLNode_node ext key x y d :
  exists node,
    appendPointXMLNode ext key (x, y) d = (Ok tt, d, [node])
    /\ valueNode false node = true
    /\ attribute "classId" node = Some "CrPt"
    /\ map (attribute "key") (childNodes node) = [Some "Hrzn"; Some "Vrtc"]
    /\ map (attribute "value") (childNodes node)
       = [Some (numberToString_double ext x); Some (numberToString_double ext x)]
    /\ forall y', appendPointXMLNode ext key (x, y') d = (Ok tt, d, [node]).
Proof.
  exists (XMLNodeCommonNoValue key "Descriptor" [("classId", "CrPt"); ("name", "")]
            [XMLNodeCommon "Hrzn" (numberToString_double ext x) "Double" [];
             XMLNodeCommon "Vrtc" (numberToString_double ext x) "Double" []]).
  split; [reflexivity|]. split.
  - apply valueNode_container; [discriminate|]. left.
    split; [reflexivity|]. split; [eauto | reflexivity].
  - split.
    + unfold XMLNodeCommonNoValue, keyAttribute, attribute.
      destruct (String.eqb key "") eqn:E; simpl.
      * reflexivity.
      * destruct (String.eqb "classId" "key") eqn:E2; [discriminate E2 | reflexivity].
    + repeat split.
Qed.

(** ** Moving forward *)

(** X19: with a unicode reader that leaves the buffer alone and does
    not move the cursor backwards, decoding a descriptor, however it
    ends, leaves the buffer as it was and the cursor at or after its
    start. *)
Theorem readDescriptor_moves_forward ext fuel key d r d' l :
  unicodeReaderForward ext ->
  readDescriptor ext fuel key d = (r, d', l) ->
  buffer d' = buffer d /\ pos d <= pos d'.
Proof.
  intros Hfwd H. exact (forward_readDescriptor ext Hfwd fuel key d r d' l H).
Qed.

Lemma readDescriptor_moves_forward_witness :
  buffer (mkDevice mixedDescriptor 70) = buffer (mkDevice mixedDescriptor 0)
  /\ pos (mkDevice mixedDescriptor 0) <= pos (mkDevice mixedDescriptor 70).
Proof.
  eapply (readDescriptor_moves_forward stdCollaborators 3 ""
            (mkDevice mixedDescriptor 0) _ (mkDevice mixedDescriptor 70) _
            psdread_unicodestring_model_forward).
  vm_compute. reflexivity.
Defined.

Lemma readFile_enough_fuel_witness :
  let r := fst (readFile stdCollaborators 20 (mkDevice containerNoPatterns 0)) in
  r <> OutOfFuel /\ forall e, r <> Throw e.
Proof.
  apply (readFile_enough_fuel stdCollaborators psdread_unicodestring_model_forward
           20 (mkDevice containerNoPatterns 0)).
  - simpl. lia.
  - vm_compute. lia.
Defined.

Lemma readVarString_large_prefix_witness :
  readVarString (mkDevice [255; 255; 255; 254; 65; 66] 0)
  = (if 4294967294 =? 2 ^ 32 - 1 then Ok ""
     else Throw (FailedString (-1) (4294967294 - 2 ^ 32)),
     mkDevice [255; 255; 255; 254; 65; 66] 4, []).
Proof.
  apply (readVarString_large_prefix (mkDevice [255; 255; 255; 254; 65; 66] 0)
           4294967294 (mkDevice [255; 255; 255; 254; 65; 66] 4)).
  - vm_compute. reflexivity.
  - lia.
Defined.

(** ** The size of the image *)

Lemma to_int_int z : - 2 ^ 31 <= z < 2 ^ 31 -> to_int z = z.
Proof.
  intros H. unfold to_int. rewrite Z.mod_small by lia. lia.
Qed.

Lemma QRect_xywh_extent a b :
  0 <= a <= b -> b < 2 ^ 31 ->
  to_int (to_int (to_int a + to_int (quint32 (b - a)) - 1) - to_int a + 1) = b - a.
Proof.
  intros Hab Hb. unfold quint32.
  rewrite (Z.mod_small (b - a)) by lia.
  rewrite (to_int_int a) by lia.
  rewrite (to_int_int (b - a)) by lia.
  rewrite (to_int_int (a + (b - a) - 1)) by lia.
  rewrite to_int_int by lia. lia.
Qed.

(** X20: the size of the image of an array that decodes.  The four
    fields after the length are read as top, left, bottom, right.  For
    coordinates below 2^31 with left not above right and top not above
    bottom, the image is [right - left] pixels wide and [bottom - top]
    pixels high when Qt accepts this size; when it does not (a width
    or a height of zero, or a size too large) what is returned is the
    null image, 0 by 0 and without pixels. *)
Theorem readVirtualArrayList_image_dimensions ext numPlanes d image d' l :
  readVirtualArrayList ext numPlanes d = (Ok image, d', l) ->
  exists top left bottom right,
    psdread 4 (mkDevice (buffer d) (pos d + 8)) 0
      = (true, top, mkDevice (buffer d) (pos d + 12))
    /\ psdread 4 (mkDevice (buffer d) (pos d + 12)) 0
      = (true, left, mkDevice (buffer d) (pos d + 16))
    /\ psdread 4 (mkDevice (buffer d) (pos d + 16)) 0
      = (true, bottom, mkDevice (buffer d) (pos d + 20))
    /\ psdread 4 (mkDevice (buffer d) (pos d + 20)) 0
      = (true, right, mkDevice (buffer d) (pos d + 24))
    /\ (0 <= left <= right -> right < 2 ^ 31 ->
        0 <= top <= bottom -> bottom < 2 ^ 31 ->
        if QImage_isNull (right - left) (bottom - top)
        then image = nullImage
        else imageWidth image = right - left /\ imageHeight image = bottom - top).
Proof.
  intros H. apply readVirtualArrayList_Ok_inv in H.
  destruct H as (arrayLength & dataPlanes & d4
                 & _ & _ & _ & Hy0 & Hx0 & Hy1 & Hx1 & _ & Himage & _ & _).
  exists (fieldAt d 8), (fieldAt d 12), (fieldAt d 16), (fieldAt d 20).
  do 4 (split; [assumption|]).
  intros Hx Hxmax Hy Hymax.
  apply composeImage_Ok_inv in Himage. cbv zeta in Himage.
  destruct Himage as (_ & _ & _ & Hsize).
  assert (Hw : QRect_width (arrayRectAt d) = fieldAt d 20 - fieldAt d 12).
  { unfold arrayRectAt, QRect_width, QRect_xywh. cbn [rx1 rx2].
    apply QRect_xywh_extent; assumption. }
  assert (Hh : QRect_height (arrayRectAt d) = fieldAt d 16 - fieldAt d 8).
  { unfold arrayRectAt, QRect_height, QRect_xywh. cbn [ry1 ry2].
    apply QRect_xywh_extent; assumption. }
  rewrite Hw, Hh in Hsize.
  destruct (QImage_isNull _ _).
  - apply Hsize.
  - destruct Hsize as (Hiw & Hih & _). split; assumption.
Qed.

Lemma readVirtualArrayList_image_dimensions_witness :
  exists top left bottom right,
    psdread 4 (mkDevice (buffer (mkDevice rgbVirtualArrayList 0))
                        (pos (mkDevice rgbVirtualArrayList 0) + 8)) 0
      = (true, top, mkDevice (buffer (mkDevice rgbVirtualArrayList 0))
                             (pos (mkDevice rgbVirtualArrayList 0) + 12))
    /\ psdread 4 (mkDevice (buffer (mkDevice rgbVirtualArrayList 0))
                           (pos (mkDevice rgbVirtualArrayList 0) + 12)) 0
      = (true, left, mkDevice (buffer (mkDevice rgbVirtualArrayList 0))
                              (pos (mkDevice rgbVirtualArrayList 0) + 16))
    /\ psdread 4 (mkDevice (buffer (mkDevice rgbVirtualArrayList 0))
                           (pos (mkDevice rgbVirtualArrayList 0) + 16)) 0
      = (true, bottom, mkDevice (buffer (mkDevice rgbVirtualArrayList 0))
                                (pos (mkDevice rgbVirtualArrayList 0) + 20))
    /\ psdread 4 (mkDevice (buffer (mkDevice rgbVirtualArrayList 0))
                           (pos (mkDevice rgbVirtualArrayList 0) + 20)) 0
      = (true, right, mkDevice (buffer (mkDevice rgbVirtualArrayList 0))
                               (pos (mkDevice rgbVirtualArrayList 0) + 24))
    /\ (0 <= left <= right -> right < 2 ^ 31 ->
        0 <= top <= bottom -> bottom < 2 ^ 31 ->
        if QImage_isNull (right - left) (bottom - top)
        then mkImage 2 1 [5; 3; 1; 255; 6; 4; 2; 255] = nullImage
        else 2 = right - left /\ 1 = bottom - top).
Proof.
  apply (readVirtualArrayList_image_dimensions stdCollaborators 3
           (mkDevice rgbVirtualArrayList 0)
           (mkImage 2 1 [5; 3; 1; 255; 6; 4; 2; 255])
           (mkDevice rgbVirtualArrayList 127) []).
  vm_compute. reflexivity.
Defined.
